(** * Tax service: bracket calculator, remote fetch and circuit breaker

    A shallow embedding of [services.TaxCalculator] (CalculateTax,
    doFetchTaxData, FetchTaxData and the breaker settings built by
    NewTaxCalculatorWithFullConfig) with the model types of package
    [models].  Go's [float64] is the kernel's binary64 [float]; every
    arithmetic operation of the source is one rounded IEEE-754 operation
    here (no fused multiply-add).

    The development also embeds package [logger], the handler of package
    [handlers] (parseSalary, Handle) on top of the service, and the request
    distribution and the collection of results of the benchmark tool. *)

From Stdlib Require Import ZArith List Bool String Ascii Lia Floats DecimalString.
From Stdlib Require Uint63.
From Stdlib Require Import Permutation.
Import ListNotations.

Set Warnings "-inexact-float".

(** ** Package models *)

Module models.

(** TaxBracket: min, max (0 when absent: the unbounded top bracket), rate. *)
Record TaxBracket := mkTaxBracket {
  Min : float;
  Max : float;
  Rate : float
}.

Record TaxCalcError := mkTaxCalcError {
  Code : string;
  Field : string;
  Message : string
}.

Record TaxCalculatorResponse := mkTaxCalculatorResponse {
  TaxBrackets : list TaxBracket
}.

Record CircuitBreakerConfig := mkCircuitBreakerConfig {
  RequestThreshold : Z;
  FailureRatio : float;
  Timeout : Z;
  MaxHalfOpenReqs : Z
}.

End models.

(** ** Go's math.Round on binary64 *)

Module math.

(** [math.Round]: the nearest integer, halves rounded away from zero;
    zeros, infinities and NaN are returned as they are.  A finite
    [m * 2^e] with [e >= 0] is an integer already. *)
Definition SFround (x : spec_float) : spec_float :=
  match x with
  | S754_finite s m e =>
      if (0 <=? e)%Z then x
      else
        let d := (2 ^ (- e))%Z in
        let q := (Z.pos m / d)%Z in
        let r := (Z.pos m mod d)%Z in
        let n := if (d <=? 2 * r)%Z then (q + 1)%Z else q in
        binary_normalize prec emax (cond_Zopp s n) 0 s
  | _ => x
  end.

Definition Round (x : float) : float := SF2Prim (SFround (Prim2SF x)).

End math.

(** ** Go values shared by the packages below *)

(** A Go [error] value.  The two breaker sentinels are compared by identity
    in FetchTaxData; every other error of the service is made by
    [fmt.Errorf], or comes from net/http, io or encoding/json. *)
Inductive error :=
| ErrOpenState
| ErrTooManyRequests
| Errorf (msg : string)
| Foreign (msg : string).

(** [err.Error()], which is what the verb [%v] prints. *)
Definition Error (e : error) : string :=
  match e with
  | ErrOpenState => "circuit breaker is open"
  | ErrTooManyRequests => "too many requests"
  | Errorf msg => msg
  | Foreign msg => msg
  end.

Definition error_eqb (a b : error) : bool :=
  match a, b with
  | ErrOpenState, ErrOpenState => true
  | ErrTooManyRequests, ErrTooManyRequests => true
  | Errorf x, Errorf y => String.eqb x y
  | Foreign x, Foreign y => String.eqb x y
  | _, _ => false
  end.

(** A Go call that may panic instead of returning. *)
Inductive Outcome (A : Type) :=
| Returns (a : A)
| Panics.
Arguments Returns {A} a.
Arguments Panics {A}.

Module strings.

(** [strings.Join(elems, sep)]. *)
Fixpoint Join (elems : list string) (sep : string) : string :=
  match elems with
  | [] => ""
  | x :: rest =>
      match rest with
      | [] => x
      | _ :: _ => x ++ sep ++ Join rest sep
      end
  end.

End strings.

Module fmt.

(** The verb [%d] on an [int]. *)
Definition d (n : Z) : string := NilZero.string_of_int (Z.to_int n).

End fmt.

Module http.

Definition StatusOK : Z := 200.

(** What the service reads of a [*http.Response]: the status code and
    the result of [ioutil.ReadAll(resp.Body)]. *)
Record Response := mkResponse {
  StatusCode : Z;
  ReadAll : error + string
}.

(** [http.NewRequest] followed by [client.Do]. *)
Inductive Exchange :=
| NewRequestFails (err : error)
| DoFails (err : error)
| DoReturns (resp : Response).

End http.

(** ** The circuit breaker *)

Module gobreaker.

Inductive State := StateClosed | StateHalfOpen | StateOpen.

Definition State_eqb (a b : State) : bool :=
  match a, b with
  | StateClosed, StateClosed => true
  | StateHalfOpen, StateHalfOpen => true
  | StateOpen, StateOpen => true
  | _, _ => false
  end.

(** Counts accumulated since the last state transition. *)
Record Counts := mkCounts {
  Requests : Z;
  TotalSuccesses : Z;
  TotalFailures : Z
}.

Definition clear : Counts := mkCounts 0 0 0.

Definition onSuccess (c : Counts) : Counts :=
  mkCounts (Requests c + 1) (TotalSuccesses c + 1) (TotalFailures c).

Definition onFailure (c : Counts) : Counts :=
  mkCounts (Requests c + 1) (TotalSuccesses c) (TotalFailures c + 1).

Section Breaker.
(** The world the guarded operation and the notification act on. *)
Variable W : Type.

Record Settings := mkSettings {
  MaxRequests : Z;
  Timeout : Z;
  ReadyToTrip : Counts -> bool;
  OnStateChange : State -> State -> W -> W
}.

Record CircuitBreaker := mkCircuitBreaker {
  settings : Settings;
  state : State;
  counts : Counts;
  openedAt : Z;
  trials : Z
}.

Definition NewCircuitBreaker (st : Settings) : CircuitBreaker :=
  mkCircuitBreaker st StateClosed clear 0 0.

(** Modelled from the spec: the breaker's state machine is the
    gobreaker dependency, whose code is not in the repository; this is
    section 4.1 of the specification.  [setState] enters [to] at time
    [now]: Counts are reset, [openedAt] is recorded on entering Open,
    and the transition is reported. *)
Definition setState (to : State) (now : Z) (cb : CircuitBreaker)
  : CircuitBreaker * list (State * State) :=
  (mkCircuitBreaker (settings cb) to clear
     (match to with StateOpen => now | _ => openedAt cb end)
     0,
   [(state cb, to)]).

(** Modelled from the spec: admission of a call at time [now] (section
    4.1).  Closed admits every call; Open rejects with CircuitOpen
    until [now - openedAt >= Timeout], when the call turns the breaker
    Half-Open and is admitted as a trial; Half-Open admits at most
    [MaxRequests] trials in flight and rejects the excess. *)
Definition beforeRequest (now : Z) (cb : CircuitBreaker)
  : option error * CircuitBreaker * list (State * State) :=
  match state cb with
  | StateClosed => (None, cb, [])
  | StateOpen =>
      if (Timeout (settings cb) <=? now - openedAt cb)%Z then
        let '(cb', notes) := setState StateHalfOpen now cb in
        (None,
         mkCircuitBreaker (settings cb') (state cb') (counts cb')
           (openedAt cb') 1,
         notes)
      else (Some ErrOpenState, cb, [])
  | StateHalfOpen =>
      if (MaxRequests (settings cb) <=? trials cb)%Z then
        (Some ErrTooManyRequests, cb, [])
      else
        (None,
         mkCircuitBreaker (settings cb) (state cb) (counts cb)
           (openedAt cb) (trials cb + 1),
         [])
  end.

(** Modelled from the spec: completion of an admitted call at time
    [now] (section 4.1).  Closed counts the completion and, after a
    failure, trips when [ReadyToTrip] holds of the Counts; Half-Open
    reopens on one failed trial and closes when the successful trials
    reach [MaxRequests]; in Open no Counts are incremented. *)
Definition afterRequest (now : Z) (success : bool) (cb : CircuitBreaker)
  : CircuitBreaker * list (State * State) :=
  match state cb with
  | StateClosed =>
      if success then
        (mkCircuitBreaker (settings cb) (state cb) (onSuccess (counts cb))
           (openedAt cb) (trials cb), [])
      else
        let c := onFailure (counts cb) in
        if ReadyToTrip (settings cb) c then setState StateOpen now cb
        else
          (mkCircuitBreaker (settings cb) (state cb) c
             (openedAt cb) (trials cb), [])
  | StateHalfOpen =>
      if success then
        let c := onSuccess (counts cb) in
        if (MaxRequests (settings cb) <=? TotalSuccesses c)%Z then
          setState StateClosed now cb
        else
          (mkCircuitBreaker (settings cb) (state cb) c
             (openedAt cb) (trials cb - 1), [])
      else setState StateOpen now cb
  | StateOpen => (cb, [])
  end.

Definition notify (st : Settings) (notes : list (State * State)) (w : W) : W :=
  fold_left (fun w n => OnStateChange st (fst n) (snd n) w) notes w.

(** Modelled from the spec: [Execute(operation)] (section 4.1).  A
    rejected call returns the nil result with the rejection and does
    not run [req]; an admitted call runs [req] and returns what it
    returned.  [now] reads the clock of the world. *)
Definition Execute {R : Type} (now : W -> Z)
           (req : W -> (R * option error) * W)
           (cb : CircuitBreaker) (w : W)
  : (option R * option error) * CircuitBreaker * W :=
  let '(rejected, cb1, notes1) := beforeRequest (now w) cb in
  let w1 := notify (settings cb) notes1 w in
  match rejected with
  | Some err => ((None, Some err), cb1, w1)
  | None =>
      let '((result, err), w2) := req w1 in
      let success := match err with None => true | Some _ => false end in
      let '(cb2, notes2) := afterRequest (now w2) success cb1 in
      ((Some result, err), cb2, notify (settings cb) notes2 w2)
  end.

(** The events of a breaker's life: a call asks for admission, or an
    admitted call completes. *)
Inductive Event :=
| Admit (now : Z)
| Complete (now : Z) (success : bool).

Definition step (ev : Event) (cb : CircuitBreaker) : CircuitBreaker :=
  match ev with
  | Admit now => snd (fst (beforeRequest now cb))
  | Complete now success => fst (afterRequest now success cb)
  end.

Inductive reachable (st : Settings) : CircuitBreaker -> Prop :=
| reachable_new : reachable st (NewCircuitBreaker st)
| reachable_step ev cb : reachable st cb -> reachable st (step ev cb).

End Breaker.

Arguments MaxRequests {W} _.
Arguments Timeout {W} _.
Arguments ReadyToTrip {W} _ _.
Arguments OnStateChange {W} _ _ _ _.
Arguments mkSettings {W} _ _ _ _.
Arguments mkCircuitBreaker {W} _ _ _ _ _.
Arguments settings {W} _.
Arguments state {W} _.
Arguments counts {W} _.
Arguments openedAt {W} _.
Arguments trials {W} _.
Arguments NewCircuitBreaker {W} _.
Arguments setState {W} _ _ _.
Arguments beforeRequest {W} _ _.
Arguments afterRequest {W} _ _ _.
Arguments notify {W} _ _ _.
Arguments Execute {W R} _ _ _ _.
Arguments step {W} _ _.
Arguments reachable {W} _ _.

End gobreaker.

(** ** Package metrics *)

Module metrics.

(** The collectors the service writes, for one value of the labels. *)
Record Metrics := mkMetrics {
  CircuitBreakerState : Z;
  CircuitBreakerRejected : Z;
  CircuitBreakerRequestsTrue : Z;
  CircuitBreakerRequestsFalse : Z;
  TaxServiceErrors : Z
}.

Definition SetCircuitBreakerState (v : Z) (m : Metrics) : Metrics :=
  mkMetrics v (CircuitBreakerRejected m) (CircuitBreakerRequestsTrue m)
    (CircuitBreakerRequestsFalse m) (TaxServiceErrors m).

Definition IncCircuitBreakerRejected (m : Metrics) : Metrics :=
  mkMetrics (CircuitBreakerState m) (CircuitBreakerRejected m + 1)
    (CircuitBreakerRequestsTrue m) (CircuitBreakerRequestsFalse m)
    (TaxServiceErrors m).

Definition IncCircuitBreakerRequests (success : bool) (m : Metrics) : Metrics :=
  if success then
    mkMetrics (CircuitBreakerState m) (CircuitBreakerRejected m)
      (CircuitBreakerRequestsTrue m + 1) (CircuitBreakerRequestsFalse m)
      (TaxServiceErrors m)
  else
    mkMetrics (CircuitBreakerState m) (CircuitBreakerRejected m)
      (CircuitBreakerRequestsTrue m) (CircuitBreakerRequestsFalse m + 1)
      (TaxServiceErrors m).

Definition IncTaxServiceErrors (m : Metrics) : Metrics :=
  mkMetrics (CircuitBreakerState m) (CircuitBreakerRejected m)
    (CircuitBreakerRequestsTrue m) (CircuitBreakerRequestsFalse m)
    (TaxServiceErrors m + 1).

End metrics.

(** ** Package services

    The calls of package logger only write to the log sink; they are left
    out.  The metrics the service writes are kept in [metrics.Metrics]. *)

Module services.
Import models.

(** *** The calculator *)

Section Calculator.
Local Open Scope float_scope.

(** The [for _, bracket := range brackets] loop of CalculateTax, with
    [totalTax] as the accumulator; [break] returns the accumulator. *)
Fixpoint CalculateTax_loop (salary : float) (brackets : list TaxBracket)
         (totalTax : float) : float :=
  match brackets with
  | [] => totalTax
  | bracket :: rest =>
      if salary <=? Min bracket then totalTax
      else
        let taxableAmount :=
          if negb (Max bracket =? 0) then
            if salary <=? Max bracket then salary - Min bracket
            else Max bracket - Min bracket
          else salary - Min bracket in
        CalculateTax_loop salary rest (totalTax + taxableAmount * Rate bracket)
  end.

Definition CalculateTax (salary : float) (brackets : list TaxBracket)
  : float * float :=
  let totalTax := CalculateTax_loop salary brackets 0 in
  let effectiveRate := math.Round ((totalTax / salary) * 1000) / 1000 in
  (totalTax, effectiveRate).

End Calculator.

(** *** The breaker settings of NewTaxCalculatorWithFullConfig *)

(** The conversion [uint32(n)] of an [int]. *)
Definition uint32 (n : Z) : Z := n mod 2 ^ 32.

(** The conversion [float64(n)] of a [uint32]. *)
Definition float64 (n : Z) : float := of_uint63 (Uint63.of_Z n).

Definition ReadyToTrip (cbConfig : CircuitBreakerConfig)
           (counts : gobreaker.Counts) : bool :=
  let failureRatio :=
    (float64 (gobreaker.TotalFailures counts) / float64 (gobreaker.Requests counts))%float in
  (uint32 (RequestThreshold cbConfig) <=? gobreaker.Requests counts)%Z
  && (FailureRatio cbConfig <=? failureRatio)%float.

(** The value the state gauge is set to on a change of state. *)
Definition stateValue (to : gobreaker.State) : Z :=
  match to with
  | gobreaker.StateClosed => 1
  | gobreaker.StateHalfOpen => 2
  | gobreaker.StateOpen => 3
  end.

Section Service.
(** The network with its clock, and the decoders of encoding/json at
    the two types the service decodes. *)
Variable Net : Type.
Variable now : Net -> Z.
Variable exchange : string -> Net -> http.Exchange * Net.
Variable unmarshalErrors : string -> error + list TaxCalcError.
Variable unmarshalResponse : string -> error + TaxCalculatorResponse.

Record World := mkWorld {
  net : Net;
  collectors : metrics.Metrics
}.

Definition record (f : metrics.Metrics -> metrics.Metrics) (w : World) : World :=
  mkWorld (net w) (f (collectors w)).

Definition clock (w : World) : Z := now (net w).

Definition cbSettings (cbConfig : CircuitBreakerConfig) : gobreaker.Settings World :=
  gobreaker.mkSettings
    (uint32 (MaxHalfOpenReqs cbConfig))
    (Timeout cbConfig)
    (ReadyToTrip cbConfig)
    (fun _ to => record (metrics.SetCircuitBreakerState (stateValue to))).

Record TaxCalculator := mkTaxCalculator {
  cb : option (gobreaker.CircuitBreaker World);
  environment : string;
  cbEnabled : bool
}.

Definition NewTaxCalculatorWithFullConfig (environment : string)
           (circuitBreakerEnabled : bool) (cbConfig : CircuitBreakerConfig)
           (w : World) : TaxCalculator * World :=
  if circuitBreakerEnabled then
    (mkTaxCalculator (Some (gobreaker.NewCircuitBreaker (cbSettings cbConfig)))
       environment circuitBreakerEnabled,
     record (metrics.SetCircuitBreakerState 1) w)
  else (mkTaxCalculator None environment circuitBreakerEnabled, w).

Definition NewTaxCalculatorWithConfig (environment : string)
           (circuitBreakerEnabled : bool) (w : World) : TaxCalculator * World :=
  NewTaxCalculatorWithFullConfig environment circuitBreakerEnabled
    (mkCircuitBreakerConfig 5 0.5 60 100) w.

(** *** The fetch *)

(** The three errors of a response whose status is not 200. *)
Definition errorMsg (taxError : TaxCalcError) : string :=
  Code taxError ++ ": " ++ Message taxError.

Definition structuredError (errs : list TaxCalcError) : error :=
  Errorf ("tax calculator service error: "
          ++ strings.Join (map errorMsg errs) "; ").

Definition rawBodyError (status : Z) (errorBody : string) : error :=
  Errorf ("tax calculator service returned: " ++ fmt.d status
          ++ " - Details: " ++ errorBody).

Definition statusCodeError (status : Z) : error :=
  Errorf ("tax calculator service returned error code: " ++ fmt.d status).

Definition parseError (err : error) : error :=
  Errorf ("failed to parse tax calculator response: " ++ Error err).

Definition noBracketsError : error :=
  Errorf "no tax brackets returned from tax calculator".

(** What doFetchTaxData makes of a response it received: its body from
    the check of the status code to the end. *)
Definition readResponse (resp : http.Response)
  : option TaxCalculatorResponse * option error :=
  if negb (http.StatusCode resp =? http.StatusOK)%Z then
    match http.ReadAll resp with
    | inr errorBody =>
        if (0 <? length errorBody)%nat then
          match unmarshalErrors errorBody with
          | inr errs =>
              if (0 <? List.length errs)%nat then
                (None, Some (structuredError errs))
              else
                (None, Some (rawBodyError (http.StatusCode resp) errorBody))
          | inl _ =>
              (None, Some (rawBodyError (http.StatusCode resp) errorBody))
          end
        else (None, Some (statusCodeError (http.StatusCode resp)))
    | inl _ => (None, Some (statusCodeError (http.StatusCode resp)))
    end
  else
    match http.ReadAll resp with
    | inl err => (None, Some err)
    | inr body =>
        match unmarshalResponse body with
        | inl err => (None, Some (parseError err))
        | inr taxResponse =>
            if (List.length (TaxBrackets taxResponse) =? 0)%nat then
              (None, Some noBracketsError)
            else (Some taxResponse, None)
        end
    end.

Definition doFetchTaxData (url : string) (w : World)
  : (option TaxCalculatorResponse * option error) * World :=
  let '(ex, n) := exchange url (net w) in
  let w' := mkWorld n (collectors w) in
  match ex with
  | http.NewRequestFails err => ((None, Some err), w')
  | http.DoFails err => ((None, Some err), w')
  | http.DoReturns resp => (readResponse resp, w')
  end.

Definition FetchTaxData (tc : TaxCalculator) (url : string) (w : World)
  : Outcome (option TaxCalculatorResponse * option error)
    * TaxCalculator * World :=
  match cbEnabled tc, cb tc with
  | true, Some breaker =>
      let '((response, err), breaker', w1) :=
        gobreaker.Execute clock (doFetchTaxData url) breaker w in
      let tc' := mkTaxCalculator (Some breaker') (environment tc) (cbEnabled tc) in
      match err with
      | Some ErrOpenState =>
          (Returns (None, Some (Errorf "tax calculator service is unavailable (circuit open): too many recent failures")),
           tc', record metrics.IncCircuitBreakerRejected w1)
      | Some ErrTooManyRequests =>
          (Returns (None, Some (Errorf "tax calculator service is unavailable: too many concurrent requests")),
           tc', record metrics.IncCircuitBreakerRejected w1)
      | Some err =>
          (Returns (None, Some (Errorf ("tax calculator service error: " ++ Error err))),
           tc',
           record metrics.IncTaxServiceErrors
             (record (metrics.IncCircuitBreakerRequests false) w1))
      | None =>
          let w2 := record (metrics.IncCircuitBreakerRequests true) w1 in
          match response with
          | Some pointer => (Returns (pointer, None), tc', w2)
          | None => (Panics, tc', w2)
          end
      end
  | _, _ =>
      let '((response, err), w1) := doFetchTaxData url w in
      match err with
      | Some err =>
          (Returns (None, Some (Errorf ("tax calculator service error: " ++ Error err))),
           tc, record metrics.IncTaxServiceErrors w1)
      | None => (Returns (response, None), tc, w1)
      end
  end.

End Service.

End services.

(** ** Package logger *)

Module logger.

(** [LogLevel] is an [int]; the named levels are 0 to 4. *)
Definition LogLevel := Z.

Definition LevelNone : LogLevel := 0%Z.
Definition LevelError : LogLevel := 1%Z.
Definition LevelWarn : LogLevel := 2%Z.
Definition LevelInfo : LogLevel := 3%Z.
Definition LevelDebug : LogLevel := 4%Z.

(** A logger with the lines it has printed, oldest first (the date and time
    that [log.LstdFlags] puts before each line are left out). *)
Record Logger := mkLogger {
  enabled : bool;
  level : LogLevel;
  printed : list string
}.

Record Config := mkConfig {
  Enabled : bool;
  Level : LogLevel
}.

(** The default logger made by [init]. *)
Definition init : Logger := mkLogger true LevelInfo [].

Definition New (config : Config) : Logger :=
  mkLogger (Enabled config) (Level config) [].

(** [Configure] on the default logger; what was printed stays printed. *)
Definition Configure (config : Config) (defaultLogger : Logger) : Logger :=
  mkLogger (Enabled config) (Level config) (printed defaultLogger).

(** [l.logger.Printf(prefix+format, v...)], with [message] the text the
    format and its arguments make. *)
Definition Printf (prefix message : string) (l : Logger) : Logger :=
  mkLogger (enabled l) (level l) (printed l ++ [(prefix ++ message)%string]).

Definition Debug (message : string) (l : Logger) : Logger :=
  if enabled l && (LevelDebug <=? level l)%Z then Printf "[DEBUG] " message l else l.

Definition Info (message : string) (l : Logger) : Logger :=
  if enabled l && (LevelInfo <=? level l)%Z then Printf "[INFO] " message l else l.

Definition Warn (message : string) (l : Logger) : Logger :=
  if enabled l && (LevelWarn <=? level l)%Z then Printf "[WARN] " message l else l.

Definition Error (message : string) (l : Logger) : Logger :=
  if enabled l && (LevelError <=? level l)%Z then Printf "[ERROR] " message l else l.

(** [Fatal] prints when the logger is enabled, and exits with status 1
    either way: the logger it leaves and the exit status. *)
Definition Fatal (message : string) (l : Logger) : Logger * Z :=
  if enabled l then (Printf "[FATAL] " message l, 1%Z) else (l, 1%Z).

(** [LogLevel.String]. *)
Definition String (l : LogLevel) : string :=
  match l with
  | 0%Z => "NONE"
  | 1%Z => "ERROR"
  | 2%Z => "WARN"
  | 3%Z => "INFO"
  | 4%Z => "DEBUG"
  | _ => "LogLevel(" ++ fmt.d l ++ ")"
  end.

Definition LevelFromString (level : string) : LogLevel :=
  if String.eqb level "NONE" then LevelNone
  else if String.eqb level "ERROR" then LevelError
  else if String.eqb level "WARN" then LevelWarn
  else if String.eqb level "INFO" then LevelInfo
  else if String.eqb level "DEBUG" then LevelDebug
  else LevelInfo.

End logger.

(** ** The benchmark tool (package main of benchmark/benchmark.go) *)

Module benchmark.
Local Open Scope string_scope.

(** Wrap-around of [int], [int64] and [time.Duration]. *)
Definition int (x : Z) : Z := ((x + 2 ^ 63) mod 2 ^ 64 - 2 ^ 63)%Z.

(** The conversion [float64(x)] of an integer. *)
Definition float64 (x : Z) : float := SF2Prim (binary_normalize prec emax x 0 false).

(** [time.Duration.Seconds]. *)
Definition Seconds (d : Z) : float :=
  (float64 (Z.quot d 1000000000) + float64 (Z.rem d 1000000000) / 1e9)%float.

Record Config := mkConfig {
  Host : string;
  NumRequests : Z;
  Concurrency : Z;
  GetPercent : Z;
  MinSalary : Z;
  MaxSalary : Z;
  MinYear : Z;
  MaxYear : Z;
  Verbose : bool;
  OutputFormat : string
}.

Record RequestResult := mkRequestResult {
  Method : string;
  StatusCode : Z;
  Duration : Z;
  Error : option error;
  ContentSize : Z
}.

(** [map[int]int], a missing key reading as 0. *)
Fixpoint lookup (m : list (Z * Z)) (k : Z) : Z :=
  match m with
  | [] => 0%Z
  | (k', v) :: rest => if (k' =? k)%Z then v else lookup rest k
  end.

(** [m[k]++]. *)
Fixpoint increment (m : list (Z * Z)) (k : Z) : list (Z * Z) :=
  match m with
  | [] => [(k, 1%Z)]
  | (k', v) :: rest =>
      if (k' =? k)%Z then (k', int (v + 1)) :: rest
      else (k', v) :: increment rest k
  end.

Record BenchmarkResults := mkBenchmarkResults {
  TotalRequests : Z;
  SuccessfulRequests : Z;
  FailedRequests : Z;
  TotalDuration : Z;
  MinDuration : Z;
  MaxDuration : Z;
  AvgDuration : Z;
  RequestsPerSecond : float;
  TotalBytes : Z;
  BytesPerSecond : float;
  StatusCodes : list (Z * Z)
}.

(** The request distribution of runBenchmark, before the shuffle. *)
Definition getCount (config : Config) : Z :=
  Z.quot (int (NumRequests config * GetPercent config)) 100.

Definition requests (config : Config) : list string :=
  map (fun i => if (Z.of_nat i <? getCount config)%Z then "GET" else "POST")
      (seq 0 (Z.to_nat (NumRequests config))).

(** What a request counts as in the results. *)
Definition successful (result : RequestResult) : bool :=
  match Error result with None => true | Some _ => false end
  && (200 <=? StatusCode result)%Z && (StatusCode result <? 400)%Z.

(** One turn of the loop [for result := range results], on the results and
    [totalDurationSum] (the printing of the verbose mode is left out). *)
Definition collect (acc : BenchmarkResults * Z) (result : RequestResult)
  : BenchmarkResults * Z :=
  let '(b, totalDurationSum) := acc in
  (mkBenchmarkResults
     (TotalRequests b)
     (if successful result then int (SuccessfulRequests b + 1) else SuccessfulRequests b)
     (if successful result then FailedRequests b else int (FailedRequests b + 1))
     (TotalDuration b)
     (if (Duration result <? MinDuration b)%Z then Duration result else MinDuration b)
     (if (MaxDuration b <? Duration result)%Z then Duration result else MaxDuration b)
     (AvgDuration b)
     (RequestsPerSecond b)
     (int (TotalBytes b + ContentSize result))
     (BytesPerSecond b)
     (increment (StatusCodes b) (StatusCode result)),
   int (totalDurationSum + Duration result)).

(** The results before the first one is collected. *)
Definition initial (config : Config) (totalDuration : Z) : BenchmarkResults :=
  mkBenchmarkResults (NumRequests config) 0 0 totalDuration (2 ^ 63 - 1) 0 0 0 0 0 [].

(** runBenchmark from [wg.Wait()] on: [totalDuration] is the time the
    workers took and [received] what they sent on the results channel, in
    the order of the channel.  Making a channel of negative size panics. *)
Definition runBenchmark (config : Config) (totalDuration : Z)
           (received : list RequestResult) : Outcome BenchmarkResults :=
  if (NumRequests config <? 0)%Z then Panics
  else
    let '(b, totalDurationSum) :=
      fold_left collect received (initial config totalDuration, 0%Z) in
    if (0 <? TotalRequests b)%Z then
      Returns
        (mkBenchmarkResults
           (TotalRequests b) (SuccessfulRequests b) (FailedRequests b)
           (TotalDuration b) (MinDuration b) (MaxDuration b)
           (Z.quot totalDurationSum (TotalRequests b))
           (float64 (TotalRequests b) / Seconds totalDuration)%float
           (TotalBytes b)
           (float64 (TotalBytes b) / Seconds totalDuration)%float
           (StatusCodes b))
    else Returns b.

(** The salary or year a worker draws: [rand.Intn(hi-lo+1) + lo], with [r]
    what [rand.Intn] returned; [rand.Intn] panics on an argument that is
    not positive. *)
Definition draw (lo hi r : Z) : Outcome Z :=
  if (int (int (hi - lo) + 1) <=? 0)%Z then Panics else Returns (int (r + lo)).

End benchmark.

(** ** Package handlers *)

Module handlers.
Import models.
Local Open Scope string_scope.

(** [models.Config], without the logging configuration. *)
Record Config := mkConfig {
  TaxCalcBaseURL : string;
  IncludeTaxYear : bool;
  Port : string;
  Environment : string;
  CircuitBreakerEnabled : bool;
  CircuitBreaker : CircuitBreakerConfig
}.

(** [err.Error()], named apart from the field of the response. *)
Definition errorText (err : error) : string := Error err.

(** [models.Response]. *)
Record Response := mkResponse {
  Salary : float;
  Tax : float;
  EffectiveRate : float;
  Error : string
}.

(** What parseSalary reads of a [*http.Request]: the method, the
    parameters of the URL ([r.URL.Query().Get], empty when absent) and what
    [r.ParseForm()] makes of the body ([r.PostForm.Get]). *)
Record Request := mkRequest {
  Method : string;
  Query : string -> string;
  ParseForm : error + (string -> string)
}.

(** What the handler wrote: the status code (200 unless WriteHeader was
    called) and the value given to the JSON encoder. *)
Record Reply := mkReply {
  Code : Z;
  Body : Response
}.

Definition StatusBadRequest : Z := 400.
Definition StatusInternalServerError : Z := 500.

Section Handler.
(** [strconv.ParseFloat(s, 64)] and [strconv.Atoi]. *)
Variable ParseFloat : string -> error + float.
Variable Atoi : string -> error + Z.

Definition parseSalary (r : Request) : float * Z * option error :=
  let salaryStr := Query r "salary" in
  let yearStr := Query r "year" in
  let form :=
    if (String.eqb salaryStr "" || String.eqb yearStr "")
       && String.eqb (Method r) "POST"
    then
      match ParseForm r with
      | inl err => inl err
      | inr PostForm =>
          inr (if String.eqb salaryStr "" then PostForm "salary" else salaryStr,
               if String.eqb yearStr "" then PostForm "year" else yearStr)
      end
    else inr (salaryStr, yearStr) in
  match form with
  | inl err => (0%float, 0%Z, Some (Errorf ("invalid form data: " ++ errorText err)))
  | inr (salaryStr, yearStr) =>
      if String.eqb salaryStr "" then
        (0%float, 0%Z, Some (Errorf "salary parameter is required"))
      else
        match ParseFloat salaryStr with
        | inl err =>
            (0%float, 0%Z, Some (Errorf ("invalid salary format: " ++ errorText err)))
        | inr salary =>
            if negb (String.eqb yearStr "") then
              match Atoi yearStr with
              | inl err =>
                  (0%float, 0%Z, Some (Errorf ("invalid year format: " ++ errorText err)))
              | inr year => (salary, year, None)
              end
            else (salary, 0%Z, None)
        end
  end.

Definition respondWithError (statusCode : Z) (message : string) : Reply :=
  mkReply statusCode (mkResponse 0 0 0 message).

(** The network of the service, with the year of its clock. *)
Variable Net : Type.
Variable now : Net -> Z.
Variable Year : Net -> Z.
Variable exchange : string -> Net -> http.Exchange * Net.
Variable unmarshalErrors : string -> error + list TaxCalcError.
Variable unmarshalResponse : string -> error + TaxCalculatorResponse.

Record IncomeSalaryHandler := mkIncomeSalaryHandler {
  config : Config;
  taxCalculator : services.TaxCalculator Net;
  environment : string
}.

(** The collectors of package metrics the handler writes besides those of
    the service. *)
Record World := mkWorld {
  service : services.World Net;
  TaxCalculationTotal : Z
}.

Definition NewIncomeSalaryHandler (config : Config) (w : World)
  : IncomeSalaryHandler * World :=
  let '(tc, sw) :=
    services.NewTaxCalculatorWithFullConfig Net (Environment config)
      (CircuitBreakerEnabled config) (CircuitBreaker config) (service w) in
  (mkIncomeSalaryHandler config tc (Environment config),
   mkWorld sw (TaxCalculationTotal w)).

(** The URL Handle asks the tax brackets from. *)
Definition taxCalcURL (config : Config) (year currentYear : Z) : string :=
  if IncludeTaxYear config then
    let taxYear := if (0 <? year)%Z then year else currentYear in
    TaxCalcBaseURL config ++ "/tax-year/" ++ fmt.d taxYear
  else TaxCalcBaseURL config.

Definition Handle (h : IncomeSalaryHandler) (r : Request) (w : World)
  : Outcome Reply * IncomeSalaryHandler * World :=
  match parseSalary r with
  | (_, _, Some err) =>
      (Returns (respondWithError StatusBadRequest (errorText err)), h, w)
  | (salary, year, None) =>
      let url := taxCalcURL (config h) year (Year (services.net Net (service w))) in
      let '(fetched, tc, sw) :=
        services.FetchTaxData Net now exchange unmarshalErrors unmarshalResponse
          (taxCalculator h) url (service w) in
      let h' := mkIncomeSalaryHandler (config h) tc (environment h) in
      match fetched with
      | Panics => (Panics, h', mkWorld sw (TaxCalculationTotal w))
      | Returns (_, Some err) =>
          (Returns (respondWithError StatusInternalServerError
                      ("Error calculating tax: " ++ errorText err)),
           h',
           mkWorld (services.record Net metrics.IncTaxServiceErrors sw)
                   (TaxCalculationTotal w))
      | Returns (None, None) => (Panics, h', mkWorld sw (TaxCalculationTotal w))
      | Returns (Some taxResponse, None) =>
          let '(tax, effectiveRate) :=
            services.CalculateTax salary (TaxBrackets taxResponse) in
          (Returns (mkReply 200 (mkResponse salary tax effectiveRate "")),
           h',
           mkWorld sw (TaxCalculationTotal w + 1))
      end
  end.

End Handler.

End handlers.

Import models.

(** * Definitions used by the statements and the proofs *)

(** ** Sample data *)

Module samples.

(** The double quote, for JSON texts. *)
Definition dq : string := String (ascii_of_nat 34) EmptyString.

Definition three_brackets : list TaxBracket :=
  [ mkTaxBracket 0 30000 0.1;
    mkTaxBracket 30000 70000 0.2;
    mkTaxBracket 70000 0 0.3 ]%float.

Definition two_brackets : list TaxBracket :=
  [ mkTaxBracket 1000 30000 0.1;
    mkTaxBracket 30000 70000 0.2 ]%float.

(** A bracket whose maximum is below its minimum. *)
Definition inverted_bracket : list TaxBracket :=
  [ mkTaxBracket 100 50 0.5 ]%float.

(** An unbounded bracket at a negative rate. *)
Definition negative_rate_bracket : list TaxBracket := [ mkTaxBracket 0 0 (-0.1) ]%float.

(** The brackets of the handler's test. *)
Definition handler_brackets : list TaxBracket :=
  [ mkTaxBracket 0 50000 0.15; mkTaxBracket 50000 0 0.25 ]%float.

(** An unbounded bracket at the rate 0.1, one at the rate zero, and one at
    the rate zero that starts at the lowest finite float. *)
Definition flat_bracket : list TaxBracket := [ mkTaxBracket 0 0 0.1 ]%float.

Definition free_bracket : list TaxBracket := [ mkTaxBracket 0 0 0 ]%float.

Definition max_float : float := 0x1.fffffffffffffp+1023%float.

Definition deep_free_bracket : list TaxBracket :=
  [ mkTaxBracket (- max_float) 0 0 ]%float.

Definition empty_body : string := "{" ++ dq ++ "tax_brackets" ++ dq ++ ":[]}".

Definition one_bracket_body : string :=
  "{" ++ dq ++ "tax_brackets" ++ dq ++ ":[{" ++ dq ++ "min" ++ dq ++ ":0,"
  ++ dq ++ "rate" ++ dq ++ ":0.5}]}".

Definition errors_body : string :=
  "{" ++ dq ++ "errors" ++ dq ++ ":[{" ++ dq ++ "code" ++ dq ++ ":"
  ++ dq ++ "E1" ++ dq ++ "," ++ dq ++ "message" ++ dq ++ ":"
  ++ dq ++ "down" ++ dq ++ "}]}".

(** A decoder of bracket responses that knows the sample texts. *)
Definition unmarshalResponse (body : string) : error + TaxCalculatorResponse :=
  if String.eqb body empty_body then inr (mkTaxCalculatorResponse [])
  else if String.eqb body one_bracket_body then
    inr (mkTaxCalculatorResponse [mkTaxBracket 0 0 0.5]%float)
  else inl (Foreign "unexpected end of JSON input").

(** A decoder of error responses that knows the sample texts. *)
Definition unmarshalErrors (body : string) : error + list TaxCalcError :=
  if String.eqb body errors_body then inr [mkTaxCalcError "E1" "" "down"]
  else if String.eqb body empty_body then inr []
  else if String.eqb body one_bracket_body then inr []
  else inl (Foreign "unexpected end of JSON input").

(** A network that is a clock and answers every request alike. *)
Definition exchange (answer : http.Exchange) (url : string) (n : Z)
  : http.Exchange * Z := (answer, (n + 1)%Z).

Definition now (n : Z) : Z := n.

End samples.

Definition sample_world : services.World Z :=
  services.mkWorld Z 0%Z (metrics.mkMetrics 0 0 0 0 0).

Definition sample_fetch (resp : http.Response)
  : option TaxCalculatorResponse * option error :=
  fst (services.doFetchTaxData Z (samples.exchange (http.DoReturns resp))
         samples.unmarshalErrors samples.unmarshalResponse
         "http://localhost:5001/tax-calculator" sample_world).

Definition default_config : CircuitBreakerConfig :=
  mkCircuitBreakerConfig 5 0.5 60 100.

Definition default_settings : gobreaker.Settings (services.World Z) :=
  services.cbSettings Z default_config.

Definition sample_clock : services.World Z -> Z := services.clock Z samples.now.

(** The fetch against a server that refuses the connection, and against
    one that answers with a bracket. *)
Definition failing_fetch :=
  services.doFetchTaxData Z
    (samples.exchange (http.DoFails (Foreign "connection refused")))
    samples.unmarshalErrors samples.unmarshalResponse
    "http://localhost:5001/tax-calculator".

Definition passing_fetch :=
  services.doFetchTaxData Z
    (samples.exchange
       (http.DoReturns (http.mkResponse 200 (inr samples.one_bracket_body))))
    samples.unmarshalErrors samples.unmarshalResponse
    "http://localhost:5001/tax-calculator".

Definition three_failures_first :=
  [ (failing_fetch, sample_world); (failing_fetch, sample_world);
    (failing_fetch, sample_world); (passing_fetch, sample_world);
    (passing_fetch, sample_world) ].

Definition three_failures_last :=
  [ (passing_fetch, sample_world); (passing_fetch, sample_world);
    (failing_fetch, sample_world); (failing_fetch, sample_world);
    (failing_fetch, sample_world) ].

(** A world whose clock reads 1000 seconds. *)
Definition later_world : services.World Z :=
  services.mkWorld Z 1000%Z (metrics.mkMetrics 0 0 0 0 0).

Definition sample_breaker : gobreaker.CircuitBreaker (services.World Z) :=
  gobreaker.step (gobreaker.Complete 7 false)
    (gobreaker.step (gobreaker.Admit 6)
       (gobreaker.step (gobreaker.Complete 5 true)
          (gobreaker.step (gobreaker.Admit 4)
             (gobreaker.NewCircuitBreaker default_settings)))).

(** ** The fetch *)

(** The error of a response whose status is not 200 and whose body was
    read: the joined structured errors, else the raw body, else the bare
    status code. *)
Definition statusError (unmarshalErrors : string -> error + list TaxCalcError)
           (status : Z) (errorBody : string) : error :=
  match errorBody with
  | EmptyString => services.statusCodeError status
  | String _ _ =>
      match unmarshalErrors errorBody with
      | inr (e :: errs) => services.structuredError (e :: errs)
      | _ => services.rawBodyError status errorBody
      end
  end.

(** The kinds of error a response with a status other than 200 is turned
    into. *)
Definition HTTPStatusError (e : error) : Prop :=
  (exists errs, e = services.structuredError errs)
  \/ (exists status errorBody, e = services.rawBodyError status errorBody)
  \/ (exists status, e = services.statusCodeError status).

(** ** The breaker *)

(** A sequence of calls through one breaker, each in the world it finds;
    the errors the calls returned and the breaker they leave. *)
Fixpoint Executes {W R : Type} (clock : W -> Z)
         (calls : list ((W -> (R * option error) * W) * W))
         (breaker : gobreaker.CircuitBreaker W)
  : list (option error) * gobreaker.CircuitBreaker W :=
  match calls with
  | [] => ([], breaker)
  | (req, w) :: rest =>
      let '((_, err), breaker', _) := gobreaker.Execute clock req breaker w in
      let '(errs, breaker'') := Executes clock rest breaker' in
      (err :: errs, breaker'')
  end.

Definition failed (err : option error) : bool :=
  match err with Some _ => true | None => false end.

Definition failures (errs : list (option error)) : Z :=
  Z.of_nat (List.length (filter failed errs)).

Definition Counts_sum {W : Type} (cb : gobreaker.CircuitBreaker W) : Prop :=
  (gobreaker.Requests (gobreaker.counts cb)
   = gobreaker.TotalSuccesses (gobreaker.counts cb)
     + gobreaker.TotalFailures (gobreaker.counts cb))%Z.

(** ** Binary64 *)

(** A float is zero, as [==] sees it. *)
Definition is_zero_SF (x : spec_float) : Prop := exists s, x = S754_zero s.

(** A float is an infinity or a NaN. *)
Definition not_a_number_SF (x : spec_float) : Prop :=
  x = S754_nan \/ exists s, x = S754_infinity s.

(** A bracket the calculator is meant for: finite bounds and rate, a
    minimum and a rate that are not negative, and a maximum that is absent
    (zero) or not below the minimum. *)
Definition well_formed (b : TaxBracket) : bool :=
  is_finite (Min b) && is_finite (Max b) && is_finite (Rate b)
  && (0 <=? Min b)%float && (0 <=? Rate b)%float
  && ((Max b =? 0)%float || (Min b <=? Max b)%float).

(** ** Rounding to binary64 *)

Section RoundingDefinitions.
Local Open Scope Z_scope.

(** Position of the remainder [r] of a division by [2^k] relative to one half. *)
Definition loc_of_rem (r k : Z) : location :=
  if r =? 0 then loc_Exact else loc_Inexact (2 * r ?= 2 ^ k).

(** What [k] steps of [shr_1] make of the exact mantissa [m0]: the quotient
    by [2^k], and the position of the remainder. *)
Definition shr_inv (m0 k : Z) (mrs : shr_record) : Prop :=
  shr_m mrs = m0 / 2 ^ k
  /\ loc_of_shr_record mrs = loc_of_rem (m0 mod 2 ^ k) k.

(** Rounding [m / 2^k] to the nearest integer, ties to even. *)
Definition rne (m k : Z) : Z :=
  round_nearest_even (m / 2 ^ k) (loc_of_rem (m mod 2 ^ k) k).

(** The float with sign [s] for the rounded mantissa [n] at exponent [E]. *)
Definition finish (s : bool) (n E : Z) : spec_float :=
  if n =? 0 then S754_zero s
  else if n <? 2 ^ 53 then
    if E <=? 971 then S754_finite s (Z.to_pos n) E else S754_infinity s
  else
    if E + 1 <=? 971 then S754_finite s (Z.to_pos (2 ^ 52)) (E + 1)
    else S754_infinity s.

(** The mantissa of [m * 2^e] at the exponent [E]: exact when [E <= e],
    rounded otherwise. *)
Definition scaled (m e E : Z) : Z :=
  if E <=? e then m * 2 ^ (e - E) else rne m (E - e).

(** In units of [2^-1074]: the rank given to the infinity, and below it the
    least rounded value that overflows, [2^1024]. *)
Definition INF : Z := 2 ^ 2100.
Definition OVERFLOW : Z := 2 ^ 2098.

(** The rank of a float that is not a NaN: its value in units of
    [2^-1074], the infinities above and below every finite float. *)
Definition SFrank (x : spec_float) : option Z :=
  match x with
  | S754_nan => None
  | S754_zero _ => Some 0
  | S754_infinity s => Some (cond_Zopp s INF)
  | S754_finite s m e => Some (cond_Zopp s (Z.pos m * 2 ^ (e + 1074)))
  end.

(** The overflow test: a rounded value of [2^1024] or more is the infinity. *)
Definition saturate (v : Z) : Z := if v <? OVERFLOW then v else INF.

(** The value of [m * 2^e] rounded to binary64 precision, before the
    overflow test, in units of [2^-1074]. *)
Definition rounded (m : positive) (e : Z) : Z :=
  let E := fexp prec emax (Z.pos (digits2_pos m) + e) in
  scaled (Z.pos m) e E * 2 ^ (E + 1074).

(** The rank of the float nearest to the value [v * 2^u], for [v >= 0]. *)
Definition RK (u v : Z) : Z :=
  match v with
  | Zpos p => saturate (rounded p u)
  | _ => 0
  end.

(** The rank of a [float64]. *)
Definition rank (x : float) : option Z := SFrank (Prim2SF x).

(** The rank of the taxable amount of a bracket entered by a salary. *)
Definition slice_rank (s mn mx : Z) : Z :=
  if mx =? 0 then RK (-1074) (s - mn)
  else if s <=? mx then RK (-1074) (s - mn)
       else RK (-1074) (mx - mn).

(** The rank of the total after a bracket entered by a salary. *)
Definition step_rank (s mn mx rt t : Z) : Z :=
  RK (-1074) (t + RK (-2148) (slice_rank s mn mx * rt)).

(** The ranks of the fields of a well-formed bracket. *)
Record bracket_ranks (b : TaxBracket) (mn mx rt : Z) : Prop := {
  rank_Min : rank (Min b) = Some mn;
  rank_Max : rank (Max b) = Some mx;
  rank_Rate : rank (Rate b) = Some rt;
  Min_range : 0 <= mn < INF;
  Max_range : - INF < mx < INF;
  Rate_range : 0 <= rt < INF;
  Max_above : mx = 0 \/ mn <= mx
}.

End RoundingDefinitions.

(** ** The calculator on a salary that is not a number *)


(** ** The service and its collectors *)

(** A calculator whose breaker, if it has one, has the settings
    NewTaxCalculatorWithFullConfig gives it. *)
Definition configured {Net : Type} (tc : services.TaxCalculator Net) : Prop :=
  forall breaker, services.cb Net tc = Some breaker ->
    exists cbConfig, gobreaker.settings breaker = services.cbSettings Net cbConfig.

(** The state gauge shows the state of the calculator's breaker. *)
Definition gauge_tracks {Net : Type} (tc : services.TaxCalculator Net)
           (w : services.World Net) : Prop :=
  forall breaker,
    services.cbEnabled Net tc = true ->
    services.cb Net tc = Some breaker ->
    metrics.CircuitBreakerState (services.collectors Net w)
    = services.stateValue (gobreaker.state breaker).

(** The two messages of a call the breaker rejected. *)
Definition circuitOpenMessage : string :=
  "tax calculator service is unavailable (circuit open): too many recent failures".

Definition tooManyRequestsMessage : string :=
  "tax calculator service is unavailable: too many concurrent requests".

(** The counters of the collectors: rejected calls, calls that passed the
    breaker and succeeded, calls that passed it and failed, and errors of
    the tax service. *)
Definition counters (m : metrics.Metrics) : Z * Z * Z * Z :=
  (metrics.CircuitBreakerRejected m, metrics.CircuitBreakerRequestsTrue m,
   metrics.CircuitBreakerRequestsFalse m, metrics.TaxServiceErrors m).

(** ** The results of the benchmark tool *)

(** The durations of the results, and the results with a status code. *)
Definition durations (received : list benchmark.RequestResult) : list Z :=
  map benchmark.Duration received.

Definition with_code (c : Z) (received : list benchmark.RequestResult)
  : list benchmark.RequestResult :=
  filter (fun r => (benchmark.StatusCode r =? c)%Z) received.

(** The sum of a list, and the number of requests of a method. *)
Definition total (l : list Z) : Z := fold_right Z.add 0%Z l.

Definition count (method : string) (l : list string) : Z :=
  Z.of_nat (count_occ string_dec l method).

(** The values of an [int] (and of an [int64]). *)
Definition int64_range (x : Z) : Prop := (- 2 ^ 63 <= x < 2 ^ 63)%Z.

(** ** Samples for the benchmark tool, the service and the handler *)

Module fixtures.
Local Open Scope string_scope.

(** A run of three requests: one answered, one answered with an error
    status, one refused. *)
Definition config : benchmark.Config :=
  benchmark.mkConfig "http://localhost:8080" 3 10 50 10000 1000000 2020 2025
    false "text".

(** The time the workers took. *)
Definition took : Z := 15000000.

Definition received : list benchmark.RequestResult :=
  [ benchmark.mkRequestResult "GET" 200 5000000 None 64;
    benchmark.mkRequestResult "POST" 500 9000000 None 48;
    benchmark.mkRequestResult "GET" 0 1000000
      (Some (Foreign "connection refused")) 0 ].

(** What runBenchmark makes of them. *)
Definition results : benchmark.BenchmarkResults :=
  match benchmark.runBenchmark config took received with
  | Returns b => b
  | Panics => benchmark.initial config took
  end.

(** The answers of the tax service: refusing the connection, the brackets
    of the handler's test, and a 503 with a structured error. *)
Definition url : string := "http://localhost:5001/tax-calculator".

Definition handler_body : string :=
  "{" ++ samples.dq ++ "tax_brackets" ++ samples.dq ++ ":[{"
  ++ samples.dq ++ "min" ++ samples.dq ++ ":0,"
  ++ samples.dq ++ "max" ++ samples.dq ++ ":50000,"
  ++ samples.dq ++ "rate" ++ samples.dq ++ ":0.15},{"
  ++ samples.dq ++ "min" ++ samples.dq ++ ":50000,"
  ++ samples.dq ++ "max" ++ samples.dq ++ ":0,"
  ++ samples.dq ++ "rate" ++ samples.dq ++ ":0.25}]}".

Definition unmarshalResponse (body : string) : error + TaxCalculatorResponse :=
  if String.eqb body handler_body then
    inr (mkTaxCalculatorResponse samples.handler_brackets)
  else samples.unmarshalResponse body.

Definition refused : http.Exchange :=
  http.DoFails (Foreign "connection refused").

Definition answered : http.Exchange :=
  http.DoReturns (http.mkResponse 200 (inr handler_body)).

Definition unavailable : http.Exchange :=
  http.DoReturns (http.mkResponse 503 (inr samples.errors_body)).

Definition doFetchTaxData (answer : http.Exchange) :=
  services.doFetchTaxData Z (samples.exchange answer) samples.unmarshalErrors
    unmarshalResponse url.

Definition FetchTaxData (answer : http.Exchange) (tc : services.TaxCalculator Z) :=
  services.FetchTaxData Z samples.now (samples.exchange answer)
    samples.unmarshalErrors unmarshalResponse tc url.

(** Calculators: with the breaker of the default configuration, with that
    breaker open since time 0, and without a breaker. *)
Definition calculator : services.TaxCalculator Z :=
  fst (services.NewTaxCalculatorWithConfig Z "test" true sample_world).

Definition open_calculator : services.TaxCalculator Z :=
  services.mkTaxCalculator Z
    (Some (gobreaker.mkCircuitBreaker default_settings gobreaker.StateOpen
             gobreaker.clear 0 0))
    "test" true.

Definition disabled_calculator : services.TaxCalculator Z :=
  fst (services.NewTaxCalculatorWithConfig Z "test" false sample_world).

(** The handler of the handler's test, its parsers on the texts of the
    samples, and requests with the salary and the year in the URL. *)
Definition ParseFloat (s : string) : error + float :=
  if String.eqb s "75000" then inr 75000%float
  else if String.eqb s "0" then inr 0%float
  else if String.eqb s "NaN" then inr nan
  else inl (Foreign "strconv.ParseFloat: parsing: invalid syntax").

Definition Atoi (s : string) : error + Z :=
  if String.eqb s "2024" then inr 2024%Z
  else inl (Foreign "strconv.Atoi: parsing: invalid syntax").

Definition get (salary year : string) : handlers.Request :=
  handlers.mkRequest "GET"
    (fun key => if String.eqb key "salary" then salary
                else if String.eqb key "year" then year else "")
    (inr (fun _ => "")).

Definition handler_config : handlers.Config :=
  handlers.mkConfig url false "8080" "test" true default_config.

Definition handler_world : handlers.World Z := handlers.mkWorld Z sample_world 0.

Definition handler : handlers.IncomeSalaryHandler Z :=
  fst (handlers.NewIncomeSalaryHandler Z handler_config handler_world).

Definition Handle (answer : http.Exchange) :=
  handlers.Handle ParseFloat Atoi Z samples.now (fun _ => 2025%Z)
    (samples.exchange answer) samples.unmarshalErrors unmarshalResponse.

End fixtures.

(** * The fetch *)

Section FetchFacts.
Import services.
Local Open Scope string_scope.
Variable Net : Type.
Variable now : Net -> Z.
Variable exchange : string -> Net -> http.Exchange * Net.
Variable unmarshalErrors : string -> error + list TaxCalcError.
Variable unmarshalResponse : string -> error + TaxCalculatorResponse.

Local Abbreviation readResponse := (readResponse unmarshalErrors unmarshalResponse).
Local Abbreviation doFetchTaxData :=
  (doFetchTaxData Net exchange unmarshalErrors unmarshalResponse).
Local Abbreviation FetchTaxData :=
  (FetchTaxData Net now exchange unmarshalErrors unmarshalResponse).

Lemma readResponse_not_ok resp errorBody :
  http.StatusCode resp <> http.StatusOK ->
  http.ReadAll resp = inr errorBody ->
  readResponse resp = (None, Some (statusError unmarshalErrors (http.StatusCode resp) errorBody)).
Proof.
  intros Hs Hb. unfold services.readResponse, statusError.
  apply Z.eqb_neq in Hs. rewrite Hs, Hb. simpl.
  destruct errorBody as [|c rest]; simpl; [reflexivity|].
  destruct (unmarshalErrors (String c rest)) as [e|[|e errs]]; reflexivity.
Qed.

Lemma readResponse_ok resp body :
  http.StatusCode resp = http.StatusOK ->
  http.ReadAll resp = inr body ->
  readResponse resp =
    match unmarshalResponse body with
    | inl err => (None, Some (parseError err))
    | inr taxResponse =>
        match TaxBrackets taxResponse with
        | [] => (None, Some noBracketsError)
        | _ :: _ => (Some taxResponse, None)
        end
    end.
Proof.
  intros Hs Hb. unfold services.readResponse.
  rewrite Hs, Hb. simpl.
  destruct (unmarshalResponse body) as [e|r]; [reflexivity|].
  destruct (TaxBrackets r); reflexivity.
Qed.

(** An error of the 200 branch is never one of the status errors: the
    messages differ at their first character. *)
Lemma statusError_head status errorBody :
  exists rest, statusError unmarshalErrors status errorBody = Errorf (String "t" rest).
Proof.
  unfold statusError. destruct errorBody as [|c r].
  - eexists. reflexivity.
  - destruct (unmarshalErrors (String c r)) as [e|[|e errs]];
      eexists; reflexivity.
Qed.

Lemma readResponse_exactly_one resp :
  (exists r, readResponse resp = (Some r, None) /\ TaxBrackets r <> [])
  \/ (exists err, readResponse resp = (None, Some err)).
Proof.
  unfold services.readResponse.
  destruct (negb (http.StatusCode resp =? http.StatusOK)%Z).
  - right. destruct (http.ReadAll resp) as [e|b]; [eauto|].
    destruct (0 <? length b)%nat; [|eauto].
    destruct (unmarshalErrors b) as [e|errs]; [eauto|].
    destruct (0 <? Datatypes.length errs)%nat; eauto.
  - destruct (http.ReadAll resp) as [e|b]; [eauto|].
    destruct (unmarshalResponse b) as [e|r]; [eauto|].
    destruct (TaxBrackets r) eqn:E; simpl; [eauto|].
    left. exists r. split; [reflexivity|]. rewrite E. discriminate.
Qed.

Lemma doFetchTaxData_exactly_one url w :
  (exists r, fst (doFetchTaxData url w) = (Some r, None) /\ TaxBrackets r <> [])
  \/ (exists err, fst (doFetchTaxData url w) = (None, Some err)).
Proof.
  unfold services.doFetchTaxData.
  destruct (exchange url (net Net w)) as [[e|e|resp] n]; simpl; eauto.
  apply readResponse_exactly_one.
Qed.

(** A call through the breaker is rejected without a result, or returns
    what the guarded operation returned in the world it ran in. *)
Lemma Execute_cases (W R : Type) (clock : W -> Z)
      (req : W -> (R * option error) * W) (breaker : gobreaker.CircuitBreaker W) (w : W) :
  (exists err breaker' w',
      gobreaker.Execute clock req breaker w = ((None, Some err), breaker', w'))
  \/ (exists w1 breaker' w',
         gobreaker.Execute clock req breaker w
         = ((Some (fst (fst (req w1))), snd (fst (req w1))), breaker', w')).
Proof.
  unfold gobreaker.Execute.
  destruct (gobreaker.beforeRequest (clock w) breaker) as [[[err|] cb1] notes1].
  - left. eauto.
  - right. exists (gobreaker.notify (gobreaker.settings breaker) notes1 w).
    destruct (req _) as [[result err] w2]. simpl.
    destruct (gobreaker.afterRequest _ _ cb1) as [cb2 notes2]. eauto.
Qed.

Lemma HTTPStatusError_head e :
  HTTPStatusError e -> exists rest, e = Errorf (String "t" rest).
Proof.
  intros [[errs ->]|[[status [b ->]]|[status ->]]]; eexists; reflexivity.
Qed.

Lemma statusError_HTTPStatusError status errorBody :
  HTTPStatusError (statusError unmarshalErrors status errorBody).
Proof.
  unfold statusError, HTTPStatusError. destruct errorBody as [|c r]; [eauto|].
  destruct (unmarshalErrors (String c r)) as [e|[|e errs]]; eauto.
Qed.

Lemma doFetchTaxData_response url w resp n :
  exchange url (net Net w) = (http.DoReturns resp, n) ->
  fst (doFetchTaxData url w) = readResponse resp.
Proof. intros H. unfold services.doFetchTaxData. rewrite H. reflexivity. Qed.

(** C3 (amended): a response is turned into an HTTP status error exactly
    when its status is not 200.  With a status other than 200 the error
    carries the joined "code: message" texts when the body is not empty and
    decodes to a non-empty errors array, otherwise the raw body when the
    body is not empty, otherwise the bare status code.  With status 200 a
    body that does not decode yields the parse error, and a body that
    decodes to a non-empty bracket list is returned. *)
Theorem doFetchTaxData_classifies_by_status url w resp n body :
  exchange url (net Net w) = (http.DoReturns resp, n) ->
  http.ReadAll resp = inr body ->
  ((http.StatusCode resp <> 200)%Z <->
     exists e, fst (doFetchTaxData url w) = (None, Some e) /\ HTTPStatusError e)
  /\ ((http.StatusCode resp <> 200)%Z ->
      (forall errs,
          body <> EmptyString -> unmarshalErrors body = inr errs -> errs <> [] ->
          fst (doFetchTaxData url w)
          = (None, Some (Errorf ("tax calculator service error: "
                                 ++ strings.Join (map (fun e => Code e ++ ": " ++ Message e) errs) "; "))))
      /\ (body <> EmptyString ->
          (forall errs, unmarshalErrors body = inr errs -> errs = []) ->
          fst (doFetchTaxData url w)
          = (None, Some (Errorf ("tax calculator service returned: "
                                 ++ fmt.d (http.StatusCode resp)
                                 ++ " - Details: " ++ body))))
      /\ (body = EmptyString ->
          fst (doFetchTaxData url w)
          = (None, Some (Errorf ("tax calculator service returned error code: "
                                 ++ fmt.d (http.StatusCode resp))))))
  /\ (http.StatusCode resp = 200%Z ->
      (forall err,
          unmarshalResponse body = inl err ->
          fst (doFetchTaxData url w)
          = (None, Some (Errorf ("failed to parse tax calculator response: " ++ Error err))))
      /\ (forall r,
             unmarshalResponse body = inr r -> TaxBrackets r <> [] ->
             fst (doFetchTaxData url w) = (Some r, None))).
Proof.
  intros Hex Hbody. rewrite (doFetchTaxData_response _ _ _ _ Hex).
  split; [|split].
  - split.
    + intros Hs. rewrite (readResponse_not_ok _ _ Hs Hbody).
      eexists. split; [reflexivity|apply statusError_HTTPStatusError].
    + intros [e [He Hk]] Hs.
      rewrite (readResponse_ok _ _ Hs Hbody) in He.
      destruct (HTTPStatusError_head _ Hk) as [rest ->].
      destruct (unmarshalResponse body) as [err|r]; [discriminate He|].
      destruct (TaxBrackets r); discriminate He.
  - intros Hs. rewrite (readResponse_not_ok _ _ Hs Hbody). unfold statusError.
    split; [|split].
    + intros errs Hne Hdec Herrs. destruct body as [|c rest]; [congruence|].
      rewrite Hdec. destruct errs; [congruence|reflexivity].
    + intros Hne Hdec. destruct body as [|c rest]; [congruence|].
      destruct (unmarshalErrors (String c rest)) as [e|[|e errs]] eqn:E;
        try reflexivity.
      specialize (Hdec _ eq_refl). discriminate Hdec.
    + intros ->. reflexivity.
  - intros Hs. rewrite (readResponse_ok _ _ Hs Hbody). split.
    + intros err ->. reflexivity.
    + intros r -> Hr. destruct (TaxBrackets r); [congruence|reflexivity].
Qed.

(** C5 (amended): a response with status 200 whose body decodes to an empty
    bracket list yields the no-brackets error; and whatever the status, a
    response whose body decodes to an empty bracket list is never returned
    as a success. *)
Theorem doFetchTaxData_empty_brackets url w resp n body r :
  exchange url (net Net w) = (http.DoReturns resp, n) ->
  http.ReadAll resp = inr body ->
  unmarshalResponse body = inr r ->
  TaxBrackets r = [] ->
  (http.StatusCode resp = 200%Z ->
   fst (doFetchTaxData url w)
   = (None, Some (Errorf "no tax brackets returned from tax calculator")))
  /\ (forall r', fst (doFetchTaxData url w) <> (Some r', None)).
Proof.
  intros Hex Hbody Hdec Hr. rewrite (doFetchTaxData_response _ _ _ _ Hex).
  split.
  - intros Hs. rewrite (readResponse_ok _ _ Hs Hbody), Hdec, Hr. reflexivity.
  - intros r'. destruct (Z.eq_dec (http.StatusCode resp) http.StatusOK) as [Hs|Hs].
    + rewrite (readResponse_ok _ _ Hs Hbody), Hdec, Hr. discriminate.
    + rewrite (readResponse_not_ok _ _ Hs Hbody). discriminate.
Qed.

(** C9: FetchTaxData returns, and returns exactly one of a response and an
    error: a response with a nil error, or a nil response with an error. *)
Theorem FetchTaxData_response_xor_error tc url w :
  exists response err,
    fst (fst (FetchTaxData tc url w)) = Returns (response, err)
    /\ ((response <> None /\ err = None) \/ (response = None /\ err <> None)).
Proof.
  assert (Hdirect :
    exists response err,
      fst (fst (let '((response, err), w1) := doFetchTaxData url w in
                match err with
                | Some err =>
                    (Returns (@None TaxCalculatorResponse,
                              Some (Errorf ("tax calculator service error: " ++ Error err))),
                     tc, record Net metrics.IncTaxServiceErrors w1)
                | None => (Returns (response, None), tc, w1)
                end))
      = Returns (response, err)
      /\ ((response <> None /\ err = None) \/ (response = None /\ err <> None))).
  { pose proof (doFetchTaxData_exactly_one url w) as H.
    destruct (doFetchTaxData url w) as [[response err] w1]. simpl in H.
    destruct H as [[r [H _]]|[e H]]; inversion H; subst; simpl;
      do 2 eexists; (split; [reflexivity|]).
    - left. split; [discriminate|reflexivity].
    - right. split; [reflexivity|discriminate]. }
  unfold services.FetchTaxData.
  destruct (cbEnabled Net tc), (cb Net tc) as [breaker|]; try exact Hdirect.
  destruct (Execute_cases _ _ (clock Net now) (doFetchTaxData url) breaker w)
    as [[err [b' [w' ->]]]|[w1 [b' [w' ->]]]].
  - destruct err; simpl; do 2 eexists;
      (split; [reflexivity|right; split; [reflexivity|discriminate]]).
  - destruct (doFetchTaxData_exactly_one url w1) as [[r [-> _]]|[err ->]]; simpl.
    + do 2 eexists. split; [reflexivity|]. left. split; [discriminate|reflexivity].
    + destruct err; simpl; do 2 eexists;
        (split; [reflexivity|right; split; [reflexivity|discriminate]]).
Qed.

End FetchFacts.

(** ** The fetch on sample responses *)

(** C3, as stated, fails: a response with status 201, which is a 2xx
    status, and a body that decodes to a non-empty bracket list is not
    returned as a success but turned into a status error. *)
Lemma doFetchTaxData_201_with_brackets_fails :
  (200 <= 201 < 300)%Z
  /\ samples.unmarshalResponse samples.one_bracket_body
     = inr (mkTaxCalculatorResponse [mkTaxBracket 0 0 0.5]%float)
  /\ sample_fetch (http.mkResponse 201 (inr samples.one_bracket_body))
     = (None, Some (services.rawBodyError 201 samples.one_bracket_body)).
Proof. split; [lia|split; reflexivity]. Qed.

Lemma doFetchTaxData_classifies_by_status_witness :
  sample_fetch (http.mkResponse 503 (inr samples.errors_body))
  = (None, Some (Errorf "tax calculator service error: E1: down")).
Proof.
  pose proof (doFetchTaxData_classifies_by_status Z
                (samples.exchange (http.DoReturns (http.mkResponse 503 (inr samples.errors_body))))
                samples.unmarshalErrors samples.unmarshalResponse
                "http://localhost:5001/tax-calculator" sample_world
                (http.mkResponse 503 (inr samples.errors_body)) 1%Z samples.errors_body
                eq_refl eq_refl) as [_ [H _]].
  assert (Hs : (503 <> 200)%Z) by discriminate.
  destruct (H Hs) as [H1 _].
  assert (Hne : samples.errors_body <> EmptyString) by discriminate.
  assert (Herrs : [mkTaxCalcError "E1" "" "down"] <> []) by discriminate.
  exact (H1 [mkTaxCalcError "E1" "" "down"] Hne eq_refl Herrs).
Defined.

(** C5, as stated, fails: a response with status 201 whose body decodes to
    an empty bracket list yields a status error, not the no-brackets
    error. *)
Lemma doFetchTaxData_201_empty_brackets :
  (200 <= 201 < 300)%Z
  /\ samples.unmarshalResponse samples.empty_body = inr (mkTaxCalculatorResponse [])
  /\ sample_fetch (http.mkResponse 201 (inr samples.empty_body))
     <> (None, Some (Errorf "no tax brackets returned from tax calculator")).
Proof. split; [lia|split; [reflexivity|]]. vm_compute. discriminate. Qed.

Lemma doFetchTaxData_empty_brackets_witness :
  sample_fetch (http.mkResponse 200 (inr samples.empty_body))
  = (None, Some (Errorf "no tax brackets returned from tax calculator")).
Proof.
  exact (proj1 (doFetchTaxData_empty_brackets Z
                  (samples.exchange (http.DoReturns (http.mkResponse 200 (inr samples.empty_body))))
                  samples.unmarshalErrors samples.unmarshalResponse
                  "http://localhost:5001/tax-calculator" sample_world
                  (http.mkResponse 200 (inr samples.empty_body)) 1%Z samples.empty_body
                  (mkTaxCalculatorResponse []) eq_refl eq_refl eq_refl eq_refl) eq_refl).
Defined.

(** * The breaker *)

Section BreakerFacts.
Variable W : Type.
Variable clock : W -> Z.

Lemma Counts_sum_onSuccess c :
  (gobreaker.Requests c = gobreaker.TotalSuccesses c + gobreaker.TotalFailures c)%Z ->
  (gobreaker.Requests (gobreaker.onSuccess c)
   = gobreaker.TotalSuccesses (gobreaker.onSuccess c)
     + gobreaker.TotalFailures (gobreaker.onSuccess c))%Z.
Proof. simpl. lia. Qed.

Lemma Counts_sum_onFailure c :
  (gobreaker.Requests c = gobreaker.TotalSuccesses c + gobreaker.TotalFailures c)%Z ->
  (gobreaker.Requests (gobreaker.onFailure c)
   = gobreaker.TotalSuccesses (gobreaker.onFailure c)
     + gobreaker.TotalFailures (gobreaker.onFailure c))%Z.
Proof. simpl. lia. Qed.

Lemma step_Counts_sum ev (cb : gobreaker.CircuitBreaker W) :
  Counts_sum cb -> Counts_sum (gobreaker.step ev cb).
Proof.
  unfold Counts_sum. intros H. destruct ev as [now|now success]; simpl.
  - unfold gobreaker.beforeRequest.
    destruct (gobreaker.state cb); simpl; try assumption.
    + destruct (_ <=? _)%Z; simpl; assumption.
    + destruct (_ <=? _)%Z; simpl; [reflexivity|assumption].
  - unfold gobreaker.afterRequest.
    destruct (gobreaker.state cb); simpl; try assumption.
    + destruct success; simpl; [lia|].
      destruct (gobreaker.ReadyToTrip _ _); simpl; lia.
    + destruct success; simpl; [|reflexivity].
      destruct (_ <=? _)%Z; simpl; lia.
Qed.

Lemma step_transition_clears ev (cb : gobreaker.CircuitBreaker W) :
  gobreaker.state (gobreaker.step ev cb) <> gobreaker.state cb ->
  gobreaker.counts (gobreaker.step ev cb) = gobreaker.clear.
Proof.
  destruct ev as [now|now success]; simpl.
  - unfold gobreaker.beforeRequest.
    destruct (gobreaker.state cb) eqn:E; simpl; try congruence.
    + destruct (_ <=? _)%Z; simpl; congruence.
    + destruct (_ <=? _)%Z; simpl; congruence.
  - unfold gobreaker.afterRequest.
    destruct (gobreaker.state cb) eqn:E; simpl; try congruence.
    + destruct success; simpl; [congruence|].
      destruct (gobreaker.ReadyToTrip _ _); simpl; congruence.
    + destruct success; simpl; [|congruence].
      destruct (_ <=? _)%Z; simpl; congruence.
Qed.

(** C6: in every state a breaker reaches from a new one by admissions and
    completions, requests = successes + failures; and every step that
    changes the state leaves the Counts at zero. *)
Theorem Counts_invariant (st : gobreaker.Settings W) (cb : gobreaker.CircuitBreaker W) :
  gobreaker.reachable st cb ->
  (gobreaker.Requests (gobreaker.counts cb)
   = gobreaker.TotalSuccesses (gobreaker.counts cb)
     + gobreaker.TotalFailures (gobreaker.counts cb))%Z
  /\ (forall ev,
         gobreaker.state (gobreaker.step ev cb) <> gobreaker.state cb ->
         gobreaker.counts (gobreaker.step ev cb) = gobreaker.mkCounts 0 0 0).
Proof.
  intros Hr. split.
  - induction Hr as [|ev cb Hr IH]; [reflexivity|].
    apply step_Counts_sum. exact IH.
  - intros ev. apply step_transition_clears.
Qed.

(** *** Tripping with a threshold of five requests and a ratio of one half *)

Lemma ReadyToTrip_below cbConfig c :
  RequestThreshold cbConfig = 5%Z ->
  (gobreaker.Requests c < 5)%Z ->
  services.ReadyToTrip cbConfig c = false.
Proof.
  intros Ht Hr. unfold services.ReadyToTrip. rewrite Ht.
  replace (services.uint32 5 <=? gobreaker.Requests c)%Z with false; [reflexivity|].
  symmetry. apply Z.leb_gt. exact Hr.
Qed.

Lemma ReadyToTrip_five cbConfig c :
  RequestThreshold cbConfig = 5%Z ->
  FailureRatio cbConfig = 0.5%float ->
  gobreaker.Requests c = 5%Z ->
  (3 <= gobreaker.TotalFailures c <= 5)%Z ->
  services.ReadyToTrip cbConfig c = true.
Proof.
  intros Ht Hf Hr Hb. unfold services.ReadyToTrip. rewrite Ht, Hf, Hr.
  assert (H : gobreaker.TotalFailures c = 3%Z \/ gobreaker.TotalFailures c = 4%Z
              \/ gobreaker.TotalFailures c = 5%Z) by lia.
  destruct H as [->|[->| ->]]; vm_compute; reflexivity.
Qed.

Lemma failures_bounds errs : (0 <= failures errs <= Z.of_nat (List.length errs))%Z.
Proof.
  unfold failures. split; [lia|]. apply inj_le. apply filter_length_le.
Qed.

Lemma failures_cons err errs :
  failures (err :: errs) = ((if failed err then 1 else 0) + failures errs)%Z.
Proof.
  unfold failures. cbn [filter]. destruct (failed err); cbn [List.length]; lia.
Qed.

Section Trip.
Variable R : Type.
Variable cbConfig : CircuitBreakerConfig.
Variable st : gobreaker.Settings W.
Hypothesis threshold_five : RequestThreshold cbConfig = 5%Z.
Hypothesis ratio_half : FailureRatio cbConfig = 0.5%float.
Hypothesis trip_rule : gobreaker.ReadyToTrip st = services.ReadyToTrip cbConfig.

(** A call through a Closed breaker runs the operation. *)
Lemma Execute_closed (req : W -> (R * option error) * W) cb w :
  gobreaker.state cb = gobreaker.StateClosed ->
  gobreaker.Execute clock req cb w
  = (let '((result, err), w2) := req w in
     let '(cb2, notes2) :=
       gobreaker.afterRequest (clock w2) (negb (failed err)) cb in
     ((Some result, err), cb2, gobreaker.notify (gobreaker.settings cb) notes2 w2)).
Proof.
  intros Hc. unfold gobreaker.Execute, gobreaker.beforeRequest. rewrite Hc.
  simpl. destruct (req w) as [[result [e|]] w2]; reflexivity.
Qed.

(** While fewer than five calls have completed the breaker stays Closed
    and counts them. *)
Lemma Executes_closed (calls : list ((W -> (R * option error) * W) * W)) :
  forall cb errs cb',
    gobreaker.state cb = gobreaker.StateClosed ->
    gobreaker.settings cb = st ->
    (gobreaker.Requests (gobreaker.counts cb) + Z.of_nat (List.length calls) < 5)%Z ->
    Executes clock calls cb = (errs, cb') ->
    gobreaker.state cb' = gobreaker.StateClosed
    /\ gobreaker.settings cb' = st
    /\ (gobreaker.Requests (gobreaker.counts cb')
        = gobreaker.Requests (gobreaker.counts cb) + Z.of_nat (List.length calls))%Z
    /\ (gobreaker.TotalFailures (gobreaker.counts cb')
        = gobreaker.TotalFailures (gobreaker.counts cb) + failures errs)%Z
    /\ List.length errs = List.length calls.
Proof.
  induction calls as [|[req w] rest IH]; intros cb errs cb' Hc Hs Hn Hrun.
  - simpl in Hrun. inversion Hrun; subst. unfold failures. simpl.
    repeat split; try assumption; lia.
  - simpl in Hrun. rewrite (Execute_closed req cb w Hc) in Hrun.
    destruct (req w) as [[result err] w2].
    unfold gobreaker.afterRequest in Hrun. rewrite Hc in Hrun.
    assert (Hlen : Z.of_nat (List.length ((req, w) :: rest))
                   = (1 + Z.of_nat (List.length rest))%Z).
    { simpl List.length. lia. }
    destruct err as [e|]; simpl in Hrun.
    + rewrite Hs, trip_rule in Hrun.
      rewrite ReadyToTrip_below in Hrun by (try assumption; simpl; lia).
      match type of Hrun with
      | context [Executes clock rest ?b] =>
          destruct (Executes clock rest b) as [errs1 cb1] eqn:E;
          apply IH in E; [|reflexivity|simpl; congruence|simpl; lia]
      end.
      inversion Hrun; subst. simpl in E.
      destruct E as [E1 [E2 [E3 [E4 E5]]]].
      rewrite failures_cons. simpl failed. cbv iota.
      repeat split; try assumption; try lia. simpl. congruence.
    + match type of Hrun with
      | context [Executes clock rest ?b] =>
          destruct (Executes clock rest b) as [errs1 cb1] eqn:E;
          apply IH in E; [|reflexivity|simpl; congruence|simpl; lia]
      end.
      inversion Hrun; subst. simpl in E.
      destruct E as [E1 [E2 [E3 [E4 E5]]]].
      rewrite failures_cons. simpl failed. cbv iota.
      repeat split; try assumption; try lia. simpl. congruence.
Qed.

Lemma Executes_app (calls1 calls2 : list ((W -> (R * option error) * W) * W)) :
  forall cb,
    Executes clock (calls1 ++ calls2) cb
    = (let '(errs1, cb1) := Executes clock calls1 cb in
       let '(errs2, cb2) := Executes clock calls2 cb1 in
       (errs1 ++ errs2, cb2)).
Proof.
  induction calls1 as [|[req w] rest IH]; intros cb; simpl.
  - destruct (Executes clock calls2 cb); reflexivity.
  - destruct (gobreaker.Execute clock req cb w) as [[[result err] cb0] w0].
    rewrite IH. destruct (Executes clock rest cb0) as [errs1 cb1].
    destruct (Executes clock calls2 cb1) as [errs2 cb2]. reflexivity.
Qed.

(** An Open breaker whose timeout has not elapsed rejects the call and
    leaves the world as it was: the operation is not run. *)
Lemma Execute_open (req : W -> (R * option error) * W) cb w :
  gobreaker.state cb = gobreaker.StateOpen ->
  (clock w - gobreaker.openedAt cb < gobreaker.Timeout (gobreaker.settings cb))%Z ->
  gobreaker.Execute clock req cb w = ((None, Some ErrOpenState), cb, w).
Proof.
  intros Ho Ht. unfold gobreaker.Execute, gobreaker.beforeRequest. rewrite Ho.
  replace (gobreaker.Timeout (gobreaker.settings cb) <=? clock w - gobreaker.openedAt cb)%Z
    with false by (symmetry; apply Z.leb_gt; exact Ht).
  reflexivity.
Qed.

(** C1 (amended): with a threshold of five requests and a failure ratio of
    one half, after five completed calls through a new breaker of which at
    least three failed and the fifth failed, the breaker is Open; and a
    sixth call made before the timeout has elapsed since the breaker opened
    is rejected with the open-circuit error, the operation not being run
    (the world is left as it was). *)
Theorem breaker_opens_on_fifth_failure
        (calls : list ((W -> (R * option error) * W) * W))
        (errs : list (option error)) (cb : gobreaker.CircuitBreaker W) :
  List.length calls = 5%nat ->
  Executes clock calls (gobreaker.NewCircuitBreaker st) = (errs, cb) ->
  (3 <= failures errs)%Z ->
  failed (nth 4 errs None) = true ->
  gobreaker.state cb = gobreaker.StateOpen
  /\ (forall (req : W -> (R * option error) * W) (w : W),
         (clock w - gobreaker.openedAt cb < gobreaker.Timeout st)%Z ->
         gobreaker.Execute clock req cb w = ((None, Some ErrOpenState), cb, w)).
Proof.
  intros Hlen Hrun Hf Hlast.
  destruct calls as [|c1 [|c2 [|c3 [|c4 [|[req5 w5] [|c6 rest]]]]]]; try discriminate Hlen.
  change [c1; c2; c3; c4; (req5, w5)] with ([c1; c2; c3; c4] ++ [(req5, w5)]) in Hrun.
  rewrite Executes_app in Hrun.
  destruct (Executes clock [c1; c2; c3; c4] (gobreaker.NewCircuitBreaker st))
    as [errs4 cb4] eqn:E4.
  apply Executes_closed in E4; [|reflexivity|reflexivity|simpl; lia].
  destruct E4 as [Hc [Hs [Hr [Hfl Hl]]]]. simpl in Hr, Hfl.
  simpl Executes in Hrun. rewrite (Execute_closed req5 cb4 w5 Hc) in Hrun.
  destruct (req5 w5) as [[result err] w2].
  destruct errs4 as [|e1 [|e2 [|e3 [|e4 [|e5 more]]]]]; try discriminate Hl.
  unfold gobreaker.afterRequest in Hrun. rewrite Hc in Hrun.
  destruct err as [e|]; simpl in Hrun.
  - rewrite Hs, trip_rule in Hrun.
    assert (Hf5 : failures [e1; e2; e3; e4; Some e]
                  = (failures [e1; e2; e3; e4] + 1)%Z).
    { rewrite !failures_cons. cbn [failed]. lia. }
    pose proof (failures_bounds [e1; e2; e3; e4]) as Hb. simpl List.length in Hb.
    destruct (services.ReadyToTrip cbConfig (gobreaker.onFailure (gobreaker.counts cb4)))
      eqn:Htrip; simpl in Hrun; injection Hrun as He Hcb; subst errs cb.
    + simpl. split; [reflexivity|].
      intros req w Ht. apply Execute_open; [reflexivity|]. simpl. rewrite Hs. exact Ht.
    + assert (Hgo : services.ReadyToTrip cbConfig
                      (gobreaker.onFailure (gobreaker.counts cb4)) = true).
      { apply ReadyToTrip_five; try assumption; simpl; lia. }
      congruence.
  - inversion Hrun; subst. simpl in Hlast. discriminate Hlast.
Qed.

End Trip.

End BreakerFacts.

(** ** The breaker of the service on sample calls *)

(** C1, as stated, fails: after three failed calls followed by two
    successful ones (five completed calls, three of them failed) the breaker
    is still Closed, and the sixth call runs the operation.  And after two
    successful calls followed by three failed ones the breaker is Open, but
    a sixth call made 1000 seconds later, past the timeout of 60 seconds, is
    admitted as a trial and runs the operation. *)
Lemma breaker_closed_after_three_failures_first :
  List.length three_failures_first = 5%nat
  /\ failures (fst (Executes sample_clock three_failures_first
                      (gobreaker.NewCircuitBreaker default_settings))) = 3%Z
  /\ gobreaker.state (snd (Executes sample_clock three_failures_first
                             (gobreaker.NewCircuitBreaker default_settings)))
     <> gobreaker.StateOpen
  /\ fst (fst (gobreaker.Execute sample_clock failing_fetch
                 (snd (Executes sample_clock three_failures_first
                         (gobreaker.NewCircuitBreaker default_settings)))
                 sample_world))
     = (Some None, Some (Foreign "connection refused"))
  /\ gobreaker.state (snd (Executes sample_clock three_failures_last
                             (gobreaker.NewCircuitBreaker default_settings)))
     = gobreaker.StateOpen
  /\ fst (fst (gobreaker.Execute sample_clock failing_fetch
                 (snd (Executes sample_clock three_failures_last
                         (gobreaker.NewCircuitBreaker default_settings)))
                 later_world))
     = (Some None, Some (Foreign "connection refused")).
Proof.
  split; [reflexivity|]. split; [vm_compute; reflexivity|].
  split; [vm_compute; discriminate|].
  repeat split; vm_compute; reflexivity.
Qed.

Lemma breaker_opens_on_fifth_failure_witness :
  gobreaker.state (snd (Executes sample_clock three_failures_last
                          (gobreaker.NewCircuitBreaker default_settings)))
  = gobreaker.StateOpen
  /\ gobreaker.Execute sample_clock passing_fetch
       (snd (Executes sample_clock three_failures_last
               (gobreaker.NewCircuitBreaker default_settings)))
       sample_world
     = ((None, Some ErrOpenState),
        snd (Executes sample_clock three_failures_last
               (gobreaker.NewCircuitBreaker default_settings)),
        sample_world).
Proof.
  destruct (breaker_opens_on_fifth_failure (services.World Z) sample_clock
              (option TaxCalculatorResponse) default_config default_settings
              eq_refl eq_refl eq_refl three_failures_last
              (fst (Executes sample_clock three_failures_last
                      (gobreaker.NewCircuitBreaker default_settings)))
              (snd (Executes sample_clock three_failures_last
                      (gobreaker.NewCircuitBreaker default_settings)))
              eq_refl (surjective_pairing _))
    as [Hopen Hreject].
  - vm_compute. discriminate.
  - vm_compute. reflexivity.
  - split; [exact Hopen|]. apply Hreject. vm_compute. reflexivity.
Defined.

Lemma Counts_invariant_witness :
  (gobreaker.Requests (gobreaker.counts sample_breaker)
   = gobreaker.TotalSuccesses (gobreaker.counts sample_breaker)
     + gobreaker.TotalFailures (gobreaker.counts sample_breaker))%Z
  /\ (forall ev,
         gobreaker.state (gobreaker.step ev sample_breaker)
         <> gobreaker.state sample_breaker ->
         gobreaker.counts (gobreaker.step ev sample_breaker) = gobreaker.mkCounts 0 0 0).
Proof.
  apply (Counts_invariant (services.World Z) default_settings sample_breaker).
  unfold sample_breaker. repeat apply gobreaker.reachable_step.
  apply gobreaker.reachable_new.
Defined.

(** * The calculator *)

(** ** The tests of the calculator *)

(** C4: with the brackets 0-30000 at 0.1, 30000-70000 at 0.2 and 70000
    upwards at 0.3, a salary of 80000 owes 14000 at the effective rate
    0.175, and a salary of 45000 owes 6000 at the effective rate 0.133. *)
Theorem CalculateTax_three_brackets :
  services.CalculateTax 80000 samples.three_brackets = (14000, 0.175)%float
  /\ services.CalculateTax 45000 samples.three_brackets = (6000, 0.133)%float.
Proof. split; vm_compute; reflexivity. Qed.

(** The other cases of the repository's tests: one bracket, and the
    brackets of the handler's test. *)
Lemma CalculateTax_repository_tests :
  services.CalculateTax 50000 [mkTaxBracket 0 100000 0.2]%float = (10000, 0.2)%float
  /\ services.CalculateTax 75000 samples.handler_brackets = (13750, 0.183)%float.
Proof. split; vm_compute; reflexivity. Qed.

(** [math.Round] rounds halves away from zero and keeps the sign of zero. *)
Lemma Round_examples :
  map math.Round [0.5; -0.5; 2.5; -2.5; 175; 133.33333333333334; -0.3; infinity]%float
  = [1; -1; 3; -3; 175; 133; -0; infinity]%float
  /\ math.Round 0.49999999999999994 = 0%float
  /\ math.Round nan = nan.
Proof. repeat split; vm_compute; reflexivity. Qed.

Lemma CalculateTax_below_first_bracket :
  services.CalculateTax 500 samples.two_brackets = (0, 0)%float.
Proof. vm_compute. reflexivity. Qed.

(** ** Binary64 facts used below *)

Section Binary64.
Local Open Scope float_scope.

Lemma Prim2SF_zero : Prim2SF 0 = S754_zero false.
Proof. reflexivity. Qed.

Lemma Prim2SF_thousand : exists m e, Prim2SF 1000 = S754_finite false m e.
Proof. do 2 eexists. vm_compute. reflexivity. Qed.

Lemma Prim2SF_Round x :
  Prim2SF (math.Round x) = math.SFround (Prim2SF x)
  \/ exists s m e, Prim2SF x = S754_finite s m e.
Proof.
  unfold math.Round. destruct (Prim2SF x) as [s|s| |s m e] eqn:E.
  - left. simpl. destruct s; reflexivity.
  - left. simpl. destruct s; reflexivity.
  - left. reflexivity.
  - right. eauto.
Qed.

Lemma eqb_zero_iff x : (x =? 0) = true <-> is_zero_SF (Prim2SF x).
Proof.
  rewrite eqb_spec, Prim2SF_zero. unfold is_zero_SF, SFeqb.
  destruct (Prim2SF x) as [s|s| |s m e]; simpl.
  - split; eauto.
  - destruct s; split; try discriminate; intros [s' H]; discriminate.
  - split; try discriminate; intros [s' H]; discriminate.
  - destruct s; split; try discriminate; intros [s' H]; discriminate.
Qed.

(** The effective rate computed from a quotient that is zero is zero. *)
Lemma rate_of_zero q :
  is_zero_SF (Prim2SF q) ->
  is_zero_SF (Prim2SF (math.Round (q * 1000) / 1000)).
Proof.
  intros [s Hq]. destruct Prim2SF_thousand as [m [e Hk]].
  assert (H1 : Prim2SF (q * 1000) = S754_zero (xorb s false)).
  { rewrite mul_spec, Hq, Hk. reflexivity. }
  assert (H2 : Prim2SF (math.Round (q * 1000)) = S754_zero (xorb s false)).
  { destruct (Prim2SF_Round (q * 1000)) as [H|[s' [m' [e' H]]]].
    - rewrite H, H1. reflexivity.
    - rewrite H1 in H. discriminate. }
  exists (xorb (xorb s false) false).
  rewrite div_spec, H2, Hk. reflexivity.
Qed.

(** The effective rate computed from a quotient that is an infinity or a
    NaN is one too. *)
Lemma rate_of_not_a_number q :
  not_a_number_SF (Prim2SF q) ->
  not_a_number_SF (Prim2SF (math.Round (q * 1000) / 1000)).
Proof.
  intros Hq. destruct Prim2SF_thousand as [m [e Hk]].
  assert (H1 : not_a_number_SF (Prim2SF (q * 1000))).
  { rewrite mul_spec, Hk. destruct Hq as [->|[s ->]]; [left|right; eexists]; reflexivity. }
  assert (H2 : not_a_number_SF (Prim2SF (math.Round (q * 1000)))).
  { destruct (Prim2SF_Round (q * 1000)) as [H|[s' [m' [e' H]]]].
    - rewrite H. destruct H1 as [->|[s ->]]; [left|right; eexists]; reflexivity.
    - rewrite H in H1. destruct H1 as [H1|[s H1]]; discriminate. }
  rewrite div_spec, Hk.
  destruct H2 as [->|[s ->]]; [left|right; eexists]; reflexivity.
Qed.

Lemma div_by_zero t : not_a_number_SF (Prim2SF (t / 0)).
Proof.
  rewrite div_spec, Prim2SF_zero. unfold not_a_number_SF.
  destruct (Prim2SF t) as [s|s| |s m e]; simpl; eauto.
Qed.

Lemma zero_div s :
  (s =? 0) = false -> (s =? s) = true -> is_zero_SF (Prim2SF (0 / s)).
Proof.
  rewrite !eqb_spec, div_spec, Prim2SF_zero. unfold is_zero_SF, SFeqb.
  destruct (Prim2SF s) as [b|b| |b m e]; simpl; try discriminate; eauto.
Qed.

Lemma ltb_leb x y : (x <? y) = true -> (x <=? y) = true.
Proof.
  rewrite ltb_spec, leb_spec. unfold SFltb, SFleb.
  destruct (SFcompare (Prim2SF x) (Prim2SF y)) as [[| |]|]; congruence.
Qed.

Lemma ltb_self_eqb x y : (x <? y) = true -> (x =? x) = true.
Proof.
  rewrite ltb_spec, eqb_spec. unfold SFltb, SFeqb.
  destruct (Prim2SF x) as [b|b| |b m e]; simpl; try discriminate.
  - reflexivity.
  - destruct b; reflexivity.
  - intros _. destruct b; rewrite Z.compare_refl, Pos.compare_cont_refl; reflexivity.
Qed.

End Binary64.

(** ** A salary of zero, and salaries below the first bracket *)

(** C2, which the code breaks: for every bracket list, the effective rate
    CalculateTax returns for a salary of zero is not zero; it is the quotient
    of a division by zero, a NaN or an infinity. *)
Theorem CalculateTax_zero_salary (brackets : list TaxBracket) :
  (snd (services.CalculateTax 0 brackets) =? 0)%float = false
  /\ services.CalculateTax 0 [] = (0, nan)%float.
Proof.
  split; [|vm_compute; reflexivity].
  unfold services.CalculateTax. cbn [snd].
  pose proof (rate_of_not_a_number _
                (div_by_zero (services.CalculateTax_loop 0 brackets 0))) as H.
  match goal with |- (?r =? 0)%float = false => destruct (r =? 0)%float eqn:E end;
    [|reflexivity].
  exfalso. apply eqb_zero_iff in E. destruct E as [s E].
  rewrite E in H. destruct H as [H|[s' H]]; discriminate.
Qed.

(** C8, which the code breaks at a salary of zero: with the brackets
    1000-30000 at 0.1 and 30000-70000 at 0.2, a salary of zero, which is
    below the first bracket, gets the effective rate NaN. *)
Theorem CalculateTax_zero_below_first_bracket :
  (0 <? Min (hd (mkTaxBracket 0 0 0) samples.two_brackets))%float = true
  /\ services.CalculateTax 0 samples.two_brackets = (0, nan)%float.
Proof. split; vm_compute; reflexivity. Qed.

(** Every other salary below the first bracket owes no tax at the
    effective rate zero. *)
Lemma CalculateTax_below_first (salary : float) bracket rest :
  (salary <? Min bracket)%float = true ->
  (salary =? 0)%float = false ->
  fst (services.CalculateTax salary (bracket :: rest)) = 0%float
  /\ (snd (services.CalculateTax salary (bracket :: rest)) =? 0)%float = true.
Proof.
  intros Hlt Hnz. unfold services.CalculateTax. cbn [fst snd services.CalculateTax_loop].
  rewrite (ltb_leb _ _ Hlt). split; [reflexivity|].
  apply eqb_zero_iff. apply rate_of_zero. apply zero_div; [exact Hnz|].
  exact (ltb_self_eqb _ _ Hlt).
Qed.

(** ** Rounding to binary64 is monotone *)

Section Rounding.
Local Open Scope Z_scope.

Lemma shr_1_nonneg m r s :
  0 <= m ->
  shr_1 (Build_shr_record m r s) = Build_shr_record (m / 2) (Z.odd m) (r || s).
Proof.
  intros Hm. destruct m as [|[p|p|]|p]; try reflexivity; try lia.
  - simpl shr_1. f_equal. rewrite Pos2Z.inj_xI. 
    apply Z.div_unique with 1; lia.
  - simpl shr_1. f_equal. rewrite Pos2Z.inj_xO.
    apply Z.div_unique with 0; lia.
Qed.

Lemma shr_inv_step m0 k mrs :
  0 <= m0 -> 0 <= k -> shr_inv m0 k mrs -> shr_inv m0 (k + 1) (shr_1 mrs).
Proof.
  intros Hm Hk [Hq Hl]. destruct mrs as [m r s]. simpl in Hq, Hl.
  assert (Hp : 0 < 2 ^ k) by (apply Z.pow_pos_nonneg; lia).
  assert (Hm' : 0 <= m) by (subst m; apply Z.div_pos; lia).
  rewrite shr_1_nonneg by assumption.
  assert (Hpow : 2 ^ (k + 1) = 2 ^ k * 2) by (rewrite Z.pow_add_r by lia; reflexivity).
  assert (Hrem : m0 mod 2 ^ (k + 1) = m0 mod 2 ^ k + 2 ^ k * (m mod 2)).
  { rewrite Hpow, Z.rem_mul_r by lia. subst m. reflexivity. }
  pose proof (Z.mod_pos_bound m0 (2 ^ k) Hp) as Hb.
  split; cbn [shr_m].
  - rewrite Hpow. rewrite <- Z.div_div by lia. subst m. reflexivity.
  - unfold loc_of_rem in *. rewrite Hrem. rewrite Hpow. rewrite Zmod_odd.
    cbn [loc_of_shr_record shr_r shr_s].
    revert Hl. destruct (Z.eqb_spec (m0 mod 2 ^ k) 0) as [E|E]; intros Hl.
    + assert (r = false /\ s = false) as [-> ->].
      { destruct r, s; simpl in Hl; try discriminate Hl. split; reflexivity. }
      cbn [orb]. destruct (Z.odd m).
      * destruct (Z.eqb_spec (m0 mod 2 ^ k + 2 ^ k * 1) 0); [lia|].
        destruct (Z.compare_spec (2 * (m0 mod 2 ^ k + 2 ^ k * 1)) (2 ^ k * 2));
          try reflexivity; lia.
      * destruct (Z.eqb_spec (m0 mod 2 ^ k + 2 ^ k * 0) 0); [reflexivity|lia].
    + assert (r || s = true) as ->.
      { destruct r, s; simpl in Hl; try reflexivity; discriminate Hl. }
      destruct (Z.odd m).
      * destruct (Z.eqb_spec (m0 mod 2 ^ k + 2 ^ k * 1) 0); [lia|].
        destruct (Z.compare_spec (2 * (m0 mod 2 ^ k + 2 ^ k * 1)) (2 ^ k * 2));
          try reflexivity; lia.
      * destruct (Z.eqb_spec (m0 mod 2 ^ k + 2 ^ k * 0) 0); [lia|].
        destruct (Z.compare_spec (2 * (m0 mod 2 ^ k + 2 ^ k * 0)) (2 ^ k * 2));
          try reflexivity; lia.
Qed.

Lemma shr_inv_iter m0 (n : positive) :
  0 <= m0 ->
  forall k mrs, 0 <= k -> shr_inv m0 k mrs ->
                shr_inv m0 (k + Z.pos n) (iter_pos shr_1 n mrs).
Proof.
  intros Hm. induction n as [n IH|n IH|]; intros k mrs Hk H; simpl iter_pos.
  - replace (k + Z.pos n~1) with (((k + 1) + Z.pos n) + Z.pos n) by lia.
    apply IH; [lia|]. apply IH; [lia|]. apply shr_inv_step; assumption.
  - replace (k + Z.pos n~0) with ((k + Z.pos n) + Z.pos n) by lia.
    apply IH; [lia|]. apply IH; assumption.
  - apply shr_inv_step; assumption.
Qed.

Lemma shr_inv_start m0 : shr_inv m0 0 (Build_shr_record m0 false false).
Proof.
  unfold shr_inv, loc_of_rem. simpl. rewrite Z.div_1_r, Z.mod_1_r. split; reflexivity.
Qed.

(** [shr] by [n] places from an exact mantissa. *)
Lemma shr_exact m0 e n :
  0 <= m0 ->
  let '(mrs, e') := shr (Build_shr_record m0 false false) e n in
  e' = e + Z.max 0 n
  /\ shr_m mrs = m0 / 2 ^ Z.max 0 n
  /\ loc_of_shr_record mrs = loc_of_rem (m0 mod 2 ^ Z.max 0 n) (Z.max 0 n).
Proof.
  intros Hm. destruct n as [|p|p]; simpl shr.
  - simpl Z.max. rewrite Z.add_0_r. split; [reflexivity|]. apply shr_inv_start.
  - replace (Z.max 0 (Z.pos p)) with (Z.pos p) by lia. split; [reflexivity|].
    apply (shr_inv_iter m0 p Hm 0 _ (Z.le_refl 0) (shr_inv_start m0)).
  - replace (Z.max 0 (Z.neg p)) with 0 by lia. rewrite Z.add_0_r. split; [reflexivity|].
    apply shr_inv_start.
Qed.

Lemma digits2_pos_size m : digits2_pos m = Pos.size m.
Proof. induction m; simpl; congruence. Qed.

Lemma digits_bounds (m : positive) :
  2 ^ (Z.pos (digits2_pos m) - 1) <= Z.pos m < 2 ^ Z.pos (digits2_pos m).
Proof.
  rewrite digits2_pos_size. split.
  - pose proof (Pos.size_le m) as H.
    assert (H' : (2 ^ Z.pos (Pos.size m) <= Z.pos m~0)).
    { rewrite <- Pos2Z.inj_pow. apply Pos2Z.pos_le_pos. exact H. }
    replace (Z.pos (Pos.size m)) with (Z.pos (Pos.size m) - 1 + 1) in H' by lia.
    rewrite Z.pow_add_r in H' by lia. lia.
  - rewrite <- Pos2Z.inj_pow. apply Pos2Z.pos_lt_pos. apply Pos.size_gt.
Qed.

(** Digits of an integer from its bounds. *)
Lemma digits_unique (m : positive) d :
  2 ^ (d - 1) <= Z.pos m < 2 ^ d -> Z.pos (digits2_pos m) = d.
Proof.
  intros [Hl Hu]. pose proof (digits_bounds m) as [Hl' Hu'].
  assert (0 < d).
  { destruct (Z.ltb_spec 0 d); [assumption|].
    assert (2 ^ d <= 2 ^ 0) by (destruct (Z.eq_dec d 0); [subst; reflexivity|rewrite Z.pow_neg_r by lia; simpl; lia]).
    simpl in *. lia. }
  destruct (Z.lt_trichotomy (Z.pos (digits2_pos m)) d) as [Hlt|[Heq|Hgt]]; [|assumption|].
  - assert (2 ^ Z.pos (digits2_pos m) <= 2 ^ (d - 1)) by (apply Z.pow_le_mono_r; lia). lia.
  - assert (2 ^ d <= 2 ^ (Z.pos (digits2_pos m) - 1)) by (apply Z.pow_le_mono_r; lia). lia.
Qed.

Lemma rne_cases m k :
  0 <= k ->
  (rne m k = m / 2 ^ k /\ 2 * (m mod 2 ^ k) <= 2 ^ k
   /\ (2 * (m mod 2 ^ k) = 2 ^ k -> Z.even (m / 2 ^ k) = true))
  \/ (rne m k = m / 2 ^ k + 1 /\ 2 ^ k <= 2 * (m mod 2 ^ k)
      /\ (2 * (m mod 2 ^ k) = 2 ^ k -> Z.even (m / 2 ^ k) = false)).
Proof.
  intros Hk. unfold rne, loc_of_rem, round_nearest_even.
  assert (Hp : 0 < 2 ^ k) by (apply Z.pow_pos_nonneg; lia).
  pose proof (Z.mod_pos_bound m (2 ^ k) Hp) as Hb.
  destruct (Z.eqb_spec (m mod 2 ^ k) 0) as [E|E].
  - left. repeat split; lia.
  - destruct (Z.compare_spec (2 * (m mod 2 ^ k)) (2 ^ k)) as [C|C|C].
    + destruct (Z.even (m / 2 ^ k)) eqn:Ev; [left|right]; repeat split; try lia; congruence.
    + left. repeat split; lia.
    + right. repeat split; lia.
Qed.

Lemma rne_mono m1 m2 k : 0 <= k -> m1 <= m2 -> rne m1 k <= rne m2 k.
Proof.
  intros Hk Hle.
  assert (Hp : 0 < 2 ^ k) by (apply Z.pow_pos_nonneg; lia).
  pose proof (Z.div_le_mono m1 m2 (2 ^ k) Hp Hle) as Hq.
  pose proof (Z.div_mod m1 (2 ^ k)) as D1. pose proof (Z.div_mod m2 (2 ^ k)) as D2.
  pose proof (Z.mod_pos_bound m1 (2 ^ k) Hp) as B1.
  pose proof (Z.mod_pos_bound m2 (2 ^ k) Hp) as B2.
  destruct (rne_cases m1 k Hk) as [[-> [H1 H1']]|[-> [H1 H1']]];
    destruct (rne_cases m2 k Hk) as [[-> [H2 H2']]|[-> [H2 H2']]]; try lia.
  destruct (Z.eq_dec (m1 / 2 ^ k) (m2 / 2 ^ k)) as [E|E]; [|lia].
  exfalso. rewrite E in *.
  assert (m1 mod 2 ^ k <= m2 mod 2 ^ k) by nia.
  assert (2 * (m1 mod 2 ^ k) = 2 ^ k) by lia.
  assert (2 * (m2 mod 2 ^ k) = 2 ^ k) by lia.
  specialize (H1' ltac:(assumption)). specialize (H2' ltac:(assumption)). congruence.
Qed.

Lemma rne_0 m : rne m 0 = m.
Proof.
  unfold rne, loc_of_rem. simpl (2 ^ 0). rewrite Z.mod_1_r, Z.div_1_r. reflexivity.
Qed.

Lemma rne_scale m k j : 0 <= k -> 0 <= j -> rne (m * 2 ^ j) (k + j) = rne m k.
Proof.
  intros Hk Hj. unfold rne, loc_of_rem.
  assert (Hp : 0 < 2 ^ k) by (apply Z.pow_pos_nonneg; lia).
  assert (Hpj : 0 < 2 ^ j) by (apply Z.pow_pos_nonneg; lia).
  rewrite Z.pow_add_r by lia.
  rewrite (Z.mul_comm (2 ^ k) (2 ^ j)).
  rewrite (Z.mul_comm m (2 ^ j)).
  rewrite Z.div_mul_cancel_l by lia.
  rewrite Z.mul_mod_distr_l by lia.
  destruct (Z.eqb_spec (m mod 2 ^ k) 0) as [E|E].
  - rewrite E. rewrite Z.mul_0_r. reflexivity.
  - destruct (Z.eqb_spec (2 ^ j * (m mod 2 ^ k)) 0) as [E'|E']; [nia|].
    replace (2 * (2 ^ j * (m mod 2 ^ k))) with (2 ^ j * (2 * (m mod 2 ^ k))) by lia.
    rewrite <- Zmult_compare_compat_l by lia. reflexivity.
Qed.

Lemma rne_exact m k j : 0 <= k <= j -> rne (m * 2 ^ j) k = m * 2 ^ (j - k).
Proof.
  intros H.
  pose proof (rne_scale (m * 2 ^ (j - k)) 0 k (Z.le_refl 0) (proj1 H)) as E.
  rewrite Z.add_0_l, rne_0, <- Z.mul_assoc, <- Z.pow_add_r in E by lia.
  replace (j - k + k) with j in E by lia. exact E.
Qed.

Lemma rne_bounds m k :
  0 <= k -> m / 2 ^ k <= rne m k <= m / 2 ^ k + 1.
Proof.
  intros Hk. destruct (rne_cases m k Hk) as [[-> _]|[-> _]]; lia.
Qed.

(** An upper bound is kept when it is a multiple of [2^k]. *)
Lemma rne_le m k b : 0 <= k -> m <= b * 2 ^ k -> rne m k <= b.
Proof.
  intros Hk H. replace b with (rne (b * 2 ^ k) k).
  - apply rne_mono; assumption.
  - rewrite rne_exact by lia. rewrite Z.sub_diag. simpl. lia.
Qed.

Lemma rne_ge m k b : 0 <= k -> b * 2 ^ k <= m -> b <= rne m k.
Proof.
  intros Hk H. replace b with (rne (b * 2 ^ k) k).
  - apply rne_mono; assumption.
  - rewrite rne_exact by lia. rewrite Z.sub_diag. simpl. lia.
Qed.

Lemma fexp64 x : fexp prec emax x = Z.max (x - 53) (-1074).
Proof. reflexivity. Qed.

Lemma Zdigits2_le_53 n : 0 < n < 2 ^ 53 -> Zdigits2 n <= 53.
Proof.
  intros [H0 H]. destruct n as [|p|p]; try lia. simpl Zdigits2.
  pose proof (digits_bounds p) as [Hl _].
  destruct (Z.leb_spec (Z.pos (digits2_pos p)) 53) as [L|L]; [assumption|].
  assert (2 ^ 53 <= 2 ^ (Z.pos (digits2_pos p) - 1)) by (apply Z.pow_le_mono_r; lia).
  lia.
Qed.

Lemma renormalize s n E :
  0 <= n <= 2 ^ 53 -> -1074 <= E ->
  (let '(mrs, e') := shr_fexp prec emax n E loc_Exact in
   match shr_m mrs with
   | Z0 => S754_zero s
   | Zpos m => if e' <=? emax - prec then S754_finite s m e' else S754_infinity s
   | Zneg _ => S754_nan
   end) = finish s n E.
Proof.
  intros Hn HE. unfold shr_fexp. cbn [shr_record_of_loc].
  pose proof (shr_exact n E (fexp prec emax (Zdigits2 n + E) - E) (proj1 Hn)) as H.
  destruct (shr _ _ _) as [mrs e']. destruct H as [He [Hm _]].
  rewrite fexp64 in *. unfold finish.
  change (emax - prec) with 971.
  destruct (Z.eqb_spec n 0) as [E0|E0].
  - subst n. rewrite Z.div_0_l in Hm by (apply Z.pow_nonzero; lia). rewrite Hm. reflexivity.
  - destruct (Z.ltb_spec n (2 ^ 53)) as [L|L].
    + pose proof (Zdigits2_le_53 n ltac:(lia)) as Hd.
      replace (Z.max 0 (Z.max (Zdigits2 n + E - 53) (-1074) - E)) with 0 in * by lia.
      rewrite Z.add_0_r in He. simpl (2 ^ 0) in Hm. rewrite Z.div_1_r in Hm.
      rewrite Hm, He. destruct n as [|p|p]; try lia. reflexivity.
    + assert (n = 2 ^ 53) by lia. subst n.
      change (Zdigits2 (2 ^ 53)) with 54 in *.
      replace (Z.max 0 (Z.max (54 + E - 53) (-1074) - E)) with 1 in * by lia.
      rewrite Hm, He. reflexivity.
Qed.

Lemma scaled_bounds (m : positive) e :
  let E := fexp prec emax (Z.pos (digits2_pos m) + e) in
  0 <= scaled (Z.pos m) e E <= 2 ^ 53.
Proof.
  intros E. subst E. rewrite fexp64. unfold scaled.
  pose proof (digits_bounds m) as [Hl Hu].
  set (d := Z.pos (digits2_pos m)) in *.
  destruct (Z.leb_spec (Z.max (d + e - 53) (-1074)) e) as [L|L].
  - split; [apply Z.mul_nonneg_nonneg; [lia|apply Z.pow_nonneg; lia]|].
    assert (2 ^ d * 2 ^ (e - Z.max (d + e - 53) (-1074)) <= 2 ^ 53).
    { rewrite <- Z.pow_add_r by lia. apply Z.pow_le_mono_r; lia. }
    assert (0 <= 2 ^ (e - Z.max (d + e - 53) (-1074))) by (apply Z.pow_nonneg; lia).
    nia.
  - split.
    + apply rne_ge; [lia|]. lia.
    + apply rne_le; [lia|].
      assert (2 ^ d <= 2 ^ 53 * 2 ^ (Z.max (d + e - 53) (-1074) - e)).
      { rewrite <- Z.pow_add_r by lia. apply Z.pow_le_mono_r; lia. }
      lia.
Qed.

Lemma binary_round_aux_closed s (m : positive) e :
  let E := fexp prec emax (Z.pos (digits2_pos m) + e) in
  e <= E ->
  binary_round_aux prec emax s (Z.pos m) e loc_Exact
  = finish s (rne (Z.pos m) (E - e)) E.
Proof.
  intros E HE. unfold binary_round_aux.
  unfold shr_fexp at 1. cbn [shr_record_of_loc Zdigits2]. fold E.
  pose proof (shr_exact (Z.pos m) e (E - e) ltac:(lia)) as H.
  destruct (shr _ e (E - e)) as [mrs' e']. destruct H as [He [Hm Hl]].
  replace (Z.max 0 (E - e)) with (E - e) in * by lia.
  replace (e + (E - e)) with E in He by lia. subst e'.
  rewrite Hm, Hl. fold (rne (Z.pos m) (E - e)).
  pose proof (scaled_bounds m e) as Hb. fold E in Hb. cbv zeta in Hb. unfold scaled in Hb.
  destruct (Z.leb_spec E e) as [L|L].
  - replace (E - e) with 0 by lia. replace (e - E) with 0 in Hb by lia.
    rewrite rne_0. rewrite Z.pow_0_r, Z.mul_1_r in Hb.
    apply renormalize; [lia|]. subst E. rewrite fexp64. lia.
  - apply renormalize; [lia|]. subst E. rewrite fexp64. lia.
Qed.

Lemma Pos_iter_xO m d : Z.pos (Pos.iter xO m d) = Z.pos m * 2 ^ Z.pos d.
Proof.
  revert m. induction d using Pos.peano_ind; intros m.
  - simpl. lia.
  - rewrite Pos.iter_succ. rewrite Pos2Z.inj_xO, IHd, Pos2Z.inj_succ, Z.pow_succ_r by lia. lia.
Qed.

Lemma shl_align_spec m e e' :
  let '(m', e'') := shl_align m e e' in
  e'' = Z.min e e' /\ Z.pos m' = Z.pos m * 2 ^ (e - Z.min e e').
Proof.
  unfold shl_align. destruct (e' - e) as [|p|p] eqn:E.
  - replace (Z.min e e') with e by lia. rewrite Z.sub_diag. simpl. lia.
  - replace (Z.min e e') with e by lia. rewrite Z.sub_diag. simpl. lia.
  - replace (Z.min e e') with e' by lia. split; [reflexivity|].
    rewrite Pos_iter_xO. f_equal. f_equal. lia.
Qed.

Theorem binary_round_closed s (m : positive) e :
  let E := fexp prec emax (Z.pos (digits2_pos m) + e) in
  binary_round prec emax s m e = finish s (scaled (Z.pos m) e E) E.
Proof.
  intros E. unfold binary_round. fold E.
  pose proof (shl_align_spec m e E) as H.
  destruct (shl_align m e E) as [m' e']. destruct H as [He Hm].
  pose proof (digits_bounds m) as [Hl Hu].
  assert (Hp : 0 < 2 ^ (e - Z.min e E)) by (apply Z.pow_pos_nonneg; lia).
  assert (Hd : Z.pos (digits2_pos m') = Z.pos (digits2_pos m) + (e - Z.min e E)).
  { apply digits_unique. rewrite Hm. split.
    - replace (Z.pos (digits2_pos m) + (e - Z.min e E) - 1)
        with ((Z.pos (digits2_pos m) - 1) + (e - Z.min e E)) by lia.
      rewrite Z.pow_add_r by lia. nia.
    - rewrite Z.pow_add_r by lia. nia. }
  assert (HE : fexp prec emax (Z.pos (digits2_pos m') + e') = E).
  { rewrite Hd, He. unfold E. f_equal. lia. }
  pose proof (binary_round_aux_closed s m' e') as Hc. cbv zeta in Hc.
  rewrite HE in Hc. rewrite Hc by lia. f_equal.
  unfold scaled. rewrite Hm, He. destruct (Z.leb_spec E e) as [L|L].
  - replace (Z.min e E) with E by lia. rewrite Z.sub_diag. apply rne_0.
  - replace (Z.min e E) with e by lia. rewrite Z.sub_diag, Z.mul_1_r. reflexivity.
Qed.

Lemma pow2_pos k : 0 <= k -> 0 < 2 ^ k.
Proof. intros. apply Z.pow_pos_nonneg; lia. Qed.

Lemma pow2_split a b : 0 <= a -> 0 <= b -> 2 ^ (a + b) = 2 ^ a * 2 ^ b.
Proof. intros. apply Z.pow_add_r; assumption. Qed.

(** In the normal range the rounded mantissa has 53 digits or is [2^53]. *)
Lemma scaled_normal (m : positive) e :
  let d := Z.pos (digits2_pos m) in
  -1074 <= d + e - 53 ->
  2 ^ 52 <= scaled (Z.pos m) e (d + e - 53).
Proof.
  intros d Hn. pose proof (digits_bounds m) as [Hl Hu]. fold d in Hl, Hu.
  unfold scaled. destruct (Z.leb_spec (d + e - 53) e) as [L|L].
  - replace (e - (d + e - 53)) with (53 - d) by lia.
    assert (2 ^ (d - 1) * 2 ^ (53 - d) = 2 ^ 52).
    { rewrite <- Z.pow_add_r by lia. f_equal. lia. }
    pose proof (pow2_pos (53 - d) ltac:(lia)). nia.
  - apply rne_ge; [lia|]. replace (d + e - 53 - e) with (d - 53) by lia.
    rewrite <- Z.pow_add_r by lia. replace (52 + (d - 53)) with (d - 1) by lia.
    exact Hl.
Qed.

Lemma SFrank_finish n E :
  0 <= n <= 2 ^ 53 -> -1074 <= E ->
  (-1074 < E -> 2 ^ 52 <= n) ->
  SFrank (finish false n E) = Some (saturate (n * 2 ^ (E + 1074))).
Proof.
  intros Hn HE Hnorm. unfold finish, saturate, OVERFLOW.
  pose proof (pow2_pos (E + 1074) ltac:(lia)) as Hp.
  destruct (Z.eqb_spec n 0) as [E0|E0].
  - subst n. reflexivity.
  - destruct (Z.ltb_spec n (2 ^ 53)) as [L|L].
    + destruct (Z.leb_spec E 971) as [L1|L1].
      * cbn [SFrank cond_Zopp]. rewrite Z2Pos.id by lia.
        assert (2 ^ (E + 1074) <= 2 ^ 2045) by (apply Z.pow_le_mono_r; lia).
        assert (2 ^ 53 * 2 ^ 2045 = 2 ^ 2098) by reflexivity.
        destruct (Z.ltb_spec (n * 2 ^ (E + 1074)) (2 ^ 2098)); [reflexivity|nia].
      * cbn [SFrank cond_Zopp]. specialize (Hnorm ltac:(lia)).
        assert (2 ^ 2046 <= 2 ^ (E + 1074)) by (apply Z.pow_le_mono_r; lia).
        assert (2 ^ 52 * 2 ^ 2046 = 2 ^ 2098) by reflexivity.
        destruct (Z.ltb_spec (n * 2 ^ (E + 1074)) (2 ^ 2098)); [nia|reflexivity].
    + assert (n = 2 ^ 53) by lia. subst n.
      destruct (Z.leb_spec (E + 1) 971) as [L1|L1].
      * cbn [SFrank cond_Zopp]. rewrite Z2Pos.id by reflexivity.
        assert (2 ^ (E + 1074) <= 2 ^ 2044) by (apply Z.pow_le_mono_r; lia).
        assert (2 ^ 53 * 2 ^ 2044 < 2 ^ 2098) by reflexivity.
        destruct (Z.ltb_spec (2 ^ 53 * 2 ^ (E + 1074)) (2 ^ 2098)); [|nia].
        f_equal. replace (E + 1 + 1074) with (1 + (E + 1074)) by lia.
        rewrite pow2_split by lia. change (2 ^ 53) with (2 ^ 52 * 2 ^ 1). lia.
      * cbn [SFrank cond_Zopp].
        assert (2 ^ 2045 <= 2 ^ (E + 1074)) by (apply Z.pow_le_mono_r; lia).
        assert (2 ^ 53 * 2 ^ 2045 = 2 ^ 2098) by reflexivity.
        destruct (Z.ltb_spec (2 ^ 53 * 2 ^ (E + 1074)) (2 ^ 2098)); [nia|reflexivity].
Qed.

Theorem SFrank_binary_round (m : positive) e :
  SFrank (binary_round prec emax false m e) = Some (saturate (rounded m e)).
Proof.
  rewrite binary_round_closed. unfold rounded.
  pose proof (scaled_bounds m e) as Hb. cbv zeta in Hb.
  apply SFrank_finish; [exact Hb|rewrite fexp64; lia|].
  rewrite fexp64. intros Hn.
  replace (Z.max (Z.pos (digits2_pos m) + e - 53) (-1074))
    with (Z.pos (digits2_pos m) + e - 53) in * by lia.
  apply scaled_normal. lia.
Qed.

Lemma digits_mono (m1 m2 : positive) :
  (m1 <= m2)%positive -> Z.pos (digits2_pos m1) <= Z.pos (digits2_pos m2).
Proof.
  intros H. pose proof (digits_bounds m1) as [L1 U1]. pose proof (digits_bounds m2) as [L2 U2].
  destruct (Z.leb_spec (Z.pos (digits2_pos m1)) (Z.pos (digits2_pos m2))); [assumption|].
  assert (2 ^ Z.pos (digits2_pos m2) <= 2 ^ (Z.pos (digits2_pos m1) - 1))
    by (apply Z.pow_le_mono_r; lia).
  assert (Z.pos m1 <= Z.pos m2) by (apply Pos2Z.pos_le_pos; assumption). lia.
Qed.

Lemma scaled_mono m1 m2 e E : 0 <= m1 <= m2 -> scaled m1 e E <= scaled m2 e E.
Proof.
  intros H. unfold scaled. destruct (Z.leb_spec E e).
  - pose proof (pow2_pos (e - E) ltac:(lia)). nia.
  - apply rne_mono; lia.
Qed.

(** Rounding is monotone at a fixed exponent. *)
Lemma rounded_mono (m1 m2 : positive) e :
  (m1 <= m2)%positive -> rounded m1 e <= rounded m2 e.
Proof.
  intros H. unfold rounded. rewrite !fexp64.
  pose proof (digits_mono m1 m2 H) as Hd.
  assert (Hm : Z.pos m1 <= Z.pos m2) by (apply Pos2Z.pos_le_pos; assumption).
  set (d1 := Z.pos (digits2_pos m1)) in *. set (d2 := Z.pos (digits2_pos m2)) in *.
  destruct (Z.eq_dec (Z.max (d1 + e - 53) (-1074)) (Z.max (d2 + e - 53) (-1074))) as [E|E].
  - rewrite E. apply Z.mul_le_mono_nonneg_r; [apply Z.pow_nonneg; lia|].
    apply scaled_mono. lia.
  - assert (Hn : -1074 < d2 + e - 53) by lia.
    replace (Z.max (d2 + e - 53) (-1074)) with (d2 + e - 53) by lia.
    pose proof (scaled_normal m2 e) as H2. cbv zeta in H2. fold d2 in H2.
    specialize (H2 ltac:(lia)).
    pose proof (scaled_bounds m1 e) as H1. cbv zeta in H1. rewrite fexp64 in H1. fold d1 in H1.
    set (E1 := Z.max (d1 + e - 53) (-1074)) in *.
    assert (HE : E1 + 1 <= d2 + e - 53) by lia.
    pose proof (pow2_pos (E1 + 1074) ltac:(lia)) as Hp1.
    assert (2 ^ 53 * 2 ^ (E1 + 1074) <= 2 ^ 52 * 2 ^ (d2 + e - 53 + 1074)).
    { rewrite <- !Z.pow_add_r by lia. apply Z.pow_le_mono_r; lia. }
    pose proof (pow2_pos (d2 + e - 53 + 1074) ltac:(lia)). nia.
Qed.

(** Rounding does not depend on how the value is written. *)
Lemma rounded_shift (m m' : positive) e k :
  0 <= k -> Z.pos m' = Z.pos m * 2 ^ k -> rounded m' (e - k) = rounded m e.
Proof.
  intros Hk Hm. unfold rounded.
  pose proof (digits_bounds m) as [Hl Hu].
  pose proof (pow2_pos k Hk) as Hp.
  assert (Hd : Z.pos (digits2_pos m') = Z.pos (digits2_pos m) + k).
  { apply digits_unique. rewrite Hm. split.
    - replace (Z.pos (digits2_pos m) + k - 1) with ((Z.pos (digits2_pos m) - 1) + k) by lia.
      rewrite Z.pow_add_r by lia. nia.
    - rewrite Z.pow_add_r by lia. nia. }
  rewrite Hd. replace (Z.pos (digits2_pos m) + k + (e - k)) with (Z.pos (digits2_pos m) + e) by lia.
  set (E := fexp prec emax (Z.pos (digits2_pos m) + e)). f_equal.
  unfold scaled. rewrite Hm.
  destruct (Z.leb_spec E (e - k)) as [L|L].
  - destruct (Z.leb_spec E e); [|lia].
    rewrite <- Z.mul_assoc, <- Z.pow_add_r by lia. f_equal. f_equal. lia.
  - destruct (Z.leb_spec E e) as [L'|L'].
    + rewrite rne_exact by lia. f_equal. f_equal. lia.
    + replace (E - (e - k)) with ((E - e) + k) by lia. apply rne_scale; lia.
Qed.

(** A float that is its own rounding. *)
Lemma rounded_canonical (m : positive) e :
  bounded prec emax m e = true ->
  rounded m e = Z.pos m * 2 ^ (e + 1074).
Proof.
  unfold bounded, canonical_mantissa. intros H. apply andb_prop in H. destruct H as [H _].
  apply Z.eqb_eq in H. unfold rounded. rewrite H. unfold scaled.
  rewrite Z.leb_refl, Z.sub_diag, Z.mul_1_r. reflexivity.
Qed.

Lemma bounded_facts (m : positive) e :
  bounded prec emax m e = true ->
  -1074 <= e <= 971
  /\ Z.pos (digits2_pos m) <= 53
  /\ (-1074 < e -> Z.pos (digits2_pos m) = 53).
Proof.
  unfold bounded, canonical_mantissa. intros H. apply andb_prop in H. destruct H as [H1 H2].
  apply Z.eqb_eq in H1. apply Z.leb_le in H2. rewrite fexp64 in H1.
  change (emax - prec) with 971 in H2. lia.
Qed.

Lemma bounded_rank (m : positive) e :
  bounded prec emax m e = true ->
  0 < Z.pos m * 2 ^ (e + 1074) < OVERFLOW.
Proof.
  intros H. destruct (bounded_facts m e H) as [He [Hd _]].
  pose proof (digits_bounds m) as [_ Hu].
  pose proof (pow2_pos (e + 1074) ltac:(lia)).
  assert (2 ^ Z.pos (digits2_pos m) <= 2 ^ 53) by (apply Z.pow_le_mono_r; lia).
  assert (2 ^ (e + 1074) <= 2 ^ 2045) by (apply Z.pow_le_mono_r; lia).
  assert (2 ^ 53 * 2 ^ 2045 = OVERFLOW) by reflexivity.
  split; nia.
Qed.

Lemma SFrank_binary_normalize u v :
  0 <= v -> SFrank (binary_normalize prec emax v u false) = Some (RK u v).
Proof.
  intros Hv. destruct v as [|p|p]; try lia.
  - reflexivity.
  - apply SFrank_binary_round.
Qed.

Lemma saturate_mono a b : a <= b -> saturate a <= saturate b.
Proof.
  unfold saturate, OVERFLOW, INF. intros H.
  assert (2 ^ 2098 < 2 ^ 2100) by reflexivity.
  destruct (Z.ltb_spec a (2 ^ 2098)), (Z.ltb_spec b (2 ^ 2098)); lia.
Qed.

Lemma rounded_pos m e : 0 <= rounded m e.
Proof.
  unfold rounded. pose proof (scaled_bounds m e) as H. cbv zeta in H.
  apply Z.mul_nonneg_nonneg; [lia|]. apply Z.pow_nonneg. lia.
Qed.

Lemma saturate_bounds v : 0 <= v -> 0 <= saturate v <= INF.
Proof.
  unfold saturate, OVERFLOW, INF. intros H.
  assert (2 ^ 2098 < 2 ^ 2100) by reflexivity.
  destruct (Z.ltb_spec v (2 ^ 2098)); lia.
Qed.

Lemma RK_bounds u v : 0 <= RK u v <= INF.
Proof.
  unfold RK. destruct v; try (unfold INF; split; [lia|apply Z.pow_nonneg; lia]).
  apply saturate_bounds. apply rounded_pos.
Qed.

Theorem RK_mono u v1 v2 : v1 <= v2 -> RK u v1 <= RK u v2.
Proof.
  intros H. destruct v1 as [|p1|p1], v2 as [|p2|p2]; try lia;
    try apply RK_bounds; try reflexivity.
  - unfold RK. apply saturate_mono. apply rounded_mono. exact H.
Qed.

Theorem RK_shift u v k : 0 <= k -> RK (u - k) (v * 2 ^ k) = RK u v.
Proof.
  intros Hk. pose proof (pow2_pos k Hk) as Hp. destruct v as [|p|p].
  - reflexivity.
  - destruct (Z.pos p * 2 ^ k) as [|p'|p'] eqn:E; try lia.
    unfold RK. f_equal. apply rounded_shift; [assumption|]. symmetry. exact E.
  - destruct (Z.neg p * 2 ^ k) as [|p'|p'] eqn:E; try lia. reflexivity.
Qed.

Theorem RK_canonical (m : positive) e :
  bounded prec emax m e = true ->
  RK (-1074) (Z.pos m * 2 ^ (e + 1074)) = Z.pos m * 2 ^ (e + 1074).
Proof.
  intros H. destruct (bounded_facts m e H) as [He _].
  replace (-1074) with (e - (e + 1074)) by lia. rewrite RK_shift by lia.
  unfold RK. rewrite rounded_canonical by assumption.
  unfold saturate. pose proof (bounded_rank m e H) as Hb.
  destruct (Z.ltb_spec (Z.pos m * 2 ^ (e + 1074)) OVERFLOW); [reflexivity|lia].
Qed.

Lemma INF_OVERFLOW : OVERFLOW < INF.
Proof. reflexivity. Qed.

Lemma canonical_compare (m1 m2 : positive) e1 e2 :
  bounded prec emax m1 e1 = true ->
  bounded prec emax m2 e2 = true ->
  match e1 ?= e2 with
  | Lt => Lt
  | Gt => Gt
  | Eq => Pos.compare_cont Eq m1 m2
  end = (Z.pos m1 * 2 ^ (e1 + 1074) ?= Z.pos m2 * 2 ^ (e2 + 1074)).
Proof.
  intros H1 H2.
  destruct (bounded_facts m1 e1 H1) as [He1 [Hd1 Hn1]].
  destruct (bounded_facts m2 e2 H2) as [He2 [Hd2 Hn2]].
  pose proof (digits_bounds m1) as [L1 U1]. pose proof (digits_bounds m2) as [L2 U2].
  pose proof (pow2_pos (e1 + 1074) ltac:(lia)) as P1.
  pose proof (pow2_pos (e2 + 1074) ltac:(lia)) as P2.
  assert (U1' : Z.pos m1 < 2 ^ 53).
  { assert (2 ^ Z.pos (digits2_pos m1) <= 2 ^ 53) by (apply Z.pow_le_mono_r; lia). lia. }
  assert (U2' : Z.pos m2 < 2 ^ 53).
  { assert (2 ^ Z.pos (digits2_pos m2) <= 2 ^ 53) by (apply Z.pow_le_mono_r; lia). lia. }
  destruct (Z.compare_spec e1 e2) as [E|E|E].
  - subst e2. change (Pos.compare_cont Eq m1 m2) with (Z.pos m1 ?= Z.pos m2).
    apply Zmult_compare_compat_r. lia.
  - symmetry. apply Z.compare_lt_iff.
    rewrite (Hn2 ltac:(lia)) in L2. change (2 ^ (53 - 1)) with (2 ^ 52) in L2.
    assert (2 ^ 53 * 2 ^ (e1 + 1074) <= 2 ^ 52 * 2 ^ (e2 + 1074)).
    { rewrite <- !Z.pow_add_r by lia. apply Z.pow_le_mono_r; lia. }
    nia.
  - symmetry. apply Z.compare_gt_iff.
    rewrite (Hn1 ltac:(lia)) in L1. change (2 ^ (53 - 1)) with (2 ^ 52) in L1.
    assert (2 ^ 53 * 2 ^ (e2 + 1074) <= 2 ^ 52 * 2 ^ (e1 + 1074)).
    { rewrite <- !Z.pow_add_r by lia. apply Z.pow_le_mono_r; lia. }
    nia.
Qed.

Lemma Some_inj (A : Type) (a b : A) : Some a = Some b -> a = b.
Proof. congruence. Qed.

Lemma SFrank_finite_eq s m e a :
  SFrank (S754_finite s m e) = Some a -> a = cond_Zopp s (Z.pos m * 2 ^ (e + 1074)).
Proof. intros H. symmetry. apply Some_inj. exact H. Qed.

Lemma SFrank_infinity_eq s a :
  SFrank (S754_infinity s) = Some a -> a = cond_Zopp s INF.
Proof. intros H. symmetry. apply Some_inj. exact H. Qed.

Lemma SFrank_zero_eq s a : SFrank (S754_zero s) = Some a -> a = 0.
Proof. intros H. symmetry. apply Some_inj. exact H. Qed.

Ltac rank_compare :=
  cbn [SFcompare cond_Zopp]; f_equal; symmetry;
  first [ apply Z.compare_eq_iff; lia
        | apply Z.compare_lt_iff; lia
        | apply Z.compare_gt_iff; lia ].

(** Comparison of floats is comparison of ranks. *)
Theorem SFcompare_rank x y a b :
  valid_binary x = true -> valid_binary y = true ->
  SFrank x = Some a -> SFrank y = Some b ->
  SFcompare x y = Some (a ?= b).
Proof.
  intros Vx Vy Hx Hy. pose proof INF_OVERFLOW as HI.
  assert (HIpos : 0 < INF) by reflexivity.
  destruct x as [sx|sx| |sx mx ex], y as [sy|sy| |sy my ey];
    try discriminate Hx; try discriminate Hy;
    first [ apply SFrank_zero_eq in Hx | apply SFrank_infinity_eq in Hx
          | apply SFrank_finite_eq in Hx ];
    first [ apply SFrank_zero_eq in Hy | apply SFrank_infinity_eq in Hy
          | apply SFrank_finite_eq in Hy ];
    subst a b;
    try (assert (Bx := bounded_rank mx ex Vx));
    try (assert (By := bounded_rank my ey Vy)).
  - reflexivity.
  - destruct sy; rank_compare.
  - destruct sy; rank_compare.
  - destruct sx; rank_compare.
  - destruct sx, sy; rank_compare.
  - destruct sx, sy; rank_compare.
  - destruct sx; rank_compare.
  - destruct sx, sy; rank_compare.
  - cbn [SFcompare]. destruct sx, sy; cbn [cond_Zopp].
    + f_equal. rewrite Z.compare_opp.
      rewrite <- (canonical_compare my mx ey ex Vy Vx).
      rewrite (Z.compare_antisym ex ey).
      destruct (ex ?= ey); simpl; try reflexivity.
      rewrite Pos.compare_cont_antisym. reflexivity.
    + f_equal. symmetry. apply Z.compare_lt_iff. lia.
    + f_equal. symmetry. apply Z.compare_gt_iff. lia.
    + f_equal. apply canonical_compare; assumption.
Qed.

Lemma RK_INF u v : u = -1074 -> INF <= v -> RK u v = INF.
Proof.
  intros -> H. pose proof (RK_mono (-1074) INF v H) as H1.
  pose proof (RK_bounds (-1074) v) as H2.
  assert (H3 : RK (-1074) INF = INF) by (vm_compute; reflexivity).
  lia.
Qed.

Lemma nonneg_finite_sign s (m : positive) e :
  0 <= cond_Zopp s (Z.pos m * 2 ^ (e + 1074)) -> -1074 <= e -> s = false.
Proof.
  intros H He. destruct s; [|reflexivity]. cbn [cond_Zopp] in H.
  pose proof (pow2_pos (e + 1074) ltac:(lia)). nia.
Qed.

Lemma nonneg_infinity_sign s : 0 <= cond_Zopp s INF -> s = false.
Proof.
  intros H. destruct s; [|reflexivity]. cbn [cond_Zopp] in H.
  assert (0 < INF) by reflexivity. lia.
Qed.

Lemma aligned (mx my : positive) ex ey :
  let ez := Z.min ex ey in
  Z.pos (fst (shl_align mx ex ez)) = Z.pos mx * 2 ^ (ex - ez)
  /\ Z.pos (fst (shl_align my ey ez)) = Z.pos my * 2 ^ (ey - ez).
Proof.
  intros ez. pose proof (shl_align_spec mx ex ez) as Hx.
  pose proof (shl_align_spec my ey ez) as Hy.
  destruct (shl_align mx ex ez) as [mx' ex']. destruct (shl_align my ey ez) as [my' ey'].
  destruct Hx as [_ Hx]. destruct Hy as [_ Hy]. simpl fst.
  replace (Z.min ex ez) with ez in Hx by lia.
  replace (Z.min ey ez) with ez in Hy by lia. split; assumption.
Qed.

Theorem SFadd_rank x y a b :
  valid_binary x = true -> valid_binary y = true ->
  SFrank x = Some a -> SFrank y = Some b ->
  0 <= a -> 0 <= b ->
  SFrank (SF64add x y) = Some (RK (-1074) (a + b)).
Proof.
  intros Vx Vy Hx Hy Ha Hb.
  assert (HIpos : 0 < INF) by reflexivity.
  destruct x as [sx|sx| |sx mx ex], y as [sy|sy| |sy my ey];
    try discriminate Hx; try discriminate Hy;
    first [ apply SFrank_zero_eq in Hx | apply SFrank_infinity_eq in Hx
          | apply SFrank_finite_eq in Hx ];
    first [ apply SFrank_zero_eq in Hy | apply SFrank_infinity_eq in Hy
          | apply SFrank_finite_eq in Hy ];
    subst a b;
    try (assert (Fx := bounded_facts mx ex Vx));
    try (assert (Fy := bounded_facts my ey Vy));
    try (assert (sx = false) by (first [apply (nonneg_finite_sign _ _ _ Ha); lia
                                      | apply (nonneg_infinity_sign _ Ha)]); subst sx);
    try (assert (sy = false) by (first [apply (nonneg_finite_sign _ _ _ Hb); lia
                                      | apply (nonneg_infinity_sign _ Hb)]); subst sy);
    cbn [cond_Zopp] in *.
  - destruct sx, sy; reflexivity.
  - rewrite RK_INF by (try reflexivity; lia). destruct sx; reflexivity.
  - rewrite Z.add_0_l, RK_canonical by assumption. destruct sx; reflexivity.
  - rewrite RK_INF by (try reflexivity; lia). destruct sy; reflexivity.
  - rewrite RK_INF by (try reflexivity; lia). reflexivity.
  - rewrite RK_INF; [reflexivity|reflexivity|].
    pose proof (pow2_pos (ey + 1074) ltac:(lia)). nia.
  - rewrite Z.add_0_r, RK_canonical by assumption. destruct sy; reflexivity.
  - rewrite RK_INF; [reflexivity|reflexivity|].
    pose proof (pow2_pos (ex + 1074) ltac:(lia)). nia.
  - unfold SF64add, SFadd. cbn [cond_Zopp].
    destruct (aligned mx my ex ey) as [Ax Ay]. cbv zeta in Ax, Ay.
    set (ez := Z.min ex ey) in *.
    rewrite Ax, Ay.
    pose proof (pow2_pos (ex - ez) ltac:(lia)). pose proof (pow2_pos (ey - ez) ltac:(lia)).
    rewrite SFrank_binary_normalize by nia. f_equal.
    rewrite <- (RK_shift ez _ (ez + 1074)) by lia.
    replace (ez - (ez + 1074)) with (-1074) by lia. f_equal.
    rewrite Z.mul_add_distr_r, <- !Z.mul_assoc, <- !Z.pow_add_r by lia.
    f_equal; f_equal; f_equal; lia.
Qed.

Theorem SFsub_rank x y a b :
  valid_binary x = true -> valid_binary y = true ->
  SFrank x = Some a -> SFrank y = Some b ->
  0 <= b <= a -> a < INF ->
  SFrank (SF64sub x y) = Some (RK (-1074) (a - b)).
Proof.
  intros Vx Vy Hx Hy [Hb Hab] Ha.
  assert (HIpos : 0 < INF) by reflexivity.
  assert (Ha0 : 0 <= a) by lia.
  destruct x as [sx|sx| |sx mx ex], y as [sy|sy| |sy my ey];
    try discriminate Hx; try discriminate Hy;
    first [ apply SFrank_zero_eq in Hx | apply SFrank_infinity_eq in Hx
          | apply SFrank_finite_eq in Hx ];
    first [ apply SFrank_zero_eq in Hy | apply SFrank_infinity_eq in Hy
          | apply SFrank_finite_eq in Hy ];
    subst a b;
    try (assert (Fx := bounded_facts mx ex Vx));
    try (assert (Fy := bounded_facts my ey Vy));
    try (assert (Bx := bounded_rank mx ex Vx));
    try (assert (By := bounded_rank my ey Vy));
    try (assert (sx = false) by (first [apply (nonneg_finite_sign _ _ _ Ha0); lia
                                      | apply (nonneg_infinity_sign _ Ha0)]); subst sx);
    try (assert (sy = false) by (first [apply (nonneg_finite_sign _ _ _ Hb); lia
                                      | apply (nonneg_infinity_sign _ Hb)]); subst sy);
    cbn [cond_Zopp] in *; try lia.
  - destruct sx, sy; reflexivity.
  - rewrite Z.sub_0_r, RK_canonical by assumption. destruct sy; reflexivity.
  - unfold SF64sub, SFsub. cbn [cond_Zopp].
    destruct (aligned mx my ex ey) as [Ax Ay]. cbv zeta in Ax, Ay.
    set (ez := Z.min ex ey) in *.
    rewrite Ax, Ay.
    pose proof (pow2_pos (ez + 1074) ltac:(lia)) as Hp.
    assert (Hv : (Z.pos mx * 2 ^ (ex - ez) - Z.pos my * 2 ^ (ey - ez)) * 2 ^ (ez + 1074)
                 = Z.pos mx * 2 ^ (ex + 1074) - Z.pos my * 2 ^ (ey + 1074)).
    { rewrite Z.mul_sub_distr_r, <- !Z.mul_assoc, <- !Z.pow_add_r by lia.
      f_equal; f_equal; f_equal; lia. }
    rewrite SFrank_binary_normalize by nia. f_equal.
    rewrite <- (RK_shift ez _ (ez + 1074)) by lia.
    replace (ez - (ez + 1074)) with (-1074) by lia. f_equal. exact Hv.
Qed.

Lemma digits_mul (mx my : positive) :
  Z.pos (digits2_pos mx) + Z.pos (digits2_pos my) - 1 <= Z.pos (digits2_pos (mx * my)).
Proof.
  pose proof (digits_bounds mx) as [Lx Ux]. pose proof (digits_bounds my) as [Ly Uy].
  pose proof (digits_bounds (mx * my)) as [L U]. rewrite Pos2Z.inj_mul in *.
  set (dx := Z.pos (digits2_pos mx)) in *. set (dy := Z.pos (digits2_pos my)) in *.
  set (d := Z.pos (digits2_pos (mx * my))) in *.
  destruct (Z.leb_spec (dx + dy - 1) d); [assumption|].
  assert (2 ^ d <= 2 ^ (dx - 1 + (dy - 1))) by (apply Z.pow_le_mono_r; lia).
  rewrite Z.pow_add_r in * by lia.
  pose proof (pow2_pos (dx - 1) ltac:(lia)). pose proof (pow2_pos (dy - 1) ltac:(lia)). nia.
Qed.

Lemma binary_round_aux_round s (m : positive) e :
  e <= fexp prec emax (Z.pos (digits2_pos m) + e) ->
  binary_round_aux prec emax s (Z.pos m) e loc_Exact = binary_round prec emax s m e.
Proof.
  intros H. rewrite binary_round_closed. pose proof (binary_round_aux_closed s m e) as Hc.
  cbv zeta in Hc. rewrite Hc by assumption. f_equal. unfold scaled.
  destruct (Z.leb_spec (fexp prec emax (Z.pos (digits2_pos m) + e)) e) as [L|L]; [|reflexivity].
  replace (fexp prec emax (Z.pos (digits2_pos m) + e) - e) with 0 by lia.
  replace (e - fexp prec emax (Z.pos (digits2_pos m) + e)) with 0 by lia.
  rewrite rne_0. lia.
Qed.

Theorem SFmul_rank x y a b :
  valid_binary x = true -> valid_binary y = true ->
  SFrank x = Some a -> SFrank y = Some b ->
  0 <= a < INF -> 0 <= b < INF ->
  SFrank (SF64mul x y) = Some (RK (-2148) (a * b)).
Proof.
  intros Vx Vy Hx Hy [Ha Ha'] [Hb Hb'].
  destruct x as [sx|sx| |sx mx ex], y as [sy|sy| |sy my ey];
    try discriminate Hx; try discriminate Hy;
    first [ apply SFrank_zero_eq in Hx | apply SFrank_infinity_eq in Hx
          | apply SFrank_finite_eq in Hx ];
    first [ apply SFrank_zero_eq in Hy | apply SFrank_infinity_eq in Hy
          | apply SFrank_finite_eq in Hy ];
    subst a b;
    try (assert (Fx := bounded_facts mx ex Vx));
    try (assert (Fy := bounded_facts my ey Vy));
    try (assert (sx = false) by (first [apply (nonneg_finite_sign _ _ _ Ha); lia
                                      | apply (nonneg_infinity_sign _ Ha)]); subst sx);
    try (assert (sy = false) by (first [apply (nonneg_finite_sign _ _ _ Hb); lia
                                      | apply (nonneg_infinity_sign _ Hb)]); subst sy);
    cbn [cond_Zopp] in *; try lia.
  - reflexivity.
  - rewrite Z.mul_0_l. reflexivity.
  - rewrite Z.mul_0_r. reflexivity.
  - unfold SF64mul, SFmul. cbn [xorb].
    destruct Fx as [Ex [Dx Nx]]. destruct Fy as [Ey [Dy Ny]].
    pose proof (digits_mul mx my) as Hd.
    pose proof (digits_bounds mx) as [Lx _]. pose proof (digits_bounds my) as [Ly _].
    assert (0 < Z.pos (digits2_pos mx)) by lia. assert (0 < Z.pos (digits2_pos my)) by lia.
    rewrite binary_round_aux_round.
    + rewrite SFrank_binary_round. f_equal.
      change (saturate (rounded (mx * my) (ex + ey))) with (RK (ex + ey) (Z.pos (mx * my))).
      rewrite <- (RK_shift (ex + ey) _ (ex + ey + 2148)) by lia.
      replace (ex + ey - (ex + ey + 2148)) with (-2148) by lia. f_equal.
      rewrite Pos2Z.inj_mul.
      replace (ex + ey + 2148) with ((ex + 1074) + (ey + 1074)) by lia.
      rewrite Z.pow_add_r by lia. ring.
    + rewrite fexp64.
      destruct (Z.leb_spec (ex + ey) (-1074)) as [L|L]; [lia|].
      assert (-1074 < ex \/ -1074 < ey) as [N|N] by lia.
      * rewrite (Nx N) in Hd. lia.
      * rewrite (Ny N) in Hd. lia.
Qed.

(** ** Ranks of binary64 floats *)

Lemma rank_zero : rank 0%float = Some 0.
Proof. reflexivity. Qed.

Lemma leb_rank x y a b :
  rank x = Some a -> rank y = Some b -> (x <=? y)%float = (a <=? b).
Proof.
  intros Hx Hy. rewrite leb_spec. unfold SFleb.
  rewrite (SFcompare_rank _ _ a b (Prim2SF_valid x) (Prim2SF_valid y) Hx Hy).
  destruct (Z.compare_spec a b), (Z.leb_spec a b); try reflexivity; lia.
Qed.

Lemma eqb_rank x y a b :
  rank x = Some a -> rank y = Some b -> (x =? y)%float = (a =? b).
Proof.
  intros Hx Hy. rewrite eqb_spec. unfold SFeqb.
  rewrite (SFcompare_rank _ _ a b (Prim2SF_valid x) (Prim2SF_valid y) Hx Hy).
  destruct (Z.compare_spec a b), (Z.eqb_spec a b); try reflexivity; lia.
Qed.

Lemma add_rank x y a b :
  rank x = Some a -> rank y = Some b -> 0 <= a -> 0 <= b ->
  rank (x + y)%float = Some (RK (-1074) (a + b)).
Proof.
  intros Hx Hy Ha Hb. unfold rank. rewrite add_spec.
  apply SFadd_rank; try assumption; apply Prim2SF_valid.
Qed.

Lemma sub_rank x y a b :
  rank x = Some a -> rank y = Some b -> 0 <= b <= a -> a < INF ->
  rank (x - y)%float = Some (RK (-1074) (a - b)).
Proof.
  intros Hx Hy Ha Hb. unfold rank. rewrite sub_spec.
  apply SFsub_rank; try assumption; apply Prim2SF_valid.
Qed.

Lemma mul_rank x y a b :
  rank x = Some a -> rank y = Some b -> 0 <= a < INF -> 0 <= b < INF ->
  rank (x * y)%float = Some (RK (-2148) (a * b)).
Proof.
  intros Hx Hy Ha Hb. unfold rank. rewrite mul_spec.
  apply SFmul_rank; try assumption; apply Prim2SF_valid.
Qed.

(** The rank of a float that is not negative is its own rounding. *)
Lemma RK_rank x a : rank x = Some a -> 0 <= a -> RK (-1074) a = a.
Proof.
  unfold rank. intros H Ha. pose proof (Prim2SF_valid x) as V.
  destruct (Prim2SF x) as [s|s| |s m e]; try discriminate H.
  - apply SFrank_zero_eq in H. subst a. reflexivity.
  - apply SFrank_infinity_eq in H. subst a.
    rewrite (nonneg_infinity_sign _ Ha). cbn [cond_Zopp].
    apply RK_INF; [reflexivity|apply Z.le_refl].
  - apply SFrank_finite_eq in H. subst a.
    destruct (bounded_facts m e V) as [He _].
    rewrite (nonneg_finite_sign _ _ _ Ha) by lia. apply RK_canonical. exact V.
Qed.

Lemma is_finite_rank x :
  is_finite x = true -> exists a, rank x = Some a /\ - INF < a < INF.
Proof.
  unfold is_finite, is_nan, is_infinity, rank.
  rewrite !eqb_spec, abs_spec. pose proof (Prim2SF_valid x) as V.
  assert (HI : OVERFLOW < INF) by reflexivity.
  assert (HI0 : 0 < INF) by reflexivity.
  destruct (Prim2SF x) as [s|s| |s m e].
  - intros _. exists 0. split; [reflexivity|]. lia.
  - simpl. destruct s; discriminate.
  - discriminate.
  - intros _. eexists. split; [reflexivity|].
    pose proof (bounded_rank m e V). destruct s; cbn [cond_Zopp]; lia.
Qed.

Lemma well_formed_ranks b :
  well_formed b = true -> exists mn mx rt, bracket_ranks b mn mx rt.
Proof.
  unfold well_formed. intros H.
  apply andb_prop in H. destruct H as [H Habove].
  apply andb_prop in H. destruct H as [H Hrate].
  apply andb_prop in H. destruct H as [H Hmin].
  apply andb_prop in H. destruct H as [H Hfrate].
  apply andb_prop in H. destruct H as [Hfmin Hfmax].
  destruct (is_finite_rank _ Hfmin) as [mn [Hmn Rmn]].
  destruct (is_finite_rank _ Hfmax) as [mx [Hmx Rmx]].
  destruct (is_finite_rank _ Hfrate) as [rt [Hrt Rrt]].
  rewrite (leb_rank _ _ _ _ rank_zero Hmn) in Hmin. apply Z.leb_le in Hmin.
  rewrite (leb_rank _ _ _ _ rank_zero Hrt) in Hrate. apply Z.leb_le in Hrate.
  rewrite (eqb_rank _ _ _ _ Hmx rank_zero), (leb_rank _ _ _ _ Hmn Hmx) in Habove.
  apply orb_prop in Habove. rewrite Z.eqb_eq, Z.leb_le in Habove.
  exists mn, mx, rt. split; try assumption; lia.
Qed.

Lemma slice_rank_bounds salary b s mn mx rt :
  rank salary = Some s -> s < INF -> bracket_ranks b mn mx rt -> mn < s ->
  0 <= slice_rank s mn mx < INF.
Proof.
  intros Hs Hfin [Hmn Hmx Hrt Rmn Rmx Rrt Hab] Hlt. unfold slice_rank.
  assert (Hself : RK (-1074) s = s) by (apply (RK_rank salary); [assumption|lia]).
  assert (Hup : RK (-1074) (s - mn) <= s).
  { rewrite <- Hself at 2. apply RK_mono. lia. }
  pose proof (RK_bounds (-1074) (s - mn)). pose proof (RK_bounds (-1074) (mx - mn)).
  destruct (Z.eqb_spec mx 0); [lia|].
  destruct (Z.leb_spec s mx); [lia|].
  assert (Hmself : RK (-1074) mx = mx) by (apply (RK_rank (Max b)); [assumption|lia]).
  assert (RK (-1074) (mx - mn) <= mx).
  { rewrite <- Hmself at 2. apply RK_mono. lia. }
  lia.
Qed.

Lemma slice_rank_mono s1 s2 mn mx :
  s1 <= s2 -> slice_rank s1 mn mx <= slice_rank s2 mn mx.
Proof.
  intros H. unfold slice_rank. destruct (Z.eqb_spec mx 0).
  - apply RK_mono. lia.
  - destruct (Z.leb_spec s1 mx), (Z.leb_spec s2 mx); try lia; apply RK_mono; lia.
Qed.

(** One turn of the loop of CalculateTax, on ranks. *)
Lemma loop_step salary s b rest T t mn mx rt :
  rank salary = Some s -> - INF < s < INF ->
  bracket_ranks b mn mx rt ->
  rank T = Some t -> 0 <= t ->
  (s <= mn -> services.CalculateTax_loop salary (b :: rest) T = T)
  /\ (mn < s ->
      exists T',
        services.CalculateTax_loop salary (b :: rest) T
        = services.CalculateTax_loop salary rest T'
        /\ rank T' = Some (step_rank s mn mx rt t)).
Proof.
  intros Hs Rs Hb HT Ht. pose proof Hb as [Hmn Hmx Hrt Rmn Rmx Rrt Hab].
  cbn [services.CalculateTax_loop].
  rewrite (leb_rank _ _ _ _ Hs Hmn). split.
  - intros H. apply Z.leb_le in H. rewrite H. reflexivity.
  - intros H. replace (s <=? mn) with false by (symmetry; apply Z.leb_gt; lia).
    eexists. split; [reflexivity|].
    pose proof (slice_rank_bounds salary b s mn mx rt Hs ltac:(lia) Hb H) as Hsl.
    assert (Hc : rank (if negb (Max b =? 0)%float
                       then if (salary <=? Max b)%float
                            then (salary - Min b)%float else (Max b - Min b)%float
                       else (salary - Min b)%float)
                 = Some (slice_rank s mn mx)).
    { rewrite (eqb_rank _ _ _ _ Hmx rank_zero), (leb_rank _ _ _ _ Hs Hmx).
      unfold slice_rank. destruct (Z.eqb_spec mx 0); cbn [negb].
      - apply sub_rank; try assumption; lia.
      - destruct (Z.leb_spec s mx).
        + apply sub_rank; try assumption; lia.
        + apply sub_rank; try assumption; lia. }
    unfold step_rank. apply add_rank; try assumption.
    + apply mul_rank; assumption.
    + apply RK_bounds.
Qed.

Lemma step_rank_grows T t s mn mx rt :
  rank T = Some t -> 0 <= t -> t <= step_rank s mn mx rt t.
Proof.
  intros HT Ht. unfold step_rank.
  rewrite <- (RK_rank T t HT Ht) at 1. apply RK_mono.
  pose proof (RK_bounds (-2148) (slice_rank s mn mx * rt)). lia.
Qed.

(** The total never decreases along the loop. *)
Lemma loop_grows salary s brackets :
  rank salary = Some s -> - INF < s < INF ->
  forallb well_formed brackets = true ->
  forall T t, rank T = Some t -> 0 <= t ->
    exists r, rank (services.CalculateTax_loop salary brackets T) = Some r /\ t <= r.
Proof.
  intros Hs Rs. induction brackets as [|b rest IH]; intros Hwf T t HT Ht.
  - exists t. split; [assumption|lia].
  - cbn [forallb] in Hwf. apply andb_prop in Hwf. destruct Hwf as [Hb Hrest].
    destruct (well_formed_ranks b Hb) as [mn [mx [rt Hr]]].
    destruct (loop_step salary s b rest T t mn mx rt Hs Rs Hr HT Ht) as [Hstop Hgo].
    destruct (Z.leb_spec s mn) as [L|L].
    + rewrite (Hstop L). exists t. split; [assumption|lia].
    + destruct (Hgo L) as [T' [-> HT']].
      pose proof (step_rank_grows T t s mn mx rt HT Ht) as Hg.
      destruct (IH Hrest T' _ HT' ltac:(lia)) as [r [Hr' Hle]].
      exists r. split; [assumption|lia].
Qed.

Lemma step_rank_mono s1 s2 mn mx rt t1 t2 :
  0 <= rt -> s1 <= s2 -> t1 <= t2 ->
  step_rank s1 mn mx rt t1 <= step_rank s2 mn mx rt t2.
Proof.
  intros Hrt Hs Ht. unfold step_rank. apply RK_mono.
  apply Z.add_le_mono; [assumption|]. apply RK_mono.
  apply Z.mul_le_mono_nonneg_r; [assumption|]. apply slice_rank_mono. assumption.
Qed.

(** The total is monotone in the salary along the loop. *)
Lemma loop_mono salary1 salary2 s1 s2 brackets :
  rank salary1 = Some s1 -> - INF < s1 < INF ->
  rank salary2 = Some s2 -> - INF < s2 < INF ->
  s1 <= s2 ->
  forallb well_formed brackets = true ->
  forall T1 T2 t1 t2,
    rank T1 = Some t1 -> rank T2 = Some t2 -> 0 <= t1 <= t2 ->
    exists r1 r2,
      rank (services.CalculateTax_loop salary1 brackets T1) = Some r1
      /\ rank (services.CalculateTax_loop salary2 brackets T2) = Some r2
      /\ r1 <= r2.
Proof.
  intros Hs1 Rs1 Hs2 Rs2 Hle. induction brackets as [|b rest IH];
    intros Hwf T1 T2 t1 t2 HT1 HT2 Ht.
  - exists t1, t2. repeat split; try assumption; lia.
  - pose proof Hwf as Hwf'.
    cbn [forallb] in Hwf. apply andb_prop in Hwf. destruct Hwf as [Hb Hrest].
    destruct (well_formed_ranks b Hb) as [mn [mx [rt Hr]]].
    destruct (loop_step salary1 s1 b rest T1 t1 mn mx rt Hs1 Rs1 Hr HT1 ltac:(lia))
      as [Hstop1 Hgo1].
    destruct (Z.leb_spec s1 mn) as [L|L].
    + rewrite (Hstop1 L).
      destruct (loop_grows salary2 s2 (b :: rest) Hs2 Rs2 Hwf' T2 t2 HT2 ltac:(lia))
        as [r2 [Hr2 Hg]].
      exists t1, r2. repeat split; try assumption; lia.
    + destruct (loop_step salary2 s2 b rest T2 t2 mn mx rt Hs2 Rs2 Hr HT2 ltac:(lia))
        as [_ Hgo2].
      destruct (Hgo1 L) as [T1' [-> HT1']].
      destruct (Hgo2 ltac:(lia)) as [T2' [-> HT2']].
      apply (IH Hrest T1' T2' _ _ HT1' HT2'). split.
      * pose proof (step_rank_grows T1 t1 s1 mn mx rt HT1 ltac:(lia)). lia.
      * apply step_rank_mono; try lia. destruct Hr. lia.
Qed.

End Rounding.

(** ** Non-negativity and monotonicity of the tax *)

(** C10 (amended): for every finite salary and every bracket list in which
    each bracket has finite bounds and rate, min >= 0, rate >= 0 and either
    max = 0 (unbounded) or max >= min, the tax CalculateTax returns is
    >= 0. *)
Theorem CalculateTax_nonneg salary brackets :
  is_finite salary = true ->
  forallb well_formed brackets = true ->
  (0 <=? fst (services.CalculateTax salary brackets))%float = true.
Proof.
  intros Hf Hwf. destruct (is_finite_rank salary Hf) as [s [Hs Rs]].
  destruct (loop_grows salary s brackets Hs Rs Hwf 0%float 0%Z rank_zero (Z.le_refl 0))
    as [r [Hr Hle]].
  unfold services.CalculateTax. cbn [fst].
  rewrite (leb_rank _ _ _ _ rank_zero Hr). apply Z.leb_le. exact Hle.
Qed.

Lemma CalculateTax_nonneg_witness :
  (0 <=? fst (services.CalculateTax 80000 samples.three_brackets))%float = true.
Proof.
  apply CalculateTax_nonneg; vm_compute; reflexivity.
Defined.

(** C10, as stated, fails.  The bracket lists below have rate >= 0 and
    max = 0, yet the tax is a NaN, which is not >= 0: for the salary NaN
    (which strconv.ParseFloat accepts); for an infinite salary at the rate
    zero; and for the largest finite salary at the rate zero when the
    minimum is the lowest finite float, where the taxable amount
    overflows. *)
Lemma CalculateTax_tax_not_a_number :
  (0 <=? fst (services.CalculateTax nan samples.flat_bracket))%float = false
  /\ (0 <=? fst (services.CalculateTax infinity samples.free_bracket))%float = false
  /\ (0 <=? fst (services.CalculateTax samples.max_float samples.deep_free_bracket))%float
     = false.
Proof. repeat split; vm_compute; reflexivity. Qed.

Lemma CalculateTax_tax_monotone salary1 salary2 brackets :
  is_finite salary1 = true -> is_finite salary2 = true ->
  forallb well_formed brackets = true ->
  (salary1 <=? salary2)%float = true ->
  (fst (services.CalculateTax salary1 brackets)
   <=? fst (services.CalculateTax salary2 brackets))%float = true.
Proof.
  intros Hf1 Hf2 Hwf Hle.
  destruct (is_finite_rank salary1 Hf1) as [s1 [Hs1 Rs1]].
  destruct (is_finite_rank salary2 Hf2) as [s2 [Hs2 Rs2]].
  rewrite (leb_rank _ _ _ _ Hs1 Hs2) in Hle. apply Z.leb_le in Hle.
  destruct (loop_mono salary1 salary2 s1 s2 brackets Hs1 Rs1 Hs2 Rs2 Hle Hwf
              0%float 0%float 0%Z 0%Z rank_zero rank_zero
              (conj (Z.le_refl 0) (Z.le_refl 0)))
    as [r1 [r2 [Hr1 [Hr2 H]]]].
  unfold services.CalculateTax. cbn [fst].
  rewrite (leb_rank _ _ _ _ Hr1 Hr2). apply Z.leb_le. exact H.
Qed.

(** C7 (amended): CalculateTax returns identical outputs for identical
    inputs; and for every bracket list in which each bracket has finite
    bounds and rate, min >= 0, rate >= 0 and either max = 0 or max >= min,
    the tax is monotonically non-decreasing in the salary over the finite
    salaries. *)
Theorem CalculateTax_deterministic_monotone :
  (forall salary salary' brackets brackets',
      salary = salary' -> brackets = brackets' ->
      services.CalculateTax salary brackets = services.CalculateTax salary' brackets')
  /\ (forall salary1 salary2 brackets,
         is_finite salary1 = true -> is_finite salary2 = true ->
         forallb well_formed brackets = true ->
         (salary1 <=? salary2)%float = true ->
         (fst (services.CalculateTax salary1 brackets)
          <=? fst (services.CalculateTax salary2 brackets))%float = true).
Proof.
  split.
  - intros salary salary' brackets brackets' -> ->. reflexivity.
  - apply CalculateTax_tax_monotone.
Qed.

Lemma CalculateTax_deterministic_monotone_witness :
  (fst (services.CalculateTax 45000 samples.three_brackets)
   <=? fst (services.CalculateTax 80000 samples.three_brackets))%float = true.
Proof.
  apply (proj2 CalculateTax_deterministic_monotone); vm_compute; reflexivity.
Defined.

(** C7, as stated, fails: with a bracket whose maximum (50) is below its
    minimum (100), the salary 60 owes 0 and the higher salary 150 owes
    -25.  The tax also fails to be non-decreasing with a negative rate;
    from a finite salary to the infinite one at the rate zero; and up to the
    largest finite salary at the rate zero when the minimum is the lowest
    finite float, the last two taxes being NaN. *)
Lemma CalculateTax_inverted_bracket_decreases :
  ((60 <=? 150)%float = true
   /\ fst (services.CalculateTax 60 samples.inverted_bracket) = 0%float
   /\ fst (services.CalculateTax 150 samples.inverted_bracket) = (-25)%float
   /\ (fst (services.CalculateTax 60 samples.inverted_bracket)
       <=? fst (services.CalculateTax 150 samples.inverted_bracket))%float = false)
  /\ ((10 <=? 20)%float = true
      /\ (fst (services.CalculateTax 10 samples.negative_rate_bracket)
          <=? fst (services.CalculateTax 20 samples.negative_rate_bracket))%float = false)
  /\ ((1 <=? infinity)%float = true
      /\ (fst (services.CalculateTax 1 samples.free_bracket)
          <=? fst (services.CalculateTax infinity samples.free_bracket))%float = false)
  /\ ((0 <=? samples.max_float)%float = true
      /\ (fst (services.CalculateTax 0 samples.deep_free_bracket)
          <=? fst (services.CalculateTax samples.max_float samples.deep_free_bracket))%float
         = false).
Proof. repeat split; vm_compute; reflexivity. Qed.

(** * The calculator on salaries it is not meant for *)

Section CalculatorFacts.
Local Open Scope float_scope.

Lemma CalculateTax_loop_break salary b l2 : forall l1 t,
  (salary <=? Min b) = true ->
  services.CalculateTax_loop salary (l1 ++ b :: l2) t
  = services.CalculateTax_loop salary l1 t.
Proof.
  induction l1 as [|a l1 IH]; intros t H.
  - cbn [app services.CalculateTax_loop]. rewrite H. reflexivity.
  - cbn [app services.CalculateTax_loop].
    destruct (salary <=? Min a); [reflexivity|]. apply IH, H.
Qed.

(** X1: CalculateTax stops at the first bracket whose minimum is not below
    the salary: that bracket and every bracket after it, whatever they hold,
    leave the tax and the effective rate as the brackets before it made
    them. *)
Theorem CalculateTax_stops_at_break salary b l1 l2 :
  (salary <=? Min b) = true ->
  services.CalculateTax salary (l1 ++ b :: l2) = services.CalculateTax salary l1.
Proof.
  intros H. unfold services.CalculateTax.
  rewrite CalculateTax_loop_break by exact H. reflexivity.
Qed.






End CalculatorFacts.

Lemma CalculateTax_stops_at_break_witness :
  services.CalculateTax 45000
    ([mkTaxBracket 0 30000 0.1; mkTaxBracket 30000 70000 0.2]
     ++ mkTaxBracket 70000 0 0.3 :: samples.inverted_bracket)%float
  = services.CalculateTax 45000
      [mkTaxBracket 0 30000 0.1; mkTaxBracket 30000 70000 0.2]%float.
Proof.
  apply CalculateTax_stops_at_break. reflexivity.
Defined.


(** * The service: errors, rejections and collectors *)

Section ServiceFacts.
Import services.
Local Open Scope string_scope.
Variable Net : Type.
Variable now : Net -> Z.
Variable exchange : string -> Net -> http.Exchange * Net.
Variable unmarshalErrors : string -> error + list TaxCalcError.
Variable unmarshalResponse : string -> error + TaxCalculatorResponse.

Local Abbreviation doFetchTaxData :=
  (doFetchTaxData Net exchange unmarshalErrors unmarshalResponse).
Local Abbreviation FetchTaxData :=
  (FetchTaxData Net now exchange unmarshalErrors unmarshalResponse).

Lemma doFetchTaxData_collectors url w :
  collectors Net (snd (doFetchTaxData url w)) = collectors Net w.
Proof.
  unfold services.doFetchTaxData.
  destruct (exchange url (net Net w)) as [[e|e|resp] n]; reflexivity.
Qed.

Ltac fetch_done C :=
  do 3 eexists; (split; [reflexivity|]); cbn; rewrite ?C;
  unfold counters; cbn;
  (split; [reflexivity|]);
  (split; [first [left; reflexivity | right; split; reflexivity]|]);
  first [ left; eexists; split; [reflexivity|]; split; [|reflexivity];
          first [left; reflexivity | right; reflexivity]
        | right; left; eexists (Errorf _); split; reflexivity
        | right; left; eexists (Foreign _); split; reflexivity
        | right; right; eexists; split; [reflexivity|];
          split; [assumption|reflexivity] ].

Lemma FetchTaxData_enabled tc breaker cbConfig url w :
  cbEnabled Net tc = true ->
  cb Net tc = Some breaker ->
  gobreaker.settings breaker = cbSettings Net cbConfig ->
  exists out breaker' w',
    FetchTaxData tc url w
    = (Returns out, mkTaxCalculator Net (Some breaker') (environment Net tc) true, w')
    /\ gobreaker.settings breaker' = cbSettings Net cbConfig
    /\ (metrics.CircuitBreakerState (collectors Net w')
        = stateValue (gobreaker.state breaker')
        \/ (gobreaker.state breaker' = gobreaker.state breaker
            /\ metrics.CircuitBreakerState (collectors Net w')
               = metrics.CircuitBreakerState (collectors Net w)))
    /\ let '(R, T, F, E) := counters (collectors Net w) in
       ((exists m, out = (None, Some (Errorf m))
                   /\ (m = circuitOpenMessage \/ m = tooManyRequestsMessage)
                   /\ counters (collectors Net w') = (R + 1, T, F, E)%Z)
        \/ (exists e, out = (None, Some (Errorf ("tax calculator service error: " ++ Error e)))
                      /\ counters (collectors Net w') = (R, T, F + 1, E + 1)%Z)
        \/ (exists r, out = (Some r, None) /\ TaxBrackets r <> []
                      /\ counters (collectors Net w') = (R, T + 1, F, E)%Z)).
Proof.
  intros He Hc Hs. unfold services.FetchTaxData. rewrite He, Hc.
  destruct breaker as [st state cnt opened tr]. cbn [gobreaker.settings] in Hs. subst st.
  unfold gobreaker.Execute, gobreaker.beforeRequest.
  cbn [gobreaker.state gobreaker.settings gobreaker.counts gobreaker.openedAt gobreaker.trials].
  destruct state.
  - (* Closed *)
    cbn [gobreaker.notify fold_left].
    pose proof (doFetchTaxData_exactly_one Net exchange unmarshalErrors
                  unmarshalResponse url w) as X.
    pose proof (doFetchTaxData_collectors url w) as C.
    destruct (doFetchTaxData url w) as [[resp err] w2]. cbn [fst snd] in X, C.
    unfold gobreaker.afterRequest.
    cbn [gobreaker.state gobreaker.settings gobreaker.counts gobreaker.openedAt
         gobreaker.trials].
    destruct X as [[r [X Hr]]|[e X]]; inversion X; subst; clear X.
    + fetch_done C.
    + cbn [gobreaker.ReadyToTrip cbSettings].
      destruct (ReadyToTrip cbConfig _); cbn [gobreaker.setState];
        destruct e; fetch_done C.
  - (* Half-Open *)
    cbn [gobreaker.MaxRequests cbSettings].
    destruct (uint32 (MaxHalfOpenReqs cbConfig) <=? tr)%Z.
    + cbn [gobreaker.notify fold_left]. fetch_done I.
    + cbn [gobreaker.notify fold_left].
      pose proof (doFetchTaxData_exactly_one Net exchange unmarshalErrors
                    unmarshalResponse url w) as X.
      pose proof (doFetchTaxData_collectors url w) as C.
      destruct (doFetchTaxData url w) as [[resp err] w2]. cbn [fst snd] in X, C.
      unfold gobreaker.afterRequest.
      cbn [gobreaker.state gobreaker.settings gobreaker.counts gobreaker.openedAt
           gobreaker.trials].
      destruct X as [[r [X Hr]]|[e X]]; inversion X; subst; clear X.
      * cbn [gobreaker.MaxRequests cbSettings].
        destruct (uint32 (MaxHalfOpenReqs cbConfig) <=? _)%Z;
          cbn [gobreaker.setState]; fetch_done C.
      * cbn [gobreaker.setState]. destruct e; fetch_done C.
  - (* Open *)
    cbn [gobreaker.Timeout cbSettings].
    destruct (Timeout cbConfig <=? clock Net now w - opened)%Z.
    + cbn [gobreaker.setState gobreaker.notify fold_left gobreaker.settings
           gobreaker.state gobreaker.counts gobreaker.openedAt fst snd
           gobreaker.OnStateChange cbSettings].
      set (w1 := record Net _ w).
      pose proof (doFetchTaxData_exactly_one Net exchange unmarshalErrors
                    unmarshalResponse url w1) as X.
      pose proof (doFetchTaxData_collectors url w1) as C.
      destruct (doFetchTaxData url w1) as [[resp err] w2]. cbn [fst snd] in X, C.
      unfold gobreaker.afterRequest.
      cbn [gobreaker.state gobreaker.settings gobreaker.counts gobreaker.openedAt
           gobreaker.trials].
      destruct X as [[r [X Hr]]|[e X]]; inversion X; subst; clear X.
      * cbn [gobreaker.MaxRequests cbSettings].
        destruct (uint32 (MaxHalfOpenReqs cbConfig) <=? _)%Z;
          cbn [gobreaker.setState]; fetch_done C.
      * cbn [gobreaker.setState]. destruct e; fetch_done C.
    + cbn [gobreaker.notify fold_left]. fetch_done I.
Qed.

Lemma FetchTaxData_disabled tc url w :
  cbEnabled Net tc = false \/ cb Net tc = None ->
  exists out w',
    FetchTaxData tc url w = (Returns out, tc, w')
    /\ metrics.CircuitBreakerState (collectors Net w')
       = metrics.CircuitBreakerState (collectors Net w)
    /\ let '(R, T, F, E) := counters (collectors Net w) in
       ((exists e, fst (doFetchTaxData url w) = (None, Some e)
                   /\ out = (None, Some (Errorf ("tax calculator service error: " ++ Error e)))
                   /\ counters (collectors Net w') = (R, T, F, E + 1)%Z)
        \/ (exists r, out = (Some r, None) /\ TaxBrackets r <> []
                      /\ counters (collectors Net w') = (R, T, F, E))).
Proof.
  intros Hd.
  assert (E : FetchTaxData tc url w
              = let '((response, err), w1) := doFetchTaxData url w in
                match err with
                | Some err =>
                    (Returns (None, Some (Errorf ("tax calculator service error: " ++ Error err))),
                     tc, record Net metrics.IncTaxServiceErrors w1)
                | None => (Returns (response, None), tc, w1)
                end).
  { unfold services.FetchTaxData.
    destruct Hd as [-> | ->]; [reflexivity|]. destruct (cbEnabled Net tc); reflexivity. }
  rewrite E. clear E.
  pose proof (doFetchTaxData_exactly_one Net exchange unmarshalErrors
                unmarshalResponse url w) as X.
  pose proof (doFetchTaxData_collectors url w) as C.
  destruct (doFetchTaxData url w) as [[resp err] w2]. cbn [fst snd] in X, C.
  destruct X as [[r [X Hr]]|[e X]]; inversion X; subst; clear X.
  - do 2 eexists. split; [reflexivity|]. rewrite C. split; [reflexivity|].
    unfold counters. right. exists r. repeat split. exact Hr.
  - do 2 eexists. split; [reflexivity|]. cbn. rewrite C. split; [reflexivity|].
    unfold counters. cbn. left. exists e. repeat split.
Qed.

Lemma FetchTaxData_cases tc url w :
  configured tc ->
  exists out tc' w',
    FetchTaxData tc url w = (Returns out, tc', w')
    /\ configured tc'
    /\ let '(R, T, F, E) := counters (collectors Net w) in
       ((exists m, out = (None, Some (Errorf m))
                   /\ (m = circuitOpenMessage \/ m = tooManyRequestsMessage)
                   /\ counters (collectors Net w') = (R + 1, T, F, E)%Z)
        \/ (exists e, out = (None, Some (Errorf ("tax calculator service error: " ++ Error e)))
                      /\ (counters (collectors Net w') = (R, T, F + 1, E + 1)%Z
                          \/ counters (collectors Net w') = (R, T, F, E + 1)%Z))
        \/ (exists r, out = (Some r, None) /\ TaxBrackets r <> []
                      /\ (counters (collectors Net w') = (R, T + 1, F, E)%Z
                          \/ counters (collectors Net w') = (R, T, F, E)))).
Proof.
  intros Hc.
  destruct (cbEnabled Net tc) eqn:He; [destruct (cb Net tc) as [breaker|] eqn:Hb|].
  - destruct (Hc breaker Hb) as [cbConfig Hs].
    destruct (FetchTaxData_enabled tc breaker cbConfig url w He Hb Hs)
      as (out & breaker' & w' & E & Hs' & _ & H).
    exists out, (mkTaxCalculator Net (Some breaker') (environment Net tc) true), w'.
    split; [exact E|]. split.
    { intros b Eb. cbn in Eb. injection Eb as <-. eauto. }
    destruct (counters (collectors Net w)) as [[[R T] F] E0].
    destruct H as [H|[(e & H1 & H2)|(r & H1 & H2 & H3)]]; [left; exact H| |].
    + right. left. exists e. auto.
    + right. right. exists r. auto.
  - destruct (FetchTaxData_disabled tc url w (or_intror Hb)) as (out & w' & E & _ & H).
    exists out, tc, w'. split; [exact E|]. split; [exact Hc|].
    destruct (counters (collectors Net w)) as [[[R T] F] E0].
    destruct H as [(e & _ & H1 & H2)|(r & H1 & H2 & H3)].
    + right. left. exists e. auto.
    + right. right. exists r. auto.
  - destruct (FetchTaxData_disabled tc url w (or_introl He)) as (out & w' & E & _ & H).
    exists out, tc, w'. split; [exact E|]. split; [exact Hc|].
    destruct (counters (collectors Net w)) as [[[R T] F] E0].
    destruct H as [(e & _ & H1 & H2)|(r & H1 & H2 & H3)].
    + right. left. exists e. auto.
    + right. right. exists r. auto.
Qed.

(** X8: the state gauge shows the state of the breaker.  A calculator made
    by NewTaxCalculatorWithFullConfig starts with the gauge on its breaker's
    state, and FetchTaxData keeps it there, whatever the call does to the
    breaker. *)
Theorem FetchTaxData_gauge_tracks_state :
  (forall env enabled cbConfig w,
      configured (fst (NewTaxCalculatorWithFullConfig Net env enabled cbConfig w))
      /\ gauge_tracks (fst (NewTaxCalculatorWithFullConfig Net env enabled cbConfig w))
                      (snd (NewTaxCalculatorWithFullConfig Net env enabled cbConfig w)))
  /\ (forall tc url w,
         configured tc -> gauge_tracks tc w ->
         configured (snd (fst (FetchTaxData tc url w)))
         /\ gauge_tracks (snd (fst (FetchTaxData tc url w)))
                         (snd (FetchTaxData tc url w))).
Proof.
  split.
  - intros env enabled cbConfig w. unfold NewTaxCalculatorWithFullConfig.
    destruct enabled; cbn [fst snd]; split.
    + intros b Eb. cbn in Eb. injection Eb as <-. exists cbConfig. reflexivity.
    + intros b _ Eb. cbn in Eb. injection Eb as <-. reflexivity.
    + intros b Eb. discriminate Eb.
    + intros b Eb. discriminate Eb.
  - intros tc url w Hc Hg.
    destruct (cbEnabled Net tc) eqn:He; [destruct (cb Net tc) as [breaker|] eqn:Hb|].
    + destruct (Hc breaker Hb) as [cbConfig Hs].
      destruct (FetchTaxData_enabled tc breaker cbConfig url w He Hb Hs)
        as (out & breaker' & w' & E & Hs' & G & _).
      rewrite E. cbn [fst snd]. split.
      * intros b Eb. cbn in Eb. injection Eb as <-. eauto.
      * intros b _ Eb. cbn in Eb. injection Eb as <-.
        destruct G as [G|[G1 G2]]; [exact G|].
        rewrite G1, G2. apply Hg; assumption.
    + destruct (FetchTaxData_disabled tc url w (or_intror Hb)) as (out & w' & E & _).
      rewrite E. cbn [fst snd]. split; [exact Hc|].
      intros b _ Eb. congruence.
    + destruct (FetchTaxData_disabled tc url w (or_introl He)) as (out & w' & E & _).
      rewrite E. cbn [fst snd]. split; [exact Hc|].
      intros b Eb. congruence.
Qed.

(** X7: every call through the breaker is counted once.  For a calculator
    with its breaker enabled, a call to FetchTaxData adds one to exactly one
    of the rejected calls, the successful requests and the failed requests;
    the errors of the tax service grow with the failed requests and with
    nothing else; and the successful requests grow exactly when the call
    returns a response. *)
Theorem FetchTaxData_counts_each_call_once tc url w out tc' w' :
  configured tc ->
  cbEnabled Net tc = true ->
  cb Net tc <> None ->
  FetchTaxData tc url w = (out, tc', w') ->
  let m := collectors Net w in
  let m' := collectors Net w' in
  ((metrics.CircuitBreakerRejected m' = metrics.CircuitBreakerRejected m + 1
    /\ metrics.CircuitBreakerRequestsTrue m' = metrics.CircuitBreakerRequestsTrue m
    /\ metrics.CircuitBreakerRequestsFalse m' = metrics.CircuitBreakerRequestsFalse m)
   \/ (metrics.CircuitBreakerRejected m' = metrics.CircuitBreakerRejected m
       /\ metrics.CircuitBreakerRequestsTrue m' = metrics.CircuitBreakerRequestsTrue m + 1
       /\ metrics.CircuitBreakerRequestsFalse m' = metrics.CircuitBreakerRequestsFalse m)
   \/ (metrics.CircuitBreakerRejected m' = metrics.CircuitBreakerRejected m
       /\ metrics.CircuitBreakerRequestsTrue m' = metrics.CircuitBreakerRequestsTrue m
       /\ metrics.CircuitBreakerRequestsFalse m' = metrics.CircuitBreakerRequestsFalse m + 1))%Z
  /\ (metrics.TaxServiceErrors m' - metrics.TaxServiceErrors m
      = metrics.CircuitBreakerRequestsFalse m' - metrics.CircuitBreakerRequestsFalse m)%Z
  /\ ((metrics.CircuitBreakerRequestsTrue m' = metrics.CircuitBreakerRequestsTrue m + 1)%Z
      <-> exists r, out = Returns (Some r, None)).
Proof.
  intros Hc He Hb E. destruct (cb Net tc) as [breaker|] eqn:Hb'; [clear Hb|congruence].
  destruct (Hc breaker Hb') as [cbConfig Hs].
  destruct (FetchTaxData_enabled tc breaker cbConfig url w He Hb' Hs)
    as (out0 & breaker' & w0 & E0 & _ & _ & H).
  rewrite E in E0. injection E0 as -> -> ->.
  cbv zeta. unfold counters in H.
  destruct H as [(m & H1 & _ & H2)|[(e & H1 & H2)|(r & H1 & _ & H2)]];
    injection H2 as R T F X; rewrite H1.
  - split; [left; lia|]. split; [lia|].
    split; [lia|intros [r Hr]; discriminate Hr].
  - split; [right; right; lia|]. split; [lia|].
    split; [lia|intros [r Hr]; discriminate Hr].
  - split; [right; left; lia|]. split; [lia|].
    split; [eauto|lia].
Qed.

(** X6: a call the breaker rejects, open before its timeout or half-open
    with its trials taken, never reaches the network: FetchTaxData returns
    one of the two messages of an unavailable service, leaves the
    calculator and the network as they were, and adds one to the rejected
    calls and to nothing else.  (The breaker is the model of section 4.1 of
    the specification.) *)
Theorem FetchTaxData_rejected_without_fetch tc breaker url w :
  cbEnabled Net tc = true ->
  cb Net tc = Some breaker ->
  (gobreaker.state breaker = gobreaker.StateOpen
   /\ (now (net Net w) - gobreaker.openedAt breaker
       < gobreaker.Timeout (gobreaker.settings breaker))%Z)
  \/ (gobreaker.state breaker = gobreaker.StateHalfOpen
      /\ (gobreaker.MaxRequests (gobreaker.settings breaker)
          <= gobreaker.trials breaker)%Z) ->
  exists message,
    FetchTaxData tc url w
    = (Returns (None, Some (Errorf message)), tc,
       mkWorld Net (net Net w) (metrics.IncCircuitBreakerRejected (collectors Net w)))
    /\ (message = circuitOpenMessage \/ message = tooManyRequestsMessage).
Proof.
  intros He Hb H. unfold services.FetchTaxData. rewrite He, Hb.
  unfold gobreaker.Execute, gobreaker.beforeRequest.
  destruct tc as [c env en]. cbn in He, Hb. subst.
  destruct H as [[Hs Ht]|[Hs Ht]]; rewrite Hs.
  - unfold clock. destruct (Z.leb_spec (gobreaker.Timeout (gobreaker.settings breaker))
                              (now (net Net w) - gobreaker.openedAt breaker)); [lia|].
    eexists. split; [reflexivity|left; reflexivity].
  - destruct (Z.leb_spec (gobreaker.MaxRequests (gobreaker.settings breaker))
                (gobreaker.trials breaker)); [|lia].
    eexists. split; [reflexivity|right; reflexivity].
Qed.

(** X9: with the breaker disabled FetchTaxData is the fetch with its error
    wrapped: the calculator is left as it was, the network is what the
    fetch left, the gauge and the three counters of the breaker stay, an
    error of the fetch is returned behind the prefix of the service, and a
    response is returned as it is. *)
Theorem FetchTaxData_disabled_leaves_breaker tc url w :
  cbEnabled Net tc = false ->
  snd (fst (FetchTaxData tc url w)) = tc
  /\ net Net (snd (FetchTaxData tc url w)) = net Net (snd (doFetchTaxData url w))
  /\ (let m := collectors Net w in
      let m' := collectors Net (snd (FetchTaxData tc url w)) in
      metrics.CircuitBreakerState m' = metrics.CircuitBreakerState m
      /\ metrics.CircuitBreakerRejected m' = metrics.CircuitBreakerRejected m
      /\ metrics.CircuitBreakerRequestsTrue m' = metrics.CircuitBreakerRequestsTrue m
      /\ metrics.CircuitBreakerRequestsFalse m' = metrics.CircuitBreakerRequestsFalse m)
  /\ (forall e, fst (doFetchTaxData url w) = (None, Some e) ->
        fst (fst (FetchTaxData tc url w))
        = Returns (None, Some (Errorf ("tax calculator service error: " ++ Error e))))
  /\ (forall r, fst (doFetchTaxData url w) = (Some r, None) ->
        fst (fst (FetchTaxData tc url w)) = Returns (Some r, None)).
Proof.
  intros He. unfold services.FetchTaxData. rewrite He.
  pose proof (doFetchTaxData_collectors url w) as C.
  destruct (doFetchTaxData url w) as [[resp err] w2]. cbn [fst snd] in *.
  destruct err as [e|]; cbn; rewrite ?C; repeat split; try reflexivity;
    intros x Hx; inversion Hx; subst; reflexivity.
Qed.

(** X3: the request threshold of the configuration is read as a uint32:
    a negative threshold -n (down to -2^32) counts as 2^32 - n, and
    ReadyToTrip stays false until that many requests are counted. *)
Theorem ReadyToTrip_negative_threshold (cbConfig : CircuitBreakerConfig)
        (counts : gobreaker.Counts) :
  (- 2 ^ 32 <= RequestThreshold cbConfig < 0)%Z ->
  (gobreaker.Requests counts < 2 ^ 32 + RequestThreshold cbConfig)%Z ->
  ReadyToTrip cbConfig counts = false.
Proof.
  intros Ht Hr. unfold services.ReadyToTrip.
  assert (U : uint32 (RequestThreshold cbConfig)
              = (2 ^ 32 + RequestThreshold cbConfig)%Z).
  { unfold uint32. symmetry.
    apply (Z.mod_unique _ _ (-1)); lia. }
  rewrite U.
  destruct (Z.leb_spec (2 ^ 32 + RequestThreshold cbConfig)
              (gobreaker.Requests counts)); [lia|reflexivity].
Qed.

(** X4: a response FetchTaxData returns, through the breaker or without
    it, has at least one bracket. *)
Theorem FetchTaxData_returns_brackets tc url w response :
  fst (fst (FetchTaxData tc url w)) = Returns (Some response, None) ->
  TaxBrackets response <> [].
Proof.
  unfold services.FetchTaxData.
  assert (D : forall w1 resp,
             fst (doFetchTaxData url w1) = (resp, None) ->
             resp = Some response -> TaxBrackets response <> []).
  { intros w1 resp H ->.
    destruct (doFetchTaxData_exactly_one Net exchange unmarshalErrors
                unmarshalResponse url w1) as [[r [X Hr]]|[e X]]; congruence. }
  destruct (cbEnabled Net tc), (cb Net tc) as [breaker|];
    try (pose proof (D w) as D'; destruct (doFetchTaxData url w) as [[resp [e|]] w2];
         cbn; [discriminate|intros H; injection H as ->; apply (D' _ eq_refl eq_refl)]).
  destruct (Execute_cases _ _ (clock Net now) (doFetchTaxData url) breaker w)
    as [[err [b' [w' ->]]]|[w1 [b' [w' ->]]]].
  - destruct err; cbn; discriminate.
  - pose proof (D w1) as D'.
    destruct (doFetchTaxData url w1) as [[resp [e|]] w2]; cbn [fst snd].
    + destruct e; cbn; discriminate.
    + cbn. intros H. injection H as ->. apply (D' _ eq_refl eq_refl).
Qed.

(** X5: FetchTaxData puts its own prefix before the error of the fetch.
    For a response with a status other than 200 the message of
    doFetchTaxData starts with "tax calculator service ", so the message
    FetchTaxData returns, without the breaker or through a closed one,
    starts with "tax calculator service error: tax calculator service ". *)
Theorem FetchTaxData_wraps_the_error tc url w e :
  cbEnabled Net tc = false
  \/ (exists breaker, cb Net tc = Some breaker
                      /\ gobreaker.state breaker = gobreaker.StateClosed) ->
  fst (doFetchTaxData url w) = (None, Some e) ->
  HTTPStatusError e ->
  exists detail,
    Error e = "tax calculator service " ++ detail
    /\ fst (fst (FetchTaxData tc url w))
       = Returns (None, Some (Errorf ("tax calculator service error: tax calculator service "
                                      ++ detail))).
Proof.
  intros Hm Hf Hk.
  assert (K : exists detail, e = Errorf ("tax calculator service " ++ detail)).
  { destruct Hk as [[errs ->]|[[status [b ->]]|[status ->]]]; eexists; reflexivity. }
  destruct K as [detail ->]. exists detail. split; [reflexivity|].
  unfold services.FetchTaxData.
  destruct Hm as [He|[breaker [Hb Hs]]].
  - rewrite He. destruct (doFetchTaxData url w) as [[resp err] w2]. cbn in Hf.
    injection Hf as -> ->. reflexivity.
  - destruct (cbEnabled Net tc).
    + rewrite Hb. unfold gobreaker.Execute, gobreaker.beforeRequest. rewrite Hs.
      cbn [gobreaker.notify fold_left].
      destruct (doFetchTaxData url w) as [[resp err] w2]. cbn in Hf.
      injection Hf as -> ->.
      destruct (gobreaker.afterRequest _ _ _) as [cb2 notes2]. reflexivity.
    + destruct (cb Net tc); destruct (doFetchTaxData url w) as [[resp err] w2];
        cbn in Hf; injection Hf as -> ->; reflexivity.
Qed.

End ServiceFacts.

Lemma ReadyToTrip_negative_threshold_witness :
  services.ReadyToTrip (mkCircuitBreakerConfig (-1) 0.5 60 100)
    (gobreaker.mkCounts 1000 0 1000)
  = false.
Proof.
  apply ReadyToTrip_negative_threshold; cbn; lia.
Defined.

Lemma FetchTaxData_returns_brackets_witness :
  fst (fst (fixtures.FetchTaxData fixtures.answered fixtures.calculator sample_world))
  = Returns (Some (mkTaxCalculatorResponse samples.handler_brackets), None)
  /\ TaxBrackets (mkTaxCalculatorResponse samples.handler_brackets) <> [].
Proof.
  split; [reflexivity|].
  apply (FetchTaxData_returns_brackets Z samples.now
           (samples.exchange fixtures.answered) samples.unmarshalErrors
           fixtures.unmarshalResponse fixtures.calculator fixtures.url sample_world).
  reflexivity.
Defined.

Lemma FetchTaxData_wraps_the_error_witness :
  exists detail,
    Error (services.structuredError [mkTaxCalcError "E1" "" "down"])
    = ("tax calculator service " ++ detail)%string
    /\ fst (fst (fixtures.FetchTaxData fixtures.unavailable
                   fixtures.disabled_calculator sample_world))
       = Returns (None,
                  Some (Errorf ("tax calculator service error: tax calculator service "
                                ++ detail))).
Proof.
  apply (FetchTaxData_wraps_the_error Z samples.now
           (samples.exchange fixtures.unavailable) samples.unmarshalErrors
           fixtures.unmarshalResponse fixtures.disabled_calculator fixtures.url
           sample_world).
  - left. reflexivity.
  - reflexivity.
  - left. eexists. reflexivity.
Defined.

Lemma FetchTaxData_rejected_without_fetch_witness :
  exists message,
    fixtures.FetchTaxData fixtures.answered fixtures.open_calculator sample_world
    = (Returns (None, Some (Errorf message)), fixtures.open_calculator,
       services.mkWorld Z (services.net Z sample_world)
         (metrics.IncCircuitBreakerRejected (services.collectors Z sample_world)))
    /\ (message = circuitOpenMessage \/ message = tooManyRequestsMessage).
Proof.
  refine (FetchTaxData_rejected_without_fetch Z samples.now
            (samples.exchange fixtures.answered) samples.unmarshalErrors
            fixtures.unmarshalResponse fixtures.open_calculator _ fixtures.url
            sample_world eq_refl eq_refl _).
  left. split; reflexivity.
Defined.

Lemma FetchTaxData_counts_each_call_once_witness :
  (metrics.TaxServiceErrors
     (services.collectors Z
        (snd (fixtures.FetchTaxData fixtures.refused fixtures.calculator sample_world)))
   - metrics.TaxServiceErrors (services.collectors Z sample_world)
   = metrics.CircuitBreakerRequestsFalse
       (services.collectors Z
          (snd (fixtures.FetchTaxData fixtures.refused fixtures.calculator sample_world)))
     - metrics.CircuitBreakerRequestsFalse (services.collectors Z sample_world))%Z.
Proof.
  refine (proj1 (proj2 (FetchTaxData_counts_each_call_once Z samples.now
            (samples.exchange fixtures.refused) samples.unmarshalErrors
            fixtures.unmarshalResponse fixtures.calculator fixtures.url sample_world
            (fst (fst (fixtures.FetchTaxData fixtures.refused fixtures.calculator sample_world)))
            (snd (fst (fixtures.FetchTaxData fixtures.refused fixtures.calculator sample_world)))
            (snd (fixtures.FetchTaxData fixtures.refused fixtures.calculator sample_world))
            _ eq_refl _ _))).
  - intros b E. injection E as <-. eexists. reflexivity.
  - discriminate.
  - reflexivity.
Defined.

Lemma FetchTaxData_disabled_leaves_breaker_witness :
  snd (fst (fixtures.FetchTaxData fixtures.refused fixtures.disabled_calculator
              sample_world))
  = fixtures.disabled_calculator.
Proof.
  exact (proj1 (FetchTaxData_disabled_leaves_breaker Z samples.now
                  (samples.exchange fixtures.refused) samples.unmarshalErrors
                  fixtures.unmarshalResponse fixtures.disabled_calculator
                  fixtures.url sample_world eq_refl)).
Defined.

(** * The handler *)

Section HandlerFacts.
Import handlers.
Local Open Scope string_scope.
Variable ParseFloat : string -> error + float.
Variable Atoi : string -> error + Z.
Variable Net : Type.
Variable now : Net -> Z.
Variable Year : Net -> Z.
Variable exchange : string -> Net -> http.Exchange * Net.
Variable unmarshalErrors : string -> error + list TaxCalcError.
Variable unmarshalResponse : string -> error + TaxCalculatorResponse.

Local Abbreviation parseSalary := (parseSalary ParseFloat Atoi).
Local Abbreviation Handle :=
  (Handle ParseFloat Atoi Net now Year exchange unmarshalErrors unmarshalResponse).

(** X10: parseSalary reads the body only for a POST that lacks the salary
    or the year in the URL: for any other request the result is the same
    whatever the body holds.  Such a POST fails on a body that does not
    parse, also when the salary is in the URL and only the year is
    missing. *)
Theorem parseSalary_reads_body_when_needed (r : Request) :
  (Method r <> "POST"
   \/ (Query r "salary" <> "" /\ Query r "year" <> "") ->
   forall form, parseSalary (mkRequest (Method r) (Query r) form) = parseSalary r)
  /\ (Method r = "POST" ->
      Query r "salary" = "" \/ Query r "year" = "" ->
      forall err, ParseForm r = inl err ->
        parseSalary r
        = (0%float, 0%Z, Some (Errorf ("invalid form data: " ++ errorText err)))).
Proof.
  split.
  - intros H form. unfold handlers.parseSalary. cbn [Method Query ParseForm].
    destruct H as [H|[H1 H2]].
    + apply String.eqb_neq in H. rewrite H, andb_false_r. reflexivity.
    + apply String.eqb_neq in H1, H2. rewrite H1, H2. reflexivity.
  - intros Hm Hq err Hf. unfold handlers.parseSalary.
    rewrite Hm, Hf, String.eqb_refl, andb_true_r.
    destruct Hq as [-> | ->]; rewrite ?orb_true_r; reflexivity.
Qed.

Lemma prefix_app (s t : string) : String.prefix s (s ++ t) = true.
Proof.
  induction s as [|a s IH]; [destruct t; reflexivity|].
  cbn [append String.prefix]. destruct (ascii_dec a a); [exact IH|congruence].
Qed.

Ltac by_prefix :=
  match goal with |- String.prefix ?p _ = true => exact (prefix_app p _) end.

Lemma parseSalary_error_forms (r : Request) salary year err :
  parseSalary r = (salary, year, Some err) ->
  salary = 0%float /\ year = 0%Z
  /\ exists message,
       err = Errorf message
       /\ (message = "salary parameter is required"
           \/ String.prefix "invalid form data: " message = true
           \/ String.prefix "invalid salary format: " message = true
           \/ String.prefix "invalid year format: " message = true).
Proof.
  unfold handlers.parseSalary.
  destruct ((String.eqb (Query r "salary") "" || String.eqb (Query r "year") "")
            && String.eqb (Method r) "POST").
  - destruct (ParseForm r) as [e|PostForm].
    + intros H. injection H as <- <- <-. repeat split. eexists. split; [reflexivity|].
      right. left. by_prefix.
    + destruct (String.eqb (if String.eqb (Query r "salary") "" then _ else _) "").
      * intros H. injection H as <- <- <-. repeat split. eexists. split; [reflexivity|].
        left. reflexivity.
      * destruct (ParseFloat _) as [e|s].
        -- intros H. injection H as <- <- <-. repeat split. eexists.
           split; [reflexivity|]. right. right. left. by_prefix.
        -- destruct (negb _); [destruct (Atoi _) as [e|y]|]; intros H;
             try discriminate H.
           injection H as <- <- <-. repeat split. eexists.
           split; [reflexivity|]. right. right. right. by_prefix.
  - destruct (String.eqb (Query r "salary") "").
    + intros H. injection H as <- <- <-. repeat split. eexists. split; [reflexivity|].
      left. reflexivity.
    + destruct (ParseFloat _) as [e|s].
      * intros H. injection H as <- <- <-. repeat split. eexists.
        split; [reflexivity|]. right. right. left. by_prefix.
      * destruct (negb _); [destruct (Atoi _) as [e|y]|]; intros H;
          try discriminate H.
        injection H as <- <- <-. repeat split. eexists.
        split; [reflexivity|]. right. right. right. by_prefix.
Qed.

Lemma Handle_cases (h : IncomeSalaryHandler Net) (r : Request) (w : World Net) :
  configured (taxCalculator Net h) ->
  exists reply h' w',
    Handle h r w = (Returns reply, h', w')
    /\ configured (taxCalculator Net h')
    /\ config Net h' = config Net h
    /\ environment Net h' = environment Net h
    /\ match parseSalary r with
       | (_, _, Some err) =>
           reply = mkReply 400 (mkResponse 0 0 0 (errorText err))
           /\ h' = h /\ w' = w
       | (salary, _, None) =>
           let '(R, T, F, E) := counters (services.collectors Net (service Net w)) in
           (exists brackets,
               brackets <> []
               /\ reply = mkReply 200
                            (mkResponse salary
                               (fst (services.CalculateTax salary brackets))
                               (snd (services.CalculateTax salary brackets)) "")
               /\ TaxCalculationTotal Net w' = (TaxCalculationTotal Net w + 1)%Z
               /\ exists T',
                   counters (services.collectors Net (service Net w')) = (R, T', F, E))
           \/ (exists message,
                  reply = mkReply 500
                            (mkResponse 0 0 0 ("Error calculating tax: " ++ message))
                  /\ TaxCalculationTotal Net w' = TaxCalculationTotal Net w
                  /\ ((message = circuitOpenMessage \/ message = tooManyRequestsMessage)
                      /\ counters (services.collectors Net (service Net w'))
                         = (R + 1, T, F, E + 1)%Z
                      \/ (exists e F',
                             message = "tax calculator service error: " ++ errorText e
                             /\ counters (services.collectors Net (service Net w'))
                                = (R, T, F', E + 2)%Z)))
       end.
Proof.
  intros Hc. unfold handlers.Handle.
  destruct (parseSalary r) as [[salary year] [err|]].
  - do 3 eexists. split; [reflexivity|]. repeat split; assumption.
  - set (url := taxCalcURL _ _ _).
    destruct (FetchTaxData_cases Net now exchange unmarshalErrors unmarshalResponse
                (taxCalculator Net h) url (service Net w) Hc)
      as (out & tc' & sw & E & Hc' & H).
    rewrite E.
    destruct (counters (services.collectors Net (service Net w))) as [[[R T] F] E0].
    destruct H as [(m & -> & Hm & Hk)|[(e & -> & Hk)|(resp & -> & Hr & Hk)]].
    + do 3 eexists. split; [reflexivity|]. cbn. repeat split; try assumption.
      right. exists m. split; [reflexivity|]. split; [reflexivity|].
      left. split; [exact Hm|].
      unfold counters in *. cbn. injection Hk as -> -> -> ->. reflexivity.
    + do 3 eexists. split; [reflexivity|]. cbn. repeat split; try assumption.
      right. eexists. split; [reflexivity|]. split; [reflexivity|].
      right. exists e. unfold counters in *. cbn.
      destruct Hk as [Hk|Hk]; injection Hk as -> -> -> ->;
        eexists; (split; [reflexivity|]); f_equal; lia.
    + do 3 eexists. split; [reflexivity|]. cbn. repeat split; try assumption.
      left. exists (TaxBrackets resp). split; [exact Hr|].
      split; [reflexivity|]. split; [reflexivity|].
      unfold counters in *.
      destruct Hk as [Hk|Hk]; injection Hk as -> -> -> ->; eexists; reflexivity.
Qed.

(** X11: when parseSalary fails it returns the salary 0 and the year 0, and
    its error is one of four: the salary is missing, or the form, the
    salary or the year does not parse. *)
Theorem parseSalary_errors (r : Request) salary year err :
  parseSalary r = (salary, year, Some err) ->
  salary = 0%float /\ year = 0%Z
  /\ exists message,
       err = Errorf message
       /\ (message = "salary parameter is required"
           \/ String.prefix "invalid form data: " message = true
           \/ String.prefix "invalid salary format: " message = true
           \/ String.prefix "invalid year format: " message = true).
Proof. apply parseSalary_error_forms. Qed.


(** X13: what Handle counts.  A reply with status 200 adds one to the tax
    calculations and leaves the errors of the tax service; a reply with
    status 400 changes nothing; a reply with status 500 leaves the tax
    calculations, and adds one to the errors of the tax service when the
    breaker rejected the call, but two when the fetch failed: FetchTaxData
    and Handle both count that failure. *)
Theorem Handle_metrics (h : IncomeSalaryHandler Net) (r : Request) (w : World Net)
        out h' w' :
  configured (taxCalculator Net h) ->
  Handle h r w = (out, h', w') ->
  let m := services.collectors Net (service Net w) in
  let m' := services.collectors Net (service Net w') in
  exists reply,
    out = Returns reply
    /\ ((Code reply = 200
         /\ TaxCalculationTotal Net w' = TaxCalculationTotal Net w + 1
         /\ metrics.TaxServiceErrors m' = metrics.TaxServiceErrors m
         /\ metrics.CircuitBreakerRejected m' = metrics.CircuitBreakerRejected m)
        \/ (Code reply = 400 /\ w' = w)
        \/ (Code reply = 500
            /\ TaxCalculationTotal Net w' = TaxCalculationTotal Net w
            /\ ((metrics.CircuitBreakerRejected m' = metrics.CircuitBreakerRejected m + 1
                 /\ metrics.TaxServiceErrors m' = metrics.TaxServiceErrors m + 1)
                \/ (metrics.CircuitBreakerRejected m' = metrics.CircuitBreakerRejected m
                    /\ metrics.TaxServiceErrors m' = metrics.TaxServiceErrors m + 2))))%Z.
Proof.
  intros Hc E.
  destruct (Handle_cases h r w Hc) as (reply & h0 & w0 & E0 & _ & _ & _ & H).
  rewrite E in E0. injection E0 as -> -> ->. cbv zeta.
  exists reply. split; [reflexivity|].
  destruct (parseSalary r) as [[salary year] [err|]].
  - destruct H as (-> & _ & ->). right. left. split; reflexivity.
  - unfold counters in H.
    destruct H as [(brackets & _ & -> & Ht & T' & Hk)
                  |(message & -> & Ht & [[_ Hk]|(e & F' & _ & Hk)])];
      injection Hk as HR HT HF HE; cbn [Code].
    + left. repeat split; assumption.
    + right. right. split; [reflexivity|]. split; [exact Ht|]. left. split; assumption.
    + right. right. split; [reflexivity|]. split; [exact Ht|]. right. split; assumption.
Qed.


End HandlerFacts.

Lemma parseSalary_errors_witness :
  0%float = 0%float /\ 0%Z = 0%Z
  /\ exists message,
       Errorf "salary parameter is required" = Errorf message
       /\ (message = "salary parameter is required"%string
           \/ String.prefix "invalid form data: " message = true
           \/ String.prefix "invalid salary format: " message = true
           \/ String.prefix "invalid year format: " message = true).
Proof.
  apply (parseSalary_errors fixtures.ParseFloat fixtures.Atoi (fixtures.get "" "2024")).
  reflexivity.
Defined.


Lemma Handle_metrics_witness :
  exists reply,
    fst (fst (fixtures.Handle fixtures.refused fixtures.handler
                (fixtures.get "75000" "") fixtures.handler_world))
    = Returns reply
    /\ handlers.Code reply = 500%Z
    /\ metrics.TaxServiceErrors
         (services.collectors Z
            (handlers.service Z
               (snd (fixtures.Handle fixtures.refused fixtures.handler
                       (fixtures.get "75000" "") fixtures.handler_world))))
       = 2%Z.
Proof.
  destruct (Handle_metrics fixtures.ParseFloat fixtures.Atoi Z samples.now
              (fun _ => 2025%Z) (samples.exchange fixtures.refused)
              samples.unmarshalErrors fixtures.unmarshalResponse
              fixtures.handler (fixtures.get "75000" "") fixtures.handler_world
              (fst (fst (fixtures.Handle fixtures.refused fixtures.handler
                           (fixtures.get "75000" "") fixtures.handler_world)))
              (snd (fst (fixtures.Handle fixtures.refused fixtures.handler
                           (fixtures.get "75000" "") fixtures.handler_world)))
              (snd (fixtures.Handle fixtures.refused fixtures.handler
                      (fixtures.get "75000" "") fixtures.handler_world)))
    as (reply & E & _).
  - intros b E. injection E as <-. eexists. reflexivity.
  - reflexivity.
  - exists reply. split; [exact E|].
    vm_compute in E. injection E as <-. split; reflexivity.
Defined.


(** * The logger *)

Section LoggerFacts.
Local Open Scope string_scope.
Local Open Scope Z_scope.

Lemma LevelFromString_range (s : string) :
  0 <= logger.LevelFromString s <= 4.
Proof.
  unfold logger.LevelFromString.
  repeat match goal with |- context [if ?c then _ else _] => destruct c end;
    cbv; intuition congruence.
Qed.

Lemma String_named (l : Z) :
  0 <= l <= 4 -> logger.LevelFromString (logger.String l) = l.
Proof.
  intros H.
  assert (l = 0 \/ l = 1 \/ l = 2 \/ l = 3 \/ l = 4) as C by lia.
  destruct C as [->|[->|[->|[->| ->]]]]; reflexivity.
Qed.

Lemma String_unnamed (l : Z) :
  ~ 0 <= l <= 4 -> logger.String l = "LogLevel(" ++ fmt.d l ++ ")".
Proof.
  intros H. unfold logger.String.
  destruct l as [|p|p]; try lia; try reflexivity.
  destruct p as [p|p|]; try lia; try reflexivity;
  destruct p as [p|p|]; try lia; try reflexivity;
  destruct p as [p|p|]; try lia; try reflexivity.
Qed.

(** X15: LevelFromString undoes LogLevel.String exactly on the five named
    levels: every other level is printed as LogLevel(n) and read back as
    LevelInfo. *)
Theorem LevelFromString_String_round_trip (l : Z) :
  (logger.LevelFromString (logger.String l) = l <-> 0 <= l <= 4)
  /\ (~ 0 <= l <= 4 ->
      logger.String l = "LogLevel(" ++ fmt.d l ++ ")"
      /\ logger.LevelFromString (logger.String l) = logger.LevelInfo).
Proof.
  split; [split|].
  - intros E. rewrite <- E. apply LevelFromString_range.
  - apply String_named.
  - intros H. split; [apply String_unnamed, H|].
    rewrite (String_unnamed l H). reflexivity.
Qed.

(** X16: LevelFromString returns a named level for every string; on the
    five names (in capitals) LogLevel.String gives the name back, and every
    other string is read as LevelInfo. *)
Theorem String_LevelFromString (s : string) :
  0 <= logger.LevelFromString s <= 4 /\
  (In s ["NONE"; "ERROR"; "WARN"; "INFO"; "DEBUG"] ->
   logger.String (logger.LevelFromString s) = s) /\
  (~ In s ["NONE"; "ERROR"; "WARN"; "INFO"; "DEBUG"] ->
   logger.LevelFromString s = logger.LevelInfo).
Proof.
  split; [apply LevelFromString_range|]. split.
  - intros [<-|[<-|[<-|[<-|[<-|[]]]]]]; reflexivity.
  - intros N. unfold logger.LevelFromString.
    repeat match goal with
    | |- context [String.eqb s ?n] =>
        destruct (String.eqb_spec s n) as [->|_];
        [exfalso; apply N; simpl; tauto|]
    end.
    reflexivity.
Qed.

Lemma Printf_grows (prefix m : string) (l : logger.Logger) :
  logger.printed (logger.Printf prefix m l) <> logger.printed l.
Proof.
  unfold logger.Printf; simpl. intros E.
  apply (f_equal (@List.length string)) in E.
  rewrite length_app in E. simpl in E. lia.
Qed.

(** X17: the severities nest: a logger that prints a message as Debug
    prints it as Info, one that prints it as Info prints it as Warn, one
    that prints it as Warn prints it as Error; a disabled logger prints none
    of them, and an enabled one prints all four at any level from 4 up,
    named or not. *)
Theorem severities_nest (m : string) (l : logger.Logger) :
  (logger.Debug m l <> l -> logger.Info m l <> l) /\
  (logger.Info m l <> l -> logger.Warn m l <> l) /\
  (logger.Warn m l <> l -> logger.Error m l <> l) /\
  (logger.enabled l = false ->
   logger.Debug m l = l /\ logger.Info m l = l /\
   logger.Warn m l = l /\ logger.Error m l = l) /\
  (logger.enabled l = true -> 4 <= logger.level l ->
   logger.printed (logger.Debug m l) = (logger.printed l ++ [("[DEBUG] " ++ m)%string])%list /\
   logger.printed (logger.Info m l) = (logger.printed l ++ [("[INFO] " ++ m)%string])%list /\
   logger.printed (logger.Warn m l) = (logger.printed l ++ [("[WARN] " ++ m)%string])%list /\
   logger.printed (logger.Error m l) = (logger.printed l ++ [("[ERROR] " ++ m)%string])%list).
Proof.
  unfold logger.Debug, logger.Info, logger.Warn, logger.Error,
    logger.LevelDebug, logger.LevelInfo, logger.LevelWarn, logger.LevelError.
  assert (P : forall p, logger.Printf p m l <> l).
  { intros p E. apply (Printf_grows p m l). now rewrite E. }
  destruct (logger.enabled l); simpl.
  - repeat split; intros;
      repeat match goal with
      | H : context [(?a <=? ?b)] |- _ => destruct (Z.leb_spec a b)
      | |- context [(?a <=? ?b)] => destruct (Z.leb_spec a b)
      end; try lia; try congruence; try apply P; try reflexivity.
  - repeat split; intros; congruence.
Qed.

End LoggerFacts.

(** * The benchmark tool *)

Section BenchmarkFacts.
Local Open Scope Z_scope.

Lemma int_small (x : Z) : - 2 ^ 63 <= x < 2 ^ 63 -> benchmark.int x = x.
Proof.
  intros H. unfold benchmark.int.
  rewrite Z.mod_small; lia.
Qed.

Lemma fold_collect_fixed received : forall b s,
  let r := fold_left benchmark.collect received (b, s) in
  benchmark.TotalRequests (fst r) = benchmark.TotalRequests b /\
  benchmark.TotalDuration (fst r) = benchmark.TotalDuration b.
Proof.
  induction received as [|x rest IH]; intros b s; simpl; [tauto|].
  specialize (IH (fst (benchmark.collect (b, s) x)) (snd (benchmark.collect (b, s) x))).
  rewrite <- surjective_pairing in IH. simpl in IH. exact IH.
Qed.

Lemma fold_collect_tally received : forall b s,
  0 <= benchmark.SuccessfulRequests b ->
  0 <= benchmark.FailedRequests b ->
  benchmark.SuccessfulRequests b + benchmark.FailedRequests b
    + Z.of_nat (List.length received) < 2 ^ 63 ->
  let r := fold_left benchmark.collect received (b, s) in
  benchmark.SuccessfulRequests (fst r) =
    benchmark.SuccessfulRequests b
    + Z.of_nat (List.length (filter benchmark.successful received)) /\
  benchmark.FailedRequests (fst r) =
    benchmark.FailedRequests b
    + Z.of_nat (List.length (filter (fun x => negb (benchmark.successful x)) received)).
Proof.
  induction received as [|x rest IH]; intros b s Hs Hf Hb.
  - simpl. lia.
  - cbn [fold_left]. cbn [List.length] in Hb.
    pose proof (IH (fst (benchmark.collect (b, s) x))
                   (snd (benchmark.collect (b, s) x))) as IH'.
    rewrite <- surjective_pairing in IH'. cbv zeta in IH' |- *.
    assert (Sc : benchmark.SuccessfulRequests (fst (benchmark.collect (b, s) x))
                 = if benchmark.successful x
                   then benchmark.int (benchmark.SuccessfulRequests b + 1)
                   else benchmark.SuccessfulRequests b) by reflexivity.
    assert (Fc : benchmark.FailedRequests (fst (benchmark.collect (b, s) x))
                 = if benchmark.successful x
                   then benchmark.FailedRequests b
                   else benchmark.int (benchmark.FailedRequests b + 1)) by reflexivity.
    rewrite Sc, Fc in IH'. clear Sc Fc.
    cbn [filter].
    destruct (benchmark.successful x); cbn [negb List.length];
      rewrite int_small in IH' by lia;
      destruct IH' as [A B]; lia.
Qed.

(** X18: runBenchmark counts every result it received once, as successful
    or as failed; the total it reports is the number of requests asked
    for, whatever number of results arrived. *)
Theorem runBenchmark_counts_every_result
        (config : benchmark.Config) (totalDuration : Z)
        (received : list benchmark.RequestResult) (b : benchmark.BenchmarkResults) :
  Z.of_nat (List.length received) < 2 ^ 63 ->
  benchmark.runBenchmark config totalDuration received = Returns b ->
  benchmark.SuccessfulRequests b
    = Z.of_nat (List.length (filter benchmark.successful received)) /\
  benchmark.SuccessfulRequests b + benchmark.FailedRequests b
    = Z.of_nat (List.length received) /\
  benchmark.TotalRequests b = benchmark.NumRequests config.
Proof.
  intros Hlen. unfold benchmark.runBenchmark.
  destruct (benchmark.NumRequests config <? 0); [discriminate|].
  pose proof (fold_collect_tally received (benchmark.initial config totalDuration) 0) as T.
  pose proof (fold_collect_fixed received (benchmark.initial config totalDuration) 0) as F.
  cbn zeta in T, F.
  destruct (fold_left benchmark.collect received _) as [b' s'].
  cbn [fst] in T, F.
  cbn [benchmark.initial benchmark.SuccessfulRequests benchmark.FailedRequests
       benchmark.TotalRequests] in T, F.
  destruct T as [A B]; try lia.
  assert (L : Z.of_nat (List.length (filter benchmark.successful received))
              + Z.of_nat (List.length (filter (fun x => negb (benchmark.successful x)) received))
              = Z.of_nat (List.length received)).
  { clear. induction received as [|x rest IH]; [reflexivity|].
    cbn [filter]. destruct (benchmark.successful x); cbn [negb List.length]; lia. }
  destruct F as [F _].
  destruct (0 <? benchmark.TotalRequests b'); intros E; injection E as <-;
    cbn [benchmark.SuccessfulRequests benchmark.FailedRequests benchmark.TotalRequests];
    repeat split; lia.
Qed.


Lemma fold_collect_durations received : forall b s,
  let r := fold_left benchmark.collect received (b, s) in
  (forall x, In x received ->
     benchmark.MinDuration (fst r) <= benchmark.Duration x
     <= benchmark.MaxDuration (fst r)) /\
  benchmark.MinDuration (fst r) <= benchmark.MinDuration b /\
  benchmark.MaxDuration b <= benchmark.MaxDuration (fst r) /\
  (benchmark.MinDuration (fst r) = benchmark.MinDuration b \/
   In (benchmark.MinDuration (fst r)) (durations received)) /\
  (benchmark.MaxDuration (fst r) = benchmark.MaxDuration b \/
   In (benchmark.MaxDuration (fst r)) (durations received)).
Proof.
  induction received as [|x rest IH]; intros b s.
  - simpl. repeat split; try lia; try tauto.
  - cbn [fold_left].
    pose proof (IH (fst (benchmark.collect (b, s) x))
                   (snd (benchmark.collect (b, s) x))) as IH'.
    rewrite <- surjective_pairing in IH'. cbv zeta in IH' |- *.
    assert (Mn : benchmark.MinDuration (fst (benchmark.collect (b, s) x))
                 = if benchmark.Duration x <? benchmark.MinDuration b
                   then benchmark.Duration x else benchmark.MinDuration b)
      by reflexivity.
    assert (Mx : benchmark.MaxDuration (fst (benchmark.collect (b, s) x))
                 = if benchmark.MaxDuration b <? benchmark.Duration x
                   then benchmark.Duration x else benchmark.MaxDuration b)
      by reflexivity.
    rewrite Mn, Mx in IH'. clear Mn Mx.
    destruct IH' as (A & B & C & D & E).
    unfold durations in *. cbn [map].
    destruct (Z.ltb_spec (benchmark.Duration x) (benchmark.MinDuration b));
      destruct (Z.ltb_spec (benchmark.MaxDuration b) (benchmark.Duration x));
      (split; [intros y [<-|Hy]; [lia|apply A, Hy]|]);
      (split; [lia|]); (split; [lia|]);
      (split; [destruct D as [D|D]; [rewrite D; simpl; tauto || (left; reflexivity)
                                     |right; right; exact D]
              |destruct E as [E|E]; [rewrite E; simpl; tauto || (left; reflexivity)
                                     |right; right; exact E]]).
Qed.

(** X19: the minimum and the maximum runBenchmark reports bound the
    duration of every result; each is the duration of some result or the
    value it started from, and with no result they stay at the largest
    duration and at zero. *)
Theorem runBenchmark_duration_bounds
        (config : benchmark.Config) (totalDuration : Z)
        (received : list benchmark.RequestResult) (b : benchmark.BenchmarkResults) :
  benchmark.runBenchmark config totalDuration received = Returns b ->
  (forall x, In x received ->
     benchmark.MinDuration b <= benchmark.Duration x <= benchmark.MaxDuration b) /\
  (benchmark.MinDuration b = 2 ^ 63 - 1 \/
   In (benchmark.MinDuration b) (durations received)) /\
  (benchmark.MaxDuration b = 0 \/
   In (benchmark.MaxDuration b) (durations received)) /\
  (received = [] ->
   benchmark.MinDuration b = 2 ^ 63 - 1 /\ benchmark.MaxDuration b = 0).
Proof.
  unfold benchmark.runBenchmark.
  destruct (benchmark.NumRequests config <? 0); [discriminate|].
  pose proof (fold_collect_durations received
                (benchmark.initial config totalDuration) 0) as D.
  cbv zeta in D.
  destruct (fold_left benchmark.collect received _) as [b' s'] eqn:F.
  cbn [fst] in D.
  cbn [benchmark.initial benchmark.MinDuration benchmark.MaxDuration] in D.
  destruct D as (A & _ & _ & D & E).
  assert (N : received = [] ->
              benchmark.MinDuration b' = 2 ^ 63 - 1 /\ benchmark.MaxDuration b' = 0).
  { intros ->. simpl in F. injection F as <- _. split; reflexivity. }
  destruct (0 <? benchmark.TotalRequests b'); intros Eq; injection Eq as <-;
    cbn [benchmark.MinDuration benchmark.MaxDuration]; tauto.
Qed.


Lemma lookup_increment (m : list (Z * Z)) (k c : Z) :
  benchmark.lookup (benchmark.increment m k) c
  = if k =? c then benchmark.int (benchmark.lookup m k + 1)
    else benchmark.lookup m c.
Proof.
  induction m as [|[k' v] rest IH]; cbn [benchmark.increment benchmark.lookup].
  - destruct (k =? c); reflexivity.
  - destruct (Z.eqb_spec k' k) as [->|N]; cbn [benchmark.lookup].
    + destruct (k =? c); reflexivity.
    + rewrite IH. destruct (Z.eqb_spec k' c) as [->|N'].
      * destruct (Z.eqb_spec k c); [congruence|reflexivity].
      * destruct (Z.eqb_spec k' k); [contradiction|]. reflexivity.
Qed.

Lemma increment_keys (m : list (Z * Z)) (k c : Z) :
  In c (map fst (benchmark.increment m k)) <-> c = k \/ In c (map fst m).
Proof.
  induction m as [|[k' v] rest IH]; cbn [benchmark.increment].
  - simpl. intuition congruence.
  - destruct (Z.eqb_spec k' k) as [->|N]; cbn [map fst In].
    + intuition congruence.
    + rewrite IH. intuition congruence.
Qed.

Lemma increment_NoDup (m : list (Z * Z)) (k : Z) :
  NoDup (map fst m) -> NoDup (map fst (benchmark.increment m k)).
Proof.
  induction m as [|[k' v] rest IH]; cbn [benchmark.increment]; intros H.
  - simpl. constructor; [simpl; tauto|constructor].
  - cbn [map fst] in H. inversion H as [|? ? Hn Hr]; subst.
    destruct (Z.eqb_spec k' k) as [->|N]; cbn [map fst].
    + constructor; assumption.
    + constructor; [|apply IH, Hr].
      rewrite increment_keys. intros [E|I]; [congruence|contradiction].
Qed.

Lemma fold_collect_codes received : forall b s,
  (forall c, 0 <= benchmark.lookup (benchmark.StatusCodes b) c) ->
  (forall c, benchmark.lookup (benchmark.StatusCodes b) c
             + Z.of_nat (List.length received) < 2 ^ 63) ->
  NoDup (map fst (benchmark.StatusCodes b)) ->
  let r := fold_left benchmark.collect received (b, s) in
  (forall c, benchmark.lookup (benchmark.StatusCodes (fst r)) c
             = benchmark.lookup (benchmark.StatusCodes b) c
               + Z.of_nat (List.length (with_code c received))) /\
  NoDup (map fst (benchmark.StatusCodes (fst r))) /\
  (forall c, In c (map fst (benchmark.StatusCodes (fst r)))
             <-> In c (map fst (benchmark.StatusCodes b))
                 \/ In c (map benchmark.StatusCode received)).
Proof.
  induction received as [|x rest IH]; intros b s Hp Hb Hn.
  - simpl. repeat split; try assumption; intros; try lia; tauto.
  - cbn [fold_left]. cbn [List.length] in Hb.
    pose proof (IH (fst (benchmark.collect (b, s) x))
                   (snd (benchmark.collect (b, s) x))) as IH'.
    rewrite <- surjective_pairing in IH'. cbv zeta in IH' |- *.
    assert (Sc : benchmark.StatusCodes (fst (benchmark.collect (b, s) x))
                 = benchmark.increment (benchmark.StatusCodes b)
                     (benchmark.StatusCode x)) by reflexivity.
    rewrite Sc in IH'. clear Sc.
    assert (L : forall c,
               benchmark.lookup
                 (benchmark.increment (benchmark.StatusCodes b) (benchmark.StatusCode x)) c
               = benchmark.lookup (benchmark.StatusCodes b) c
                 + (if benchmark.StatusCode x =? c then 1 else 0)).
    { intros c. rewrite lookup_increment.
      destruct (Z.eqb_spec (benchmark.StatusCode x) c) as [->|_]; [|lia].
      rewrite int_small; [reflexivity|].
      specialize (Hp c). specialize (Hb c). lia. }
    destruct IH' as (A & B & C).
    + intros c. rewrite L. specialize (Hp c). destruct (_ =? c); lia.
    + intros c. rewrite L. specialize (Hb c). destruct (_ =? c); lia.
    + apply increment_NoDup, Hn.
    + split; [|split; [exact B|]].
      * intros c. rewrite A, L. unfold with_code. cbn [filter].
        destruct (benchmark.StatusCode x =? c); cbn [List.length]; lia.
      * intros c. rewrite C, increment_keys. cbn [map In].
        intuition congruence.
Qed.

(** X20: the status codes runBenchmark reports are the codes of the
    results, each once, with the number of results that carry it (a result
    without a response counts under the code 0). *)
Theorem runBenchmark_status_codes
        (config : benchmark.Config) (totalDuration : Z)
        (received : list benchmark.RequestResult) (b : benchmark.BenchmarkResults) :
  Z.of_nat (List.length received) < 2 ^ 63 ->
  benchmark.runBenchmark config totalDuration received = Returns b ->
  (forall c, benchmark.lookup (benchmark.StatusCodes b) c
             = Z.of_nat (List.length (with_code c received))) /\
  NoDup (map fst (benchmark.StatusCodes b)) /\
  (forall c, In c (map fst (benchmark.StatusCodes b))
             <-> In c (map benchmark.StatusCode received)).
Proof.
  intros Hlen. unfold benchmark.runBenchmark.
  destruct (benchmark.NumRequests config <? 0); [discriminate|].
  pose proof (fold_collect_codes received
                (benchmark.initial config totalDuration) 0) as D.
  cbv zeta in D.
  destruct (fold_left benchmark.collect received _) as [b' s'].
  cbn [fst] in D.
  cbn [benchmark.initial benchmark.StatusCodes benchmark.lookup map] in D.
  destruct D as (A & B & C); try (intros; lia); [constructor|].
  destruct (0 <? benchmark.TotalRequests b'); intros Eq; injection Eq as <-;
    cbn [benchmark.StatusCodes];
    (split; [intros c; rewrite A; lia|split; [exact B|]]);
    intros c; rewrite C; simpl; tauto.
Qed.

Lemma fold_collect_sum received : forall b s,
  0 <= s ->
  (forall x, In x received -> 0 <= benchmark.Duration x) ->
  s + total (durations received) < 2 ^ 63 ->
  snd (fold_left benchmark.collect received (b, s))
  = s + total (durations received).
Proof.
  induction received as [|x rest IH]; intros b s Hs Hp Hb.
  - simpl. lia.
  - cbn [fold_left].
    pose proof (IH (fst (benchmark.collect (b, s) x))
                   (snd (benchmark.collect (b, s) x))) as IH'.
    rewrite <- surjective_pairing in IH'.
    assert (Sc : snd (benchmark.collect (b, s) x)
                 = benchmark.int (s + benchmark.Duration x)) by reflexivity.
    rewrite Sc in IH'. clear Sc.
    unfold durations in *. cbn [map total fold_right] in *.
    assert (0 <= benchmark.Duration x) by (apply Hp; left; reflexivity).
    assert (T : 0 <= fold_right Z.add 0 (map benchmark.Duration rest)).
    { clear - Hp. induction rest as [|y r IHr]; simpl; [lia|].
      assert (0 <= benchmark.Duration y) by (apply Hp; right; left; reflexivity).
      assert (0 <= fold_right Z.add 0 (map benchmark.Duration r)).
      { apply IHr. intros z [<-|I]; apply Hp; [left; reflexivity|right; right; exact I]. }
      lia. }
    rewrite int_small in IH' by lia.
    unfold total in *.
    rewrite IH'; try lia.
    intros y Hy. apply Hp. right. exact Hy.
Qed.

Lemma total_bounds (l : list Z) (lo hi : Z) :
  (forall d, In d l -> lo <= d <= hi) ->
  Z.of_nat (List.length l) * lo <= total l <= Z.of_nat (List.length l) * hi.
Proof.
  induction l as [|d rest IH]; intros H.
  - simpl. lia.
  - cbn [total fold_right List.length].
    assert (lo <= d <= hi) by (apply H; left; reflexivity).
    assert (Z.of_nat (List.length rest) * lo <= total rest
            <= Z.of_nat (List.length rest) * hi)
      by (apply IH; intros; apply H; right; assumption).
    unfold total in *. lia.
Qed.

(** X21: the average runBenchmark reports is the sum of the durations
    divided by the number of requests asked for; when a result arrived for
    each of them, it lies between the minimum and the maximum. *)
Theorem runBenchmark_average
        (config : benchmark.Config) (totalDuration : Z)
        (received : list benchmark.RequestResult) (b : benchmark.BenchmarkResults) :
  0 < benchmark.NumRequests config ->
  (forall x, In x received -> 0 <= benchmark.Duration x) ->
  total (durations received) < 2 ^ 63 ->
  benchmark.runBenchmark config totalDuration received = Returns b ->
  benchmark.AvgDuration b
    = total (durations received) / benchmark.NumRequests config /\
  (Z.of_nat (List.length received) = benchmark.NumRequests config ->
   benchmark.MinDuration b <= benchmark.AvgDuration b <= benchmark.MaxDuration b).
Proof.
  intros Hn Hp Hb. unfold benchmark.runBenchmark.
  destruct (Z.ltb_spec (benchmark.NumRequests config) 0); [lia|].
  pose proof (fold_collect_sum received
                (benchmark.initial config totalDuration) 0) as S.
  pose proof (fold_collect_durations received
                (benchmark.initial config totalDuration) 0) as D.
  pose proof (fold_collect_fixed received
                (benchmark.initial config totalDuration) 0) as F.
  cbv zeta in D, F.
  destruct (fold_left benchmark.collect received _) as [b' s'].
  cbn [fst snd] in S, D, F.
  cbn [benchmark.initial benchmark.TotalRequests] in F.
  destruct F as [F _]. destruct D as (D & _).
  rewrite S by (assumption || lia). rewrite F.
  destruct (Z.ltb_spec 0 (benchmark.NumRequests config)); [|lia].
  intros Eq; injection Eq as <-.
  cbn [benchmark.AvgDuration benchmark.MinDuration benchmark.MaxDuration].
  assert (T : 0 <= total (durations received)).
  { pose proof (total_bounds (durations received) 0 (benchmark.MaxDuration b')) as B.
    unfold durations in *. rewrite length_map in B.
    destruct B as [B _]; [|lia].
    intros d Hd. apply in_map_iff in Hd. destruct Hd as (x & <- & Hx).
    split; [apply Hp, Hx|apply D, Hx]. }
  rewrite Z.quot_div_nonneg by lia.
  split; [reflexivity|].
  intros L.
  pose proof (total_bounds (durations received)
                (benchmark.MinDuration b') (benchmark.MaxDuration b')) as B.
  unfold durations in *. rewrite length_map, L in B.
  destruct B as [B1 B2].
  { intros d Hd. apply in_map_iff in Hd. destruct Hd as (x & <- & Hx). apply D, Hx. }
  split.
  - apply Z.div_le_lower_bound; lia.
  - apply Z.div_le_upper_bound; lia.
Qed.

Lemma requests_count (g : Z) (n : nat) :
  let l := map (fun i => if Z.of_nat i <? g then "GET"%string else "POST"%string)
               (seq 0 n) in
  count "GET" l = Z.min (Z.max g 0) (Z.of_nat n) /\
  count "POST" l = Z.of_nat n - Z.min (Z.max g 0) (Z.of_nat n).
Proof.
  cbv zeta. unfold count. induction n as [|n IH].
  - simpl. lia.
  - rewrite seq_S, map_app, !count_occ_app. cbn [map plus].
    destruct IH as [A B].
    destruct (Z.ltb_spec (Z.of_nat n) g); cbn [count_occ];
      repeat match goal with
      | |- context [string_dec ?a ?b] =>
          destruct (string_dec a b); try discriminate; try congruence
      end; lia.
Qed.

(** X22: however the requests are shuffled, there are as many of them as
    asked for, the share of GETs is the percentage asked for rounded down,
    and the others are POSTs. *)
Theorem requests_distribution (config : benchmark.Config) (l : list string) :
  0 <= benchmark.NumRequests config ->
  0 <= benchmark.GetPercent config <= 100 ->
  benchmark.NumRequests config * benchmark.GetPercent config < 2 ^ 63 ->
  Permutation (benchmark.requests config) l ->
  Z.of_nat (List.length l) = benchmark.NumRequests config /\
  count "GET" l
    = benchmark.NumRequests config * benchmark.GetPercent config / 100 /\
  count "POST" l
    = benchmark.NumRequests config
      - benchmark.NumRequests config * benchmark.GetPercent config / 100.
Proof.
  intros Hn Hp Hb P.
  assert (G : benchmark.getCount config
              = benchmark.NumRequests config * benchmark.GetPercent config / 100).
  { unfold benchmark.getCount. rewrite int_small by nia.
    apply Z.quot_div_nonneg; nia. }
  assert (Gb : 0 <= benchmark.getCount config <= benchmark.NumRequests config).
  { rewrite G. split; [apply Z.div_pos; nia|].
    apply Z.div_le_upper_bound; nia. }
  pose proof (requests_count (benchmark.getCount config)
                (Z.to_nat (benchmark.NumRequests config))) as C.
  cbv zeta in C. fold (benchmark.requests config) in C.
  unfold count in *.
  pose proof (proj1 (Permutation_count_occ string_dec _ _) P) as Q.
  rewrite <- (Permutation_length P), <- !Q.
  unfold benchmark.requests at 1. rewrite length_map, length_seq.
  destruct C as [C1 C2]. rewrite C1, C2, <- G. lia.
Qed.


(** X24: a worker panics on drawing exactly when the minimum of the
    configuration is above the maximum. *)
Theorem draw_panics_on_inverted_bounds (lo hi r : Z) :
  int64_range lo -> int64_range hi ->
  - 2 ^ 63 <= hi - lo < 2 ^ 63 - 1 ->
  benchmark.draw lo hi r = Panics <-> hi < lo.
Proof.
  unfold int64_range, benchmark.draw. intros Hl Hh Hd.
  rewrite (int_small (hi - lo)) by lia.
  rewrite (int_small (hi - lo + 1)) by lia.
  destruct (Z.leb_spec (hi - lo + 1) 0); split; intros; try lia;
    try reflexivity; discriminate.
Qed.

End BenchmarkFacts.

Lemma runBenchmark_counts_every_result_witness :
  benchmark.SuccessfulRequests fixtures.results
    = Z.of_nat (List.length (filter benchmark.successful fixtures.received))
  /\ (benchmark.SuccessfulRequests fixtures.results
      + benchmark.FailedRequests fixtures.results
      = Z.of_nat (List.length fixtures.received))%Z
  /\ benchmark.TotalRequests fixtures.results
     = benchmark.NumRequests fixtures.config.
Proof.
  apply (runBenchmark_counts_every_result fixtures.config fixtures.took);
    vm_compute; reflexivity.
Defined.

Lemma runBenchmark_duration_bounds_witness :
  (forall x, In x fixtures.received ->
     (benchmark.MinDuration fixtures.results <= benchmark.Duration x
      <= benchmark.MaxDuration fixtures.results)%Z)
  /\ benchmark.MinDuration fixtures.results = 1000000%Z
  /\ benchmark.MaxDuration fixtures.results = 9000000%Z.
Proof.
  split; [|split; reflexivity].
  apply (runBenchmark_duration_bounds fixtures.config fixtures.took
           fixtures.received fixtures.results).
  vm_compute; reflexivity.
Defined.

Lemma runBenchmark_status_codes_witness :
  (forall c, benchmark.lookup (benchmark.StatusCodes fixtures.results) c
             = Z.of_nat (List.length (with_code c fixtures.received)))
  /\ benchmark.StatusCodes fixtures.results = [(200, 1); (500, 1); (0, 1)]%Z.
Proof.
  split; [|reflexivity].
  apply (runBenchmark_status_codes fixtures.config fixtures.took
           fixtures.received fixtures.results); vm_compute; reflexivity.
Defined.

Lemma runBenchmark_average_witness :
  benchmark.AvgDuration fixtures.results = 5000000%Z
  /\ (benchmark.MinDuration fixtures.results <= benchmark.AvgDuration fixtures.results
      <= benchmark.MaxDuration fixtures.results)%Z.
Proof.
  destruct (runBenchmark_average fixtures.config fixtures.took
              fixtures.received fixtures.results) as [A B].
  - vm_compute; reflexivity.
  - intros x [<-|[<-|[<-|[]]]]; vm_compute; discriminate.
  - vm_compute; reflexivity.
  - vm_compute; reflexivity.
  - split; [rewrite A; reflexivity|apply B; reflexivity].
Defined.

Lemma requests_distribution_witness :
  Z.of_nat (List.length (rev (benchmark.requests fixtures.config))) = 3%Z
  /\ count "GET" (rev (benchmark.requests fixtures.config)) = 1%Z
  /\ count "POST" (rev (benchmark.requests fixtures.config)) = 2%Z.
Proof.
  apply (requests_distribution fixtures.config
           (rev (benchmark.requests fixtures.config))).
  - vm_compute; discriminate.
  - vm_compute; split; discriminate.
  - vm_compute; reflexivity.
  - apply Permutation_rev.
Defined.


Lemma draw_panics_on_inverted_bounds_witness :
  benchmark.draw 1000000 10000 0 = Panics <-> (10000 < 1000000)%Z.
Proof.
  apply draw_panics_on_inverted_bounds; unfold int64_range; lia.
Defined.

(** * The trip rule at the failure ratio one half *)

Section Division.
Local Open Scope Z_scope.

(** [shr] divides the mantissa, whatever the bits it starts from. *)
Lemma iter_shr_1_m (n : positive) : forall mrs,
  0 <= shr_m mrs ->
  shr_m (iter_pos shr_1 n mrs) = shr_m mrs / 2 ^ Z.pos n.
Proof.
  assert (Step : forall mrs, 0 <= shr_m mrs ->
                   shr_m (shr_1 mrs) = shr_m mrs / 2 /\ 0 <= shr_m (shr_1 mrs)).
  { intros [m r s] H. cbn [shr_m] in H. rewrite shr_1_nonneg by exact H.
    cbn [shr_m]. split; [reflexivity|]. apply Z.div_pos; lia. }
  assert (Pos : forall n mrs, 0 <= shr_m mrs ->
                  shr_m (iter_pos shr_1 n mrs) = shr_m mrs / 2 ^ Z.pos n
                  /\ 0 <= shr_m (iter_pos shr_1 n mrs)).
  { clear n. induction n as [n IH|n IH|]; intros mrs H; simpl iter_pos.
    - destruct (Step mrs H) as [S1 P1].
      destruct (IH _ P1) as [S2 P2]. destruct (IH _ P2) as [S3 P3].
      split; [|exact P3]. rewrite S3, S2, S1.
      assert (Hp : 0 < 2 ^ Z.pos n) by (apply Z.pow_pos_nonneg; lia).
      rewrite !Z.div_div by lia. f_equal.
      rewrite <- Z.pow_add_r by lia.
      rewrite <- (Z.pow_succ_r 2) by lia. f_equal. lia.
    - destruct (IH _ H) as [S2 P2]. destruct (IH _ P2) as [S3 P3].
      split; [|exact P3]. rewrite S3, S2.
      assert (Hp : 0 < 2 ^ Z.pos n) by (apply Z.pow_pos_nonneg; lia).
      rewrite !Z.div_div by lia. f_equal.
      rewrite <- Z.pow_add_r by lia. f_equal. lia.
    - destruct (Step mrs H) as [S1 P1]. split; [|exact P1]. exact S1. }
  intros mrs H. apply Pos, H.
Qed.

Lemma shr_m_div mrs e n :
  0 <= shr_m mrs ->
  snd (shr mrs e n) = e + Z.max 0 n
  /\ shr_m (fst (shr mrs e n)) = shr_m mrs / 2 ^ Z.max 0 n.
Proof.
  intros H. destruct n as [|p|p]; cbn [shr fst snd].
  - simpl. rewrite Z.add_0_r, Z.div_1_r. split; reflexivity.
  - replace (Z.max 0 (Z.pos p)) with (Z.pos p) by lia.
    split; [reflexivity|]. apply iter_shr_1_m, H.
  - replace (Z.max 0 (Z.neg p)) with 0 by lia.
    simpl. rewrite Z.add_0_r, Z.div_1_r. split; reflexivity.
Qed.

Lemma round_nearest_even_bounds m l :
  m <= round_nearest_even m l <= m + 1.
Proof.
  unfold round_nearest_even. destruct l as [|[| |]]; try lia.
  destruct (Z.even m); lia.
Qed.

Lemma shr_record_of_loc_m m l : shr_m (shr_record_of_loc m l) = m.
Proof. destruct l as [|[| |]]; reflexivity. Qed.

(** Rounding a mantissa with the position of what was cut off: the
    mantissa is divided and then moved up by one at most. *)
Lemma binary_round_aux_bounds s (q : positive) e l :
  let E := fexp prec emax (Z.pos (digits2_pos q) + e) in
  e <= E -> -1074 <= E ->
  exists n,
    binary_round_aux prec emax s (Z.pos q) e l = finish s n E
    /\ Z.pos q / 2 ^ (E - e) <= n <= Z.pos q / 2 ^ (E - e) + 1.
Proof.
  intros E He HE. unfold binary_round_aux.
  unfold shr_fexp at 1. cbn [Zdigits2]. fold E.
  pose proof (shr_m_div (shr_record_of_loc (Z.pos q) l) e (E - e)) as H.
  rewrite shr_record_of_loc_m in H. specialize (H ltac:(lia)).
  destruct (shr _ e (E - e)) as [mrs' e']. cbn [fst snd] in H.
  destruct H as [He' Hm]. replace (Z.max 0 (E - e)) with (E - e) in * by lia.
  replace (e + (E - e)) with E in He' by lia. subst e'.
  pose proof (round_nearest_even_bounds (shr_m mrs') (loc_of_shr_record mrs')) as B.
  set (n := round_nearest_even (shr_m mrs') (loc_of_shr_record mrs')) in *.
  rewrite Hm in B.
  exists n. split; [|exact B].
  apply renormalize; [|exact HE].
  pose proof (digits_bounds q) as [Hl Hu].
  set (d := Z.pos (digits2_pos q)) in *.
  assert (Hp : 0 < 2 ^ (E - e)) by (apply Z.pow_pos_nonneg; lia).
  assert (0 <= Z.pos q / 2 ^ (E - e)) by (apply Z.div_pos; lia).
  split; [lia|].
  assert (Z.pos q / 2 ^ (E - e) < 2 ^ 53); [|lia].
  apply Z.div_lt_upper_bound; [exact Hp|].
  rewrite <- Z.pow_add_r by lia.
  assert (2 ^ d <= 2 ^ (E - e + 53)); [|lia].
  apply Z.pow_le_mono_r; [lia|]. subst E. rewrite fexp64. lia.
Qed.


(** The conversion [float64(n)] of a [uint32] that is not zero: its
    mantissa, of 53 digits, and its exponent. *)
Lemma float64_finite (n : Z) :
  0 < n < 2 ^ 32 ->
  exists m e,
    Prim2SF (services.float64 n) = S754_finite false m e
    /\ Z.pos m = n * 2 ^ (- e)
    /\ 2 ^ 52 <= Z.pos m < 2 ^ 53
    /\ -52 <= e <= -21.
Proof.
  intros Hn. unfold services.float64.
  rewrite of_uint63_spec, Uint63.of_Z_spec.
  assert (W : n mod Uint63.wB = n).
  { apply Z.mod_small. change Uint63.wB with (2 ^ 63). lia. }
  rewrite W. destruct n as [|p|p]; try lia. cbn [binary_normalize].
  rewrite binary_round_closed. cbv zeta. rewrite fexp64.
  pose proof (digits_bounds p) as [Hl Hu].
  set (d := Z.pos (digits2_pos p)) in *.
  assert (Hd : 1 <= d <= 32).
  { split.
    - destruct (Z.leb_spec 1 d); [assumption|].
      assert (2 ^ d <= 2 ^ 0) by (subst d; lia). simpl in *. lia.
    - destruct (Z.leb_spec d 32); [assumption|].
      assert (2 ^ 32 <= 2 ^ (d - 1)) by (apply Z.pow_le_mono_r; lia). lia. }
  replace (Z.max (d + 0 - 53) (-1074)) with (d - 53) by lia.
  unfold scaled. destruct (Z.leb_spec (d - 53) 0) as [_|]; [|lia].
  replace (0 - (d - 53)) with (53 - d) by lia.
  assert (B : 2 ^ 52 <= Z.pos p * 2 ^ (53 - d) < 2 ^ 53).
  { assert (E1 : 2 ^ (d - 1) * 2 ^ (53 - d) = 2 ^ 52)
      by (rewrite <- Z.pow_add_r by lia; f_equal; lia).
    assert (E2 : 2 ^ d * 2 ^ (53 - d) = 2 ^ 53)
      by (rewrite <- Z.pow_add_r by lia; f_equal; lia).
    pose proof (pow2_pos (53 - d) ltac:(lia)). nia. }
  unfold finish.
  destruct (Z.eqb_spec (Z.pos p * 2 ^ (53 - d)) 0); [lia|].
  destruct (Z.ltb_spec (Z.pos p * 2 ^ (53 - d)) (2 ^ 53)); [|lia].
  destruct (Z.leb_spec (d - 53) 971); [|lia].
  exists (Z.to_pos (Z.pos p * 2 ^ (53 - d))), (d - 53).
  rewrite Z2Pos.id by lia.
  replace (- (d - 53)) with (53 - d) by lia.
  repeat split; lia.
Qed.

(** The rank of the quotient of two [uint32]s that are not zero reaches
    that of one half exactly when the quotient of the integers does. *)
Lemma quotient_rank (F R : Z) :
  0 < F < 2 ^ 32 -> 0 < R < 2 ^ 32 ->
  exists v,
    rank (services.float64 F / services.float64 R) = Some v
    /\ (2 ^ 1073 <= v <-> R <= 2 * F).
Proof.
  intros HF HR. unfold rank. rewrite div_spec. unfold SF64div.
  destruct (float64_finite F HF) as (m1 & e1 & -> & M1 & B1 & E1).
  destruct (float64_finite R HR) as (m2 & e2 & -> & M2 & B2 & E2).
  cbn [SFdiv xorb]. unfold SFdiv_core_binary. cbn [Zdigits2].
  rewrite (digits_unique m1 53), (digits_unique m2 53) by (simpl; lia).
  rewrite fexp64.
  replace (Z.min (Z.max (53 + e1 - (53 + e2) - 53) (-1074)) (e1 - e2))
    with (e1 - e2 - 53) by lia.
  replace (e1 - e2 - (e1 - e2 - 53)) with 53 by lia.
  rewrite Z.shiftl_mul_pow2 by lia.
  set (X := Z.pos m1 * 2 ^ 53).
  assert (Q : fst (Z.div_eucl X (Z.pos m2)) = X / Z.pos m2) by reflexivity.
  destruct (Z.div_eucl X (Z.pos m2)) as [q r]. cbn [fst] in Q.
  set (l := new_location (Z.pos m2) r). clearbody l.
  set (PA := 2 ^ (- e1)) in *. set (PB := 2 ^ (- e2)) in *.
  assert (HPA : 2 ^ 21 <= PA) by (apply Z.pow_le_mono_r; lia).
  assert (HPB : 0 < PB) by (apply Z.pow_pos_nonneg; lia).
  (* the quotient has 53 or 54 digits *)
  assert (Hq : 2 ^ 52 <= q < 2 ^ 54).
  { rewrite Q. split.
    - apply Z.div_le_lower_bound; [lia|]. unfold X.
      change (2 ^ 53) with (2 * 2 ^ 52). nia.
    - apply Z.div_lt_upper_bound; [lia|]. unfold X.
      change (2 ^ 54) with (2 ^ 53 * 2). change (2 ^ 53) with (2 * 2 ^ 52). nia. }
  destruct q as [|q|q]; try (simpl in Hq; lia).
  pose proof (digits_bounds q) as [Dl Du].
  set (d := Z.pos (digits2_pos q)) in *.
  assert (Hd : 53 <= d <= 54).
  { split.
    - destruct (Z.leb_spec 53 d); [assumption|].
      assert (2 ^ d <= 2 ^ 52) by (apply Z.pow_le_mono_r; lia). lia.
    - destruct (Z.leb_spec d 54); [assumption|].
      assert (2 ^ 54 <= 2 ^ (d - 1)) by (apply Z.pow_le_mono_r; lia). lia. }
  pose proof (binary_round_aux_bounds false q (e1 - e2 - 53) l) as A.
  cbv zeta in A. rewrite fexp64 in A. fold d in A.
  replace (Z.max (d + (e1 - e2 - 53) - 53) (-1074)) with (d + (e1 - e2 - 53) - 53) in A by lia.
  destruct A as (n & -> & Hn); [lia|lia|].
  replace (d + (e1 - e2 - 53) - 53 - (e1 - e2 - 53)) with (d - 53) in Hn by lia.
  set (k := d - 53) in *. set (K := 2 ^ k) in *.
  assert (HK : 1 <= K <= 2).
  { subst K. assert (k = 0 \/ k = 1) as [-> | ->] by lia; simpl; lia. }
  assert (Hq' : 2 ^ 52 * K <= Z.pos q < 2 ^ 53 * K).
  { subst K. rewrite <- !Z.pow_add_r by lia.
    replace (52 + k) with (d - 1) by lia. replace (53 + k) with d by lia. lia. }
  assert (Hdiv : 2 ^ 52 <= Z.pos q / K < 2 ^ 53).
  { split; [apply Z.div_le_lower_bound; lia|apply Z.div_lt_upper_bound; lia]. }
  set (E := d + (e1 - e2 - 53) - 53) in *.
  rewrite SFrank_finish by lia.
  set (P := 2 ^ (E + 1074)).
  assert (HP : 0 < P) by (apply Z.pow_pos_nonneg; lia).
  assert (HPle : P <= 2 ^ 1074) by (apply Z.pow_le_mono_r; lia).
  assert (Hsat : saturate (n * P) = n * P).
  { unfold saturate, OVERFLOW.
    assert (n * P <= 2 ^ 53 * 2 ^ 1074) by nia.
    assert (2 ^ 53 * 2 ^ 1074 < 2 ^ 2098) by reflexivity.
    destruct (Z.ltb_spec (n * P) (2 ^ 2098)); lia. }
  rewrite Hsat. exists (n * P). split; [reflexivity|].
  set (t := 52 - k + (- e1) - (- e2)).
  set (T := 2 ^ t).
  assert (HT : 0 < T) by (apply Z.pow_pos_nonneg; lia).
  assert (I1 : T * PB * K = 2 ^ 52 * PA).
  { subst T PB K PA. rewrite <- !Z.pow_add_r by lia. f_equal. lia. }
  assert (I2 : 2 ^ 1073 = T * P).
  { subst T P. rewrite <- Z.pow_add_r by lia. f_equal. lia. }
  rewrite I2.
  assert (QK : Z.pos q / K = X / (Z.pos m2 * K)).
  { rewrite Q. apply Z.div_div; lia. }
  assert (HX : X = 2 * F * (2 ^ 52 * PA)).
  { unfold X. rewrite M1. change (2 ^ 53) with (2 * 2 ^ 52). ring. }
  assert (HY : Z.pos m2 * K * T = R * (2 ^ 52 * PA)).
  { rewrite M2, <- I1. ring. }
  assert (Hbig : 0 < 2 ^ 52 * PA) by lia.
  split.
  - intros Hv. assert (T <= n) by nia.
    destruct (Z.leb_spec R (2 * F)) as [|Hlt]; [assumption|exfalso].
    assert (Z.pos q / K < T - 1); [|lia].
    rewrite QK. apply Z.div_lt_upper_bound; [lia|].
    assert (Z.pos m2 * K < 2 ^ 52 * PA).
    { assert (Z.pos m2 * K < 2 ^ 54) by (change (2 ^ 54) with (2 ^ 53 * 2); nia).
      assert (2 ^ 54 <= 2 ^ 52 * 2 ^ 21) by (simpl; lia). nia. }
    nia.
  - intros Hle. assert (T <= n); [|nia].
    assert (T <= Z.pos q / K); [|lia].
    rewrite QK. apply Z.div_le_lower_bound; [lia|]. nia.
Qed.


Lemma rank_half : rank 0.5%float = Some (2 ^ 1073).
Proof. vm_compute. reflexivity. Qed.

(** X25: with the failure ratio 0.5 of the default configuration,
    ReadyToTrip holds exactly when the requests counted have reached the
    threshold and at least half of them failed: the quotient of the two
    counts, rounded to a float64, is at least 0.5 exactly when twice the
    failures are at least the requests. *)
Theorem ReadyToTrip_at_half (cbConfig : CircuitBreakerConfig)
        (counts : gobreaker.Counts) :
  FailureRatio cbConfig = 0.5%float ->
  0 <= gobreaker.TotalFailures counts < 2 ^ 32 ->
  0 < gobreaker.Requests counts < 2 ^ 32 ->
  services.ReadyToTrip cbConfig counts
  = (services.uint32 (RequestThreshold cbConfig) <=? gobreaker.Requests counts)
    && (gobreaker.Requests counts <=? 2 * gobreaker.TotalFailures counts).
Proof.
  intros Hr HF HR. unfold services.ReadyToTrip. rewrite Hr. f_equal.
  destruct (Z.eq_dec (gobreaker.TotalFailures counts) 0) as [Z0|NZ].
  - rewrite Z0.
    destruct (float64_finite _ HR) as (m & e & Hy & _).
    assert (Hq : rank (services.float64 0 / services.float64 (gobreaker.Requests counts))
                 = Some 0).
    { unfold rank. rewrite div_spec, Hy. reflexivity. }
    rewrite (leb_rank _ _ _ _ rank_half Hq).
    destruct (Z.leb_spec (gobreaker.Requests counts) (2 * 0)); [lia|reflexivity].
  - destruct (quotient_rank (gobreaker.TotalFailures counts)
                (gobreaker.Requests counts) ltac:(lia) HR) as (v & Hv & Hiff).
    rewrite (leb_rank _ _ _ _ rank_half Hv).
    destruct (Z.leb_spec (2 ^ 1073) v), (Z.leb_spec (gobreaker.Requests counts)
                                            (2 * gobreaker.TotalFailures counts));
      try reflexivity; exfalso; lia.
Qed.

Lemma ReadyToTrip_at_half_witness :
  services.ReadyToTrip default_config (gobreaker.mkCounts 7 3 4)
  = (services.uint32 5 <=? 7) && (7 <=? 2 * 4).
Proof.
  apply (ReadyToTrip_at_half default_config (gobreaker.mkCounts 7 3 4));
    [reflexivity|cbn; lia|cbn; lia].
Defined.

End Division.
